(** * Camera event logger: event store, history list and swipe-to-delete

    A shallow embedding of the page script (the swipeable variant and the
    plain variant of [script.js]) together with the properties of its
    event store and of its drag recognizer.

    Layout:
    - [Json]     : the JSON values the script handles, [JSON.stringify],
                   [JSON.parse], [String(..)] and [parseInt];
    - [Page]     : the page state (module variables, storage areas, the
                   history items with their recognizer closures, timers),
                   every function of the script, and the vocabulary of the
                   statements;
    - [Forms], [Examples] : derived forms for the proofs, concrete pages;
    - the facts  : the JSON round trip, the handlers on one recognizer, the
                   event store, loading, the drag, captures and startup. *)

From Stdlib Require Import ZArith NArith Ascii String List Lia Bool Sorted.
From Stdlib Require Import Decimal DecimalString DecimalPos DecimalN DecimalZ.
From stdpp Require Import base option list gmap strings.

Local Open Scope Z_scope.
Local Set Warnings "-register-all".

(* ===================================================================== *)
(** * JSON values and the built-ins the script calls on them *)
(* ===================================================================== *)

Module Json.

(** JavaScript numbers are doubles.  The model carries the integers of
    magnitude at most 2^53 - 1 ([Number.MAX_SAFE_INTEGER]): a double holds
    each of them exactly, and [String] and [JSON.stringify] print them in
    plain decimal notation.  Every clock reading is one of them.  A number
    outside this range has no value in the model. *)
Definition MAX_SAFE_INTEGER : Z := 9007199254740991.

Definition is_safe (z : Z) : bool := Z.abs z <=? MAX_SAFE_INTEGER.

Record int53 : Type := mkInt {
  int_val :> Z;
  int_safe : Is_true (is_safe int_val)
}.

(** The number of the model that an integer is, if it is one. *)
Definition int53_of_Z (z : Z) : option int53 :=
  match is_safe z as b return (Is_true b -> int53) -> option int53 with
  | true => fun k => Some (k I)
  | false => fun _ => None
  end (fun H => mkInt z H).

(** JavaScript values that [JSON.parse] can produce.  Strings are
    sequences of code units below 256.  Objects list their own properties
    in enumeration order. *)
Inductive json : Type :=
| JNull
| JBool (b : bool)
| JNum (n : int53)
| JStr (s : string)
| JArr (elems : list json)
| JObj (props : list (string * json)).

(** The double quote character, code 34. *)
Definition dquote : ascii := "034"%char.

Definition hex_digit (n : N) : ascii :=
  if (n <? 10)%N then ascii_of_N (48 + n) else ascii_of_N (87 + n).

(** [QuoteJSONString], one code unit. *)
Definition escape_char (c : ascii) : string :=
  let n := N_of_ascii c in
  if Ascii.eqb c dquote then String "\" (String dquote EmptyString)
  else if Ascii.eqb c "\" then "\\"
  else if (n =? 8)%N then "\b"
  else if (n =? 9)%N then "\t"
  else if (n =? 10)%N then "\n"
  else if (n =? 12)%N then "\f"
  else if (n =? 13)%N then "\r"
  else if (n <? 32)%N then
    String "\" (String "u" (String "0" (String "0"
      (String (hex_digit (n / 16)) (String (hex_digit (n mod 16)) EmptyString)))))
  else String c EmptyString.

Fixpoint escape (s : string) : string :=
  match s with
  | EmptyString => EmptyString
  | String c r => escape_char c +:+ escape r
  end.

Definition quote (s : string) : string :=
  String dquote (escape s +:+ String dquote EmptyString).

(** The decimal numeral of an integer. *)
Definition decimal (z : Z) : string := NilZero.string_of_int (Z.to_int z).

(** [Number::toString] on a number of the model: below 10^21 a number is
    printed in plain decimal notation, and an int53 is below 2^53. *)
Definition Number_toString (n : int53) : string := decimal n.

Fixpoint join (sep : string) (l : list string) : string :=
  match l with
  | [] => EmptyString
  | [x] => x
  | x :: r => x +:+ sep +:+ join sep r
  end.

(** [JSON.stringify(v)] for a value without [undefined] parts. *)
Fixpoint stringify (v : json) : string :=
  match v with
  | JNull => "null"
  | JBool true => "true"
  | JBool false => "false"
  | JNum n => Number_toString n
  | JStr s => quote s
  | JArr l => "[" +:+ join "," (map stringify l) +:+ "]"
  | JObj l =>
      "{" +:+ join "," (map (fun kv => quote (fst kv) +:+ ":" +:+ stringify (snd kv)) l)
          +:+ "}"
  end.

(** ** Parsing *)

(** Outcome of a parsing step.  [PUnsupported] marks text outside the
    fragment carried by [json] (a number with a fraction or an exponent or
    of magnitude above 2^53 - 1, a code unit above 255) or nesting deeper
    than the recursion bound; no statement below rests on it. *)
Inductive presult (A : Type) : Type :=
| POk (a : A) (rest : string)
| PSyntax
| PUnsupported.
Arguments POk {A} a rest.
Arguments PSyntax {A}.
Arguments PUnsupported {A}.

Definition pmap {A B} (f : A -> B) (r : presult A) : presult B :=
  match r with
  | POk a rest => POk (f a) rest
  | PSyntax => PSyntax
  | PUnsupported => PUnsupported
  end.

Definition is_ws (c : ascii) : bool :=
  let n := N_of_ascii c in
  ((n =? 32) || (n =? 9) || (n =? 10) || (n =? 13))%N.

Fixpoint skip_ws (s : string) : string :=
  match s with
  | String c r => if is_ws c then skip_ws r else s
  | EmptyString => EmptyString
  end.

Definition hex_val (c : ascii) : option N :=
  let n := N_of_ascii c in
  if ((48 <=? n) && (n <=? 57))%N then Some (n - 48)%N
  else if ((97 <=? n) && (n <=? 102))%N then Some (n - 87)%N
  else if ((65 <=? n) && (n <=? 70))%N then Some (n - 55)%N
  else None.

Definition hex4 (a b c d : ascii) : option N :=
  match hex_val a, hex_val b, hex_val c, hex_val d with
  | Some x, Some y, Some z, Some w => Some (((x * 16 + y) * 16 + z) * 16 + w)%N
  | _, _, _, _ => None
  end.

Definition simple_escape (e : ascii) : option ascii :=
  if Ascii.eqb e dquote then Some dquote
  else if Ascii.eqb e "\" then Some "\"%char
  else if Ascii.eqb e "/" then Some "/"%char
  else if Ascii.eqb e "b" then Some (ascii_of_N 8)
  else if Ascii.eqb e "f" then Some (ascii_of_N 12)
  else if Ascii.eqb e "n" then Some (ascii_of_N 10)
  else if Ascii.eqb e "r" then Some (ascii_of_N 13)
  else if Ascii.eqb e "t" then Some (ascii_of_N 9)
  else None.

(** The characters of a string literal, after its opening quote. *)
Fixpoint parse_chars (s : string) : presult string :=
  match s with
  | EmptyString => PSyntax
  | String c r =>
      if Ascii.eqb c dquote then POk EmptyString r
      else if Ascii.eqb c "\" then
        match r with
        | EmptyString => PSyntax
        | String e r1 =>
            if Ascii.eqb e "u" then
              match r1 with
              | String h1 (String h2 (String h3 (String h4 r2))) =>
                  match hex4 h1 h2 h3 h4 with
                  | Some n =>
                      if (n <? 256)%N
                      then pmap (String (ascii_of_N n)) (parse_chars r2)
                      else PUnsupported
                  | None => PSyntax
                  end
              | _ => PSyntax
              end
            else
              match simple_escape e with
              | Some c' => pmap (String c') (parse_chars r1)
              | None => PSyntax
              end
        end
      else if (N_of_ascii c <? 32)%N then PSyntax
      else pmap (String c) (parse_chars r)
  end.

Definition digit_of_ascii (c : ascii) : option (uint -> uint) :=
  match c with
  | "0" => Some D0 | "1" => Some D1 | "2" => Some D2 | "3" => Some D3
  | "4" => Some D4 | "5" => Some D5 | "6" => Some D6 | "7" => Some D7
  | "8" => Some D8 | "9" => Some D9
  | _ => None
  end%char.

(** The longest prefix of decimal digits. *)
Fixpoint scan_uint (s : string) : uint * string :=
  match s with
  | EmptyString => (Nil, EmptyString)
  | String c r =>
      match digit_of_ascii c with
      | Some d => let '(u, r') := scan_uint r in (d u, r')
      | None => (Nil, s)
      end
  end.

#[global] Instance uint_eq_decision : EqDecision uint := Decimal.uint_eq_dec.

Definition starts_fraction (s : string) : bool :=
  match s with
  | String c _ => Ascii.eqb c "." || Ascii.eqb c "e" || Ascii.eqb c "E"
  | EmptyString => false
  end.

(** A number literal: optional minus, then [0] or a digit string without
    leading zero.  An integer that a double would have to round is outside
    the model. *)
Definition parse_number (s : string) : presult json :=
  let '(neg, s1) :=
    match s with
    | String c r => if Ascii.eqb c "-" then (true, r) else (false, s)
    | EmptyString => (false, s)
    end in
  let '(u, r) := scan_uint s1 in
  if bool_decide (unorm u = u) then
    if starts_fraction r then PUnsupported
    else
      match int53_of_Z (if neg then - Z.of_uint u else Z.of_uint u) with
      | Some n => POk (JNum n) r
      | None => PUnsupported
      end
  else PSyntax.

Fixpoint strip_prefix (p s : string) : option string :=
  match p, s with
  | EmptyString, _ => Some s
  | String a p', String b s' => if Ascii.eqb a b then strip_prefix p' s' else None
  | String _ _, EmptyString => None
  end.

Definition parse_literal (lit : string) (v : json) (s : string) : presult json :=
  match strip_prefix lit s with
  | Some r => POk v r
  | None => PSyntax
  end.

(** Whether a property key is an array index (a canonical numeric string
    below 2^32 - 1); such keys are enumerated first, in ascending order. *)
Definition array_index (k : string) : option N :=
  match scan_uint k with
  | (u, EmptyString) =>
      if bool_decide (unorm u = u) && (N.of_uint u <? 4294967295)%N
      then Some (N.of_uint u) else None
  | _ => None
  end.

Fixpoint replace_prop (k : string) (v : json) (l : list (string * json))
  : option (list (string * json)) :=
  match l with
  | [] => None
  | (k', v') :: r =>
      if String.eqb k k' then Some ((k, v) :: r)
      else option_map (cons (k', v')) (replace_prop k v r)
  end.

Fixpoint insert_index (i : N) (k : string) (v : json) (l : list (string * json))
  : list (string * json) :=
  match l with
  | [] => [(k, v)]
  | (k', v') :: r =>
      match array_index k' with
      | Some j => if (j <? i)%N then (k', v') :: insert_index i k v r
                  else (k, v) :: l
      | None => (k, v) :: l
      end
  end.

(** [CreateDataProperty] on an ordinary object. *)
Definition set_prop (k : string) (v : json) (l : list (string * json))
  : list (string * json) :=
  match replace_prop k v l with
  | Some l' => l'
  | None =>
      match array_index k with
      | Some i => insert_index i k v l
      | None => l ++ [(k, v)]
      end
  end.

Section Containers.
Variable pv : string -> presult json.

(** Elements of a non-empty array, after the opening bracket. *)
Fixpoint parse_elements (n : nat) (s : string) : presult (list json) :=
  match n with
  | O => PUnsupported
  | S n' =>
      match pv s with
      | POk v r =>
          match skip_ws r with
          | String c r' =>
              if Ascii.eqb c "," then pmap (cons v) (parse_elements n' r')
              else if Ascii.eqb c "]" then POk [v] r'
              else PSyntax
          | EmptyString => PSyntax
          end
      | PSyntax => PSyntax
      | PUnsupported => PUnsupported
      end
  end.

(** Members of a non-empty object, after the opening brace. *)
Fixpoint parse_members (n : nat) (acc : list (string * json)) (s : string)
  : presult (list (string * json)) :=
  match n with
  | O => PUnsupported
  | S n' =>
      match skip_ws s with
      | String q r =>
          if Ascii.eqb q dquote then
            match parse_chars r with
            | POk k r1 =>
                match skip_ws r1 with
                | String c r2 =>
                    if Ascii.eqb c ":" then
                      match pv r2 with
                      | POk v r3 =>
                          let acc' := set_prop k v acc in
                          match skip_ws r3 with
                          | String d r4 =>
                              if Ascii.eqb d "," then parse_members n' acc' r4
                              else if Ascii.eqb d "}" then POk acc' r4
                              else PSyntax
                          | EmptyString => PSyntax
                          end
                      | PSyntax => PSyntax
                      | PUnsupported => PUnsupported
                      end
                    else PSyntax
                | EmptyString => PSyntax
                end
            | PSyntax => PSyntax
            | PUnsupported => PUnsupported
            end
          else PSyntax
      | EmptyString => PSyntax
      end
  end.

End Containers.

Fixpoint parse_value (fuel : nat) (s : string) : presult json :=
  match fuel with
  | O => PUnsupported
  | S n =>
      match skip_ws s with
      | EmptyString => PSyntax
      | String c r =>
          if Ascii.eqb c "[" then
            match skip_ws r with
            | String c' r' =>
                if Ascii.eqb c' "]" then POk (JArr []) r'
                else pmap JArr (parse_elements (parse_value n) n r)
            | EmptyString => PSyntax
            end
          else if Ascii.eqb c "{" then
            match skip_ws r with
            | String c' r' =>
                if Ascii.eqb c' "}" then POk (JObj []) r'
                else pmap JObj (parse_members (parse_value n) n [] r)
            | EmptyString => PSyntax
            end
          else if Ascii.eqb c dquote then pmap JStr (parse_chars r)
          else if Ascii.eqb c "t" then parse_literal "true" (JBool true) (String c r)
          else if Ascii.eqb c "f" then parse_literal "false" (JBool false) (String c r)
          else if Ascii.eqb c "n" then parse_literal "null" JNull (String c r)
          else parse_number (String c r)
      end
  end.

(** What [JSON.parse(text)] does. *)
Inductive parsed : Type :=
| Parsed (v : json)
| SyntaxErr
| Unsupported.

Definition JSON_parse (text : string) : parsed :=
  match parse_value (S (String.length text)) text with
  | POk v r =>
      match skip_ws r with
      | EmptyString => Parsed v
      | String _ _ => SyntaxErr
      end
  | PSyntax => SyntaxErr
  | PUnsupported => Unsupported
  end.

(** ** Property access, [String(..)], [parseInt], strict inequality *)

Fixpoint assoc (k : string) (l : list (string * json)) : option json :=
  match l with
  | [] => None
  | (k', v) :: r => if String.eqb k k' then Some v else assoc k r
  end.

(** [v.k] for a key [k] that no built-in prototype defines ([id],
    [timestamp], [formattedTime], [cameraName], [imageData]): [None] is the
    TypeError raised on [null], [Some None] is [undefined]. *)
Definition get_prop (k : string) (v : json) : option (option json) :=
  match v with
  | JNull => None
  | JObj props => Some (assoc k props)
  | _ => Some None
  end.

(** [String(v)]. *)
Fixpoint to_string (v : json) : string :=
  match v with
  | JNull => "null"
  | JBool true => "true"
  | JBool false => "false"
  | JNum n => Number_toString n
  | JStr s => s
  | JArr l =>
      join "," (map (fun e => match e with JNull => EmptyString | _ => to_string e end) l)
  | JObj _ => "[object Object]"
  end.

Definition to_string_undef (o : option json) : string :=
  match o with
  | Some v => to_string v
  | None => "undefined"
  end.

Definition is_js_space (c : ascii) : bool :=
  let n := N_of_ascii c in
  (((9 <=? n) && (n <=? 13)) || (n =? 32) || (n =? 160))%N.

Fixpoint trim_left (s : string) : string :=
  match s with
  | String c r => if is_js_space c then trim_left r else s
  | EmptyString => EmptyString
  end.

(** Value of the longest prefix of hexadecimal digits, if there is one. *)
Fixpoint scan_hex (s : string) (acc : option Z) : option Z :=
  match s with
  | EmptyString => acc
  | String c r =>
      match hex_val c with
      | Some d => scan_hex r (Some (match acc with Some a => a | None => 0 end * 16 + Z.of_N d))
      | None => acc
      end
  end.

Definition hex_prefix (s : string) : option string :=
  match s with
  | String z (String x r) =>
      if Ascii.eqb z "0" && (Ascii.eqb x "x" || Ascii.eqb x "X") then Some r else None
  | _ => None
  end.

(** What [parseInt] returns: [NaN], an integer of the model, or a double
    of magnitude 2^53 or more (the digits denote an integer beyond the
    exact range, which [parseInt] rounds).  The model does not carry the
    value of the last; it only uses that such a number is none of the
    numbers of the model. *)
Inductive parsed_int : Type :=
| NaN
| Int (n : int53)
| Beyond.

(** [parseInt(s)] without a radix. *)
Definition parseInt (s : string) : parsed_int :=
  let s1 := trim_left s in
  let '(neg, s2) :=
    match s1 with
    | String c r =>
        if Ascii.eqb c "-" then (true, r)
        else if Ascii.eqb c "+" then (false, r)
        else (false, s1)
    | EmptyString => (false, s1)
    end in
  let magnitude :=
    match hex_prefix s2 with
    | Some r => scan_hex r None
    | None =>
        match scan_uint s2 with
        | (Nil, _) => None
        | (u, _) => Some (Z.of_uint u)
        end
    end in
  match magnitude with
  | Some m =>
      match int53_of_Z (if neg then - m else m) with
      | Some n => Int n
      | None => Beyond
      end
  | None => NaN
  end.

(** [x !== n] where [x] is a property value or [undefined] and [n] is what
    [parseInt] returned. *)
Definition strict_neq (x : option json) (n : parsed_int) : bool :=
  match x, n with
  | Some (JNum a), Int b => negb (a =? b)
  | _, _ => true
  end.

End Json.

(* ===================================================================== *)
(** * The page *)
(* ===================================================================== *)

Module Page.
Import Json.

(** ** Constants *)

Definition CAMERA_NAME : string := "Camera 1".
Definition LOCAL_STORAGE_KEY : string := "camera_events".

(** The two variants of the script: the one whose history items are
    swipeable (it hands events to the dashboard through [localStorage] and
    [window.open]) and the plain one (it appends to a [sessionStorage]
    list). *)
Inductive variant : Type := Swipeable | Plain.

Definition DASHBOARD_URL (v : variant) : string :=
  match v with
  | Swipeable => "https://shreyanssatpute.github.io/dashboard/"
  | Plain => "../dashboard/index.html"
  end.

(** ** State *)

(** The variables captured by one call of [makeHistoryItemSwipeable]:
    [let startX, moveX, currentTranslate = 0; let isDragging = false].
    Coordinates are whole CSS pixels; [None] is [undefined]. *)
Record swipe : Type := mkSwipe {
  startX : option Z;
  moveX : option Z;
  currentTranslate : Z;
  isDragging : bool
}.

Definition new_swipe : swipe := mkSwipe None None 0 false.

Inductive transform : Type :=
| TranslateX (px : Z)      (* translateX(<px>px) *)
| TranslateZero            (* translateX(0) *)
| TranslateOff.            (* translateX(-100%) *)

Inductive transition : Type :=
| TransitionNone           (* none *)
| TransformEase.           (* transform 0.3s ease *)

(** A history item. *)
Record element : Type := mkElement {
  dataset_id : option string;           (* data-id attribute *)
  image_src : string;                   (* from event.imageData *)
  time_text : string;                   (* from event.formattedTime *)
  camera_text : string;                 (* from event.cameraName *)
  delete_ready : bool;                  (* class delete-ready *)
  style_transform : option transform;
  style_transition : option transition;
  collapsed : bool;                     (* height, margin-bottom, opacity at 0 *)
  recognizers : list swipe              (* one per makeHistoryItemSwipeable call:
                                           one on a captured item, three on an
                                           item rendered by loadEvents *)
}.

Definition upd_startX (f : option Z -> option Z) (x : swipe) : swipe :=
  mkSwipe (f (startX x)) (moveX x) (currentTranslate x) (isDragging x).
Definition upd_moveX (f : option Z -> option Z) (x : swipe) : swipe :=
  mkSwipe (startX x) (f (moveX x)) (currentTranslate x) (isDragging x).
Definition upd_currentTranslate (f : Z -> Z) (x : swipe) : swipe :=
  mkSwipe (startX x) (moveX x) (f (currentTranslate x)) (isDragging x).
Definition upd_isDragging (f : bool -> bool) (x : swipe) : swipe :=
  mkSwipe (startX x) (moveX x) (currentTranslate x) (f (isDragging x)).

Definition upd_delete_ready (f : bool -> bool) (x : element) : element :=
  mkElement (dataset_id x) (image_src x) (time_text x) (camera_text x)
    (f (delete_ready x)) (style_transform x) (style_transition x)
    (collapsed x) (recognizers x).
Definition upd_style_transform (f : option transform -> option transform)
    (x : element) : element :=
  mkElement (dataset_id x) (image_src x) (time_text x) (camera_text x)
    (delete_ready x) (f (style_transform x)) (style_transition x)
    (collapsed x) (recognizers x).
Definition upd_style_transition (f : option transition -> option transition)
    (x : element) : element :=
  mkElement (dataset_id x) (image_src x) (time_text x) (camera_text x)
    (delete_ready x) (style_transform x) (f (style_transition x))
    (collapsed x) (recognizers x).
Definition upd_collapsed (f : bool -> bool) (x : element) : element :=
  mkElement (dataset_id x) (image_src x) (time_text x) (camera_text x)
    (delete_ready x) (style_transform x) (style_transition x)
    (f (collapsed x)) (recognizers x).
Definition upd_recognizers (f : list swipe -> list swipe)
    (x : element) : element :=
  mkElement (dataset_id x) (image_src x) (time_text x) (camera_text x)
    (delete_ready x) (style_transform x) (style_transition x) (collapsed x)
    (f (recognizers x)).

Record notice : Type := mkNotice {
  notice_text : string;
  notice_error : bool;                  (* error background colour *)
  notice_shown : bool                   (* class show *)
}.

Inductive callback : Type :=
| HideNotification
| RemoveItem (h : nat).

(** A storage area: its items, and the room the browser gives it.  Sizes
    are counted in code units, over keys and values. *)
Record storage : Type := mkStorage {
  items : gmap string string;
  quota : N
}.

Definition item_size (k v : string) : N :=
  (N.of_nat (String.length k) + N.of_nat (String.length v))%N.

Definition used (s : storage) : N :=
  map_fold (fun k v n => (item_size k v + n)%N) 0%N (items s).

(** Whether [setItem(k, v)] is accepted.  The standard leaves the limit
    and its accounting to the browser; this is the check of Chromium's
    storage area: a write that does not make its item larger is always
    accepted, a larger one is accepted when the area then holds no more
    than its quota. *)
Definition accepts (s : storage) (k v : string) : bool :=
  let old := match items s !! k with
             | Some v0 => item_size k v0
             | None => 0%N
             end in
  let new := item_size k v in
  negb ((old <? new)%N && (quota s <? used s - old + new)%N).

(** The quota of an area in the examples: 5 Mi code units. *)
Definition DEFAULT_QUOTA : N := 5242880.

#[global] Instance storage_lookup : Lookup string string storage :=
  fun k s => items s !! k.
#[global] Instance storage_insert : Insert string string storage :=
  fun k v s => mkStorage (<[k := v]> (items s)) (quota s).
#[global] Instance storage_empty : Empty storage := mkStorage ∅ DEFAULT_QUOTA.
#[global] Instance storage_singleton : SingletonM string string storage :=
  fun k v => mkStorage {[ k := v ]} DEFAULT_QUOTA.

Record canvas_state : Type := mkCanvas {
  canvas_width : Z;
  canvas_height : Z;
  frames_drawn : nat
}.

Record page : Type := mkPage {
  stream : option nat;                  (* let stream = null: the camera handle *)
  events : json;                        (* let events = [] *)
  localStorage : storage;               (* survives a reload *)
  sessionStorage : storage;
  elements : list element;              (* every history item created so far,
                                           an item is named by its index *)
  historyContainer : list nat;          (* children of the history container,
                                           first child first *)
  notification : notice;
  timers : list (Z * callback);         (* pending setTimeout callbacks *)
  documentListeners : list (nat * nat); (* recognizers whose mousemove and
                                           mouseup handlers are on the document *)
  opened : list string;                 (* URLs given to window.open *)
  canvas : canvas_state;
  currentTime : string;                 (* text of the clock display *)
  interval : bool                       (* setInterval(updateCurrentTime, 1000)
                                           is installed *)
}.

Definition upd_stream (f : option nat -> option nat) (p : page) : page :=
  mkPage (f (stream p)) (events p) (localStorage p) (sessionStorage p)
    (elements p) (historyContainer p) (notification p) (timers p)
    (documentListeners p) (opened p) (canvas p) (currentTime p) (interval p).
Definition upd_events (f : json -> json) (p : page) : page :=
  mkPage (stream p) (f (events p)) (localStorage p) (sessionStorage p)
    (elements p) (historyContainer p) (notification p) (timers p)
    (documentListeners p) (opened p) (canvas p) (currentTime p) (interval p).
Definition upd_localStorage (f : storage -> storage) (p : page) : page :=
  mkPage (stream p) (events p) (f (localStorage p)) (sessionStorage p)
    (elements p) (historyContainer p) (notification p) (timers p)
    (documentListeners p) (opened p) (canvas p) (currentTime p) (interval p).
Definition upd_sessionStorage (f : storage -> storage) (p : page) : page :=
  mkPage (stream p) (events p) (localStorage p) (f (sessionStorage p))
    (elements p) (historyContainer p) (notification p) (timers p)
    (documentListeners p) (opened p) (canvas p) (currentTime p) (interval p).
Definition upd_elements (f : list element -> list element) (p : page) : page :=
  mkPage (stream p) (events p) (localStorage p) (sessionStorage p)
    (f (elements p)) (historyContainer p) (notification p) (timers p)
    (documentListeners p) (opened p) (canvas p) (currentTime p) (interval p).
Definition upd_historyContainer (f : list nat -> list nat) (p : page) : page :=
  mkPage (stream p) (events p) (localStorage p) (sessionStorage p)
    (elements p) (f (historyContainer p)) (notification p) (timers p)
    (documentListeners p) (opened p) (canvas p) (currentTime p) (interval p).
Definition upd_notification (f : notice -> notice) (p : page) : page :=
  mkPage (stream p) (events p) (localStorage p) (sessionStorage p)
    (elements p) (historyContainer p) (f (notification p)) (timers p)
    (documentListeners p) (opened p) (canvas p) (currentTime p) (interval p).
Definition upd_timers (f : list (Z * callback) -> list (Z * callback))
    (p : page) : page :=
  mkPage (stream p) (events p) (localStorage p) (sessionStorage p)
    (elements p) (historyContainer p) (notification p) (f (timers p))
    (documentListeners p) (opened p) (canvas p) (currentTime p) (interval p).
Definition upd_documentListeners (f : list (nat * nat) -> list (nat * nat))
    (p : page) : page :=
  mkPage (stream p) (events p) (localStorage p) (sessionStorage p)
    (elements p) (historyContainer p) (notification p) (timers p)
    (f (documentListeners p)) (opened p) (canvas p) (currentTime p)
    (interval p).
Definition upd_opened (f : list string -> list string) (p : page) : page :=
  mkPage (stream p) (events p) (localStorage p) (sessionStorage p)
    (elements p) (historyContainer p) (notification p) (timers p)
    (documentListeners p) (f (opened p)) (canvas p) (currentTime p)
    (interval p).
Definition upd_canvas (f : canvas_state -> canvas_state) (p : page) : page :=
  mkPage (stream p) (events p) (localStorage p) (sessionStorage p)
    (elements p) (historyContainer p) (notification p) (timers p)
    (documentListeners p) (opened p) (f (canvas p)) (currentTime p)
    (interval p).
Definition upd_currentTime (f : string -> string) (p : page) : page :=
  mkPage (stream p) (events p) (localStorage p) (sessionStorage p)
    (elements p) (historyContainer p) (notification p) (timers p)
    (documentListeners p) (opened p) (canvas p) (f (currentTime p))
    (interval p).
Definition upd_interval (f : bool -> bool) (p : page) : page :=
  mkPage (stream p) (events p) (localStorage p) (sessionStorage p)
    (elements p) (historyContainer p) (notification p) (timers p)
    (documentListeners p) (opened p) (canvas p) (currentTime p)
    (f (interval p)).

(** Module state of a freshly loaded page; only the storage areas survive
    a reload. *)
Definition fresh_page (ls ss : storage) : page :=
  mkPage None (JArr []) ls ss [] [] (mkNotice EmptyString false false) [] [] []
         (mkCanvas 0 0 0) EmptyString false.

(** ** Computations: state plus exceptions *)

Inductive exn : Type :=
| TypeError
| SyntaxError
| QuotaExceededError   (* the DOMException of a refused setItem *)
| OutsideModel.        (* not a JavaScript exception: the model has no answer *)

Inductive outcome (A : Type) : Type :=
| Ret (a : A)
| Throw (e : exn).
Arguments Ret {A} a.
Arguments Throw {A} e.

(** A computation keeps the effects made before an exception. *)
Definition M (A : Type) : Type := page -> outcome A * page.

#[global] Instance M_ret : MRet M := fun A a p => (Ret a, p).
#[global] Instance M_bind : MBind M := fun A B f m p =>
  match m p with
  | (Ret a, p') => f a p'
  | (Throw e, p') => (Throw e, p')
  end.

Definition throw {A} (e : exn) : M A := fun p => (Throw e, p).
Definition gets {A} (f : page -> A) : M A := fun p => (Ret (f p), p).
Definition modify (f : page -> page) : M unit := fun p => (Ret tt, f p).

Fixpoint forEach {A} (l : list A) (f : A -> M unit) : M unit :=
  match l with
  | [] => mret tt
  | x :: r => f x ;; forEach r f
  end.

(** ** Storage, notification, camera *)

(** [setItem] throws a QuotaExceededError, and writes nothing, when the
    area does not accept the item. *)
Definition localStorage_getItem (k : string) : M (option string) :=
  gets (fun p => localStorage p !! k).
Definition localStorage_setItem (k v : string) : M unit :=
  area ← gets localStorage;
  if accepts area k v then modify (upd_localStorage <[k := v]>)
  else throw QuotaExceededError.
Definition sessionStorage_getItem (k : string) : M (option string) :=
  gets (fun p => sessionStorage p !! k).
Definition sessionStorage_setItem (k v : string) : M unit :=
  area ← gets sessionStorage;
  if accepts area k v then modify (upd_sessionStorage <[k := v]>)
  else throw QuotaExceededError.

Definition setTimeout (c : callback) (delay : Z) : M unit :=
  modify (upd_timers (fun t => t ++ [(delay, c)])).

Definition showNotification (message : string) (isError : bool) : M unit :=
  modify (upd_notification (fun _ => mkNotice message isError true)) ;;
  setTimeout HideNotification 3000.

(** [initCamera] after [getUserMedia] settles: the body of the [try] once
    the promise resolves with a stream, and the [catch] branch. *)
Definition initCamera_resolved (s : nat) : M unit :=
  modify (upd_stream (fun _ => Some s)) ;;
  showNotification "Camera connected successfully" false.

Definition initCamera_rejected : M unit :=
  showNotification "Error accessing camera. Please check permissions." true.

Definition updateCurrentTime (now : string) : M unit :=
  modify (upd_currentTime (fun _ => now)).

(** What the video element offers when a snapshot is taken. *)
Record frame : Type := mkFrame {
  videoWidth : Z;
  videoHeight : Z;
  dataURL : string
}.

Definition takeSnapshot (f : frame) : M string :=
  modify (upd_canvas (fun c =>
    mkCanvas (videoWidth f) (videoHeight f) (S (frames_drawn c)))) ;;
  mret (dataURL f).

(** ** Recognizer closures *)

(** A closure is named by its item [h] and its position [c] among the
    recognizers of that item.  The script only ever holds items it created,
    so a name without an item or recognizer is answered [OutsideModel]. *)

Definition element_at (h : nat) : M element := fun p =>
  match elements p !! h with
  | Some e => (Ret e, p)
  | None => (Throw OutsideModel, p)
  end.

Definition vars (h c : nat) : M swipe :=
  e ← element_at h;
  match recognizers e !! c with
  | Some s => mret s
  | None => throw OutsideModel
  end.

Definition set_vars (h c : nat) (f : swipe -> swipe) : M unit :=
  modify (upd_elements (alter (upd_recognizers (alter f c)) h)).

Definition set_style (h : nat) (f : element -> element) : M unit :=
  modify (upd_elements (alter f h)).

(** ** Event store *)

Definition saveEvent (event : json) : M unit :=
  evs ← gets events;
  match evs with
  | JArr l => modify (upd_events (fun _ => JArr (l ++ [event])))
  | _ => throw TypeError
  end ;;
  evs' ← gets events;
  localStorage_setItem LOCAL_STORAGE_KEY (stringify evs').

Definition makeHistoryItemSwipeable (item : nat) : M unit :=
  set_style item (upd_recognizers (fun r => r ++ [new_swipe])).

Definition makeHistoryItemsSwipeable : M unit :=
  historyItems ← gets historyContainer;
  forEach historyItems makeHistoryItemSwipeable.

(** ** Markup *)

(** [addEventToHistory] splices three fields of the record into the markup
    it assigns to [innerHTML]: the image data inside a double-quoted
    attribute value, the camera name as text, the formatted time both ways.
    The HTML parser gives a string back as it was written when the string
    holds none of the code units it treats specially at that place: [&],
    NUL and carriage return everywhere, the double quote in an attribute
    value, [<] in text.  Any other string may be decoded, cut short, or
    turned into elements and attributes of its own; the model does not
    follow that and answers [OutsideModel]. *)
Definition special_anywhere (c : ascii) : bool :=
  let n := N_of_ascii c in
  ((n =? 38) || (n =? 0) || (n =? 13))%N.

Fixpoint all_chars (f : ascii -> bool) (s : string) : bool :=
  match s with
  | EmptyString => true
  | String c r => f c && all_chars f r
  end.

Definition attr_plain (s : string) : bool :=
  all_chars (fun c => negb (special_anywhere c || Ascii.eqb c dquote)) s.

Definition text_plain (s : string) : bool :=
  all_chars (fun c => negb (special_anywhere c || Ascii.eqb c "<")) s.

Definition renders_verbatim (image time camera : string) : bool :=
  attr_plain image && (attr_plain time && text_plain time) && text_plain camera.

Definition addEventToHistory (v : variant) (event : json) : M unit :=
  match get_prop "id" event with
  | None => throw TypeError               (* a property read on null *)
  | Some _ =>
      let field k := to_string_undef (default None (get_prop k event)) in
      if negb (renders_verbatim (field "imageData") (field "formattedTime")
                                (field "cameraName"))
      then throw OutsideModel else
      let historyItem :=
        mkElement (match v with Swipeable => Some (field "id") | Plain => None end)
                  (field "imageData") (field "formattedTime") (field "cameraName")
                  false None None false [] in
      h ← gets (fun p => length (elements p));
      modify (upd_elements (fun l => l ++ [historyItem])) ;;
      modify (upd_historyContainer (fun children =>
        match children with
        | _ :: _ => h :: children         (* insertBefore firstChild *)
        | [] => [h]                       (* appendChild *)
        end)) ;;
      match v with
      | Swipeable => makeHistoryItemSwipeable h
      | Plain => mret tt
      end
  end.

Definition loadEvents (v : variant) : M unit :=
  storedEvents ← localStorage_getItem LOCAL_STORAGE_KEY;
  match storedEvents with
  | None | Some EmptyString => mret tt
  | Some text =>
      match JSON_parse text with
      | Parsed value =>
          modify (upd_events (fun _ => value)) ;;
          match value with
          | JArr l => forEach l (addEventToHistory v)
          | _ => throw TypeError
          end
      | SyntaxErr => throw SyntaxError
      | Unsupported => throw OutsideModel
      end
  end ;;
  match v with
  | Swipeable => makeHistoryItemsSwipeable
  | Plain => mret tt
  end.

(** The properties of a list that are defined ([JSON.stringify] leaves
    out the others). *)
Fixpoint defined_props (l : list (string * option json)) : list (string * json) :=
  match l with
  | [] => []
  | (k, Some v) :: r => (k, v) :: defined_props r
  | (_, None) :: r => defined_props r
  end.

Definition sendToDashboard (v : variant) (event : json) : M unit :=
  match v with
  | Swipeable =>
      match get_prop "id" event with
      | None => throw TypeError
      | Some id =>
          let field k := default None (get_prop k event) in
          let dashboardEvent :=
            JObj (defined_props [("id", id); ("timestamp", field "timestamp");
                                 ("cameraName", field "cameraName");
                                 ("imageData", field "imageData")]) in
          localStorage_setItem ("dashboard_event_" +:+ to_string_undef id)
                               (stringify dashboardEvent) ;;
          modify (upd_opened (fun w =>
            w ++ [DASHBOARD_URL v +:+ "?eventId=" +:+ to_string_undef id]))
      end
  | Plain =>
      stored ← sessionStorage_getItem "dashboard_events";
      let text := match stored with
                  | None | Some EmptyString => "[]"
                  | Some t => t
                  end in
      match JSON_parse text with
      | Parsed (JArr dashboardEvents) =>
          sessionStorage_setItem "dashboard_events"
            (stringify (JArr (dashboardEvents ++ [event])))
      | Parsed _ => throw TypeError
      | SyntaxErr => throw SyntaxError
      | Unsupported => throw OutsideModel
      end
  end.

(** What the environment supplies to one click: [new Date()] rendered
    both ways, the video frame, and the reading of [Date.now()].  The
    reading is a time value, an integer of magnitude at most 8.64e15; the
    locale rendering of a date and the data URL of the canvas hold no
    markup. *)
Record capture : Type := mkCapture {
  date_iso : string;
  date_locale : string;
  shot : frame;
  date_now : Z;
  now_safe : Is_true (is_safe date_now);
  platform_plain : Is_true (renders_verbatim (dataURL shot) date_locale CAMERA_NAME)
}.

Definition now53 (env : capture) : int53 := mkInt (date_now env) (now_safe env).

Definition new_event (id : int53) (iso locale camera image : string) : json :=
  JObj [("id", JNum id); ("timestamp", JStr iso); ("formattedTime", JStr locale);
        ("cameraName", JStr camera); ("imageData", JStr image)].

Definition eventButton_click (v : variant) (env : capture) : M unit :=
  s ← gets stream;
  match s with
  | None => showNotification "Camera not available" true
  | Some _ =>
      imageData ← takeSnapshot (shot env);
      let event := new_event (now53 env) (date_iso env) (date_locale env)
                             CAMERA_NAME imageData in
      saveEvent event ;;
      addEventToHistory v event ;;
      sendToDashboard v event ;;
      showNotification "Event reported successfully" false
  end.

(** ** Deletion *)

(** [arr.filter(f)] for a callback that may throw ([None]). *)
Fixpoint array_filter {A} (f : A -> option bool) (l : list A) : option (list A) :=
  match l with
  | [] => Some []
  | x :: r =>
      match f x with
      | Some b =>
          match array_filter f r with
          | Some r' => Some (if b then x :: r' else r')
          | None => None
          end
      | None => None
      end
  end.

(** [event => event.id !== eventId] *)
Definition other_id (eventId : parsed_int) (event : json) : option bool :=
  match get_prop "id" event with
  | Some id => Some (strict_neq id eventId)
  | None => None
  end.

Definition deleteHistoryItem (item : nat) : M unit :=
  el ← element_at item;
  let eventId := match dataset_id el with
                 | Some s => parseInt s
                 | None => NaN             (* parseInt(undefined) *)
                 end in
  evs ← gets events;
  match evs with
  | JArr l =>
      match array_filter (other_id eventId) l with
      | Some l' => modify (upd_events (fun _ => JArr l'))
      | None => throw TypeError
      end
  | _ => throw TypeError
  end ;;
  evs' ← gets events;
  localStorage_setItem LOCAL_STORAGE_KEY (stringify evs') ;;
  set_style item (upd_collapsed (fun _ => true)) ;;
  set_style item (upd_style_transform (fun _ => Some TranslateOff)) ;;
  setTimeout (RemoveItem item) 300.

Definition run_callback (c : callback) : M unit :=
  match c with
  | HideNotification =>
      modify (upd_notification (fun n => mkNotice (notice_text n) (notice_error n) false))
  | RemoveItem item =>
      modify (upd_historyContainer (List.filter (fun x => negb (x =? item)%nat))) ;;
      showNotification "Event deleted" false
  end.

(** The [i]-th pending timer fires. *)
Definition fire (i : nat) : M unit :=
  t ← gets (fun p => timers p !! i);
  match t with
  | Some (_, c) => modify (upd_timers (delete i)) ;; run_callback c
  | None => mret tt
  end.

(** ** The recognizer of item [h], closure [c] *)

Definition handleTouchStart (h c : nat) (clientX : Z) : M unit :=
  set_vars h c (upd_startX (fun _ => Some clientX)) ;;
  set_vars h c (upd_isDragging (fun _ => true)) ;;
  set_style h (upd_style_transition (fun _ => Some TransitionNone)).

(** The result tells whether [e.preventDefault()] was called. *)
Definition handleTouchMove (h c : nat) (clientX : Z) : M bool :=
  s ← vars h c;
  if negb (isDragging s) then mret false
  else
    set_vars h c (upd_moveX (fun _ => Some clientX)) ;;
    match startX s with
    | None => mret false                  (* diffX is NaN, NaN < 0 is false *)
    | Some x0 =>
        let diffX := clientX - x0 in
        if diffX <? 0 then
          set_vars h c (upd_currentTranslate (fun _ => diffX)) ;;
          s' ← vars h c;
          set_style h
            (upd_style_transform (fun _ => Some (TranslateX (currentTranslate s')))) ;;
          (if currentTranslate s' <? -80
           then set_style h (upd_delete_ready (fun _ => true))
           else set_style h (upd_delete_ready (fun _ => false))) ;;
          mret true
        else mret false
    end.

(** The result tells whether the item was deleted. *)
Definition handleTouchEnd (h c : nat) : M bool :=
  set_vars h c (upd_isDragging (fun _ => false)) ;;
  set_style h (upd_style_transition (fun _ => Some TransformEase)) ;;
  s ← vars h c;
  if currentTranslate s <? -100 then
    deleteHistoryItem h ;; mret true
  else
    set_vars h c (upd_currentTranslate (fun _ => 0)) ;;
    set_style h (upd_style_transform (fun _ => Some TranslateZero)) ;;
    set_style h (upd_delete_ready (fun _ => false)) ;;
    mret false.

(** [document.addEventListener] with a listener that may be there already. *)
Definition add_listener (l : nat * nat) (ls : list (nat * nat)) : list (nat * nat) :=
  if bool_decide (l ∈ ls) then ls else ls ++ [l].

Definition handleMouseDown (h c : nat) (clientX : Z) : M unit :=
  set_vars h c (upd_startX (fun _ => Some clientX)) ;;
  set_vars h c (upd_isDragging (fun _ => true)) ;;
  set_style h (upd_style_transition (fun _ => Some TransitionNone)) ;;
  modify (upd_documentListeners (add_listener (h, c))).

Definition handleMouseMove (h c : nat) (clientX : Z) : M unit :=
  s ← vars h c;
  if negb (isDragging s) then mret tt
  else
    set_vars h c (upd_moveX (fun _ => Some clientX)) ;;
    match startX s with
    | None => mret tt
    | Some x0 =>
        let diffX := clientX - x0 in
        if diffX <? 0 then
          set_vars h c (upd_currentTranslate (fun _ => diffX)) ;;
          s' ← vars h c;
          set_style h
            (upd_style_transform (fun _ => Some (TranslateX (currentTranslate s')))) ;;
          (if currentTranslate s' <? -80
           then set_style h (upd_delete_ready (fun _ => true))
           else set_style h (upd_delete_ready (fun _ => false)))
        else mret tt
    end.

(** The result tells whether the item was deleted. *)
Definition handleMouseUp (h c : nat) : M bool :=
  s ← vars h c;
  if negb (isDragging s) then mret false
  else
    set_vars h c (upd_isDragging (fun _ => false)) ;;
    set_style h (upd_style_transition (fun _ => Some TransformEase)) ;;
    modify (upd_documentListeners
              (List.filter (fun l => negb (bool_decide (l = (h, c)))))) ;;
    s' ← vars h c;
    if currentTranslate s' <? -100 then
      deleteHistoryItem h ;; mret true
    else
      set_vars h c (upd_currentTranslate (fun _ => 0)) ;;
      set_style h (upd_style_transform (fun _ => Some TranslateZero)) ;;
      set_style h (upd_delete_ready (fun _ => false)) ;;
      mret false.

(** ** Event dispatch *)

(** A listener that throws does not stop the others. *)
Definition listener {A} (m : M A) : M unit := fun p => (Ret tt, snd (m p)).

Definition closures (h : nat) : M (list nat) :=
  gets (fun p => match elements p !! h with
                 | Some e => seq 0 (length (recognizers e))
                 | None => []
                 end).

Definition touchstart (h : nat) (clientX : Z) : M unit :=
  cs ← closures h; forEach cs (fun c => listener (handleTouchStart h c clientX)).
Definition touchmove (h : nat) (clientX : Z) : M unit :=
  cs ← closures h; forEach cs (fun c => listener (handleTouchMove h c clientX)).
Definition touchend (h : nat) : M unit :=
  cs ← closures h; forEach cs (fun c => listener (handleTouchEnd h c)).
Definition mousedown (h : nat) (clientX : Z) : M unit :=
  cs ← closures h; forEach cs (fun c => listener (handleMouseDown h c clientX)).
Definition mousemove (clientX : Z) : M unit :=
  ls ← gets documentListeners;
  forEach ls (fun l => listener (handleMouseMove (fst l) (snd l) clientX)).
Definition mouseup : M unit :=
  ls ← gets documentListeners;
  forEach ls (fun l => listener (handleMouseUp (fst l) (snd l))).

(** The [DOMContentLoaded] listener; [initCamera()] only starts the
    request, its continuations are above. *)
Definition DOMContentLoaded (v : variant) (now : string) : M unit :=
  updateCurrentTime now ;;
  loadEvents v ;;
  modify (upd_interval (fun _ => true)) ;;
  match v with
  | Swipeable => makeHistoryItemsSwipeable
  | Plain => mret tt
  end.

(** A page load: fresh module state over the surviving storage, then the
    [DOMContentLoaded] listener. *)
Definition reload (v : variant) (now : string) (p : page) : outcome unit * page :=
  DOMContentLoaded v now (fresh_page (localStorage p) (sessionStorage p)).

(** The stored event records: a record as the page writes it.  Its id is
    a number of the model, and the fields that are rendered hold no
    markup. *)
Record event : Type := mkEvent {
  id : Z;
  timestamp : string;
  formattedTime : string;
  cameraName : string;
  imageData : string;
  id_safe : Is_true (is_safe id);
  fields_plain : Is_true (renders_verbatim imageData formattedTime cameraName)
}.

Definition id53 (e : event) : int53 := mkInt (id e) (id_safe e).

Definition to_json (e : event) : json :=
  new_event (id53 e) (timestamp e) (formattedTime e) (cameraName e) (imageData e).

(** ** Vocabulary of the statements *)

(** The item [h] and the variables of its recognizer [c]. *)
Definition closure_at (p : page) (h c : nat) : option (element * swipe) :=
  el ← elements p !! h; s ← recognizers el !! c; Some (el, s).

(** [parseInt(item.dataset.id)]. *)
Definition eventId_of (el : element) : parsed_int :=
  match dataset_id el with
  | Some s => parseInt s
  | None => NaN
  end.

(** Whether the deletion filter keeps a record. *)
Definition kept_by (eventId : parsed_int) (e : event) : bool :=
  match eventId with
  | Int n => negb (id e =? n)
  | NaN | Beyond => true
  end.

(** The item carries the delete-ready class whenever the recognizer's
    offset is below the soft threshold. *)
Definition affordance_kept (el : element) (s : swipe) : Prop :=
  currentTranslate s < -80 -> delete_ready el = true.

(** A drag on one recognizer: the drag-start at [x0], the moves [xs], the
    drag-end, with touch or with the mouse. *)
Inductive pointer : Type := Touch | Mouse.

Definition drag_start (k : pointer) (h c : nat) (x : Z) : M unit :=
  match k with
  | Touch => handleTouchStart h c x
  | Mouse => handleMouseDown h c x
  end.

Definition drag_move (k : pointer) (h c : nat) (x : Z) : M unit :=
  match k with
  | Touch => handleTouchMove h c x ;; mret tt
  | Mouse => handleMouseMove h c x
  end.

Definition drag_moves (k : pointer) (h c : nat) (xs : list Z) : M unit :=
  forEach xs (drag_move k h c).

Definition drag_end (k : pointer) (h c : nat) : M bool :=
  match k with
  | Touch => handleTouchEnd h c
  | Mouse => handleMouseUp h c
  end.

Definition drag (k : pointer) (h c : nat) (x0 : Z) (xs : list Z) : M bool :=
  drag_start k h c x0 ;; drag_moves k h c xs ;; drag_end k h c.

(** The displacement of the last move of [xs] that is left of the origin
    [x0], or [d] when there is none. *)
Fixpoint last_leftward (x0 : Z) (xs : list Z) (d : option Z) : option Z :=
  match xs with
  | [] => d
  | x :: r => last_leftward x0 r (if x - x0 <? 0 then Some (x - x0) else d)
  end.

(** The record a click creates. *)
Definition captured (env : capture) : event :=
  mkEvent (date_now env) (date_iso env) (date_locale env) CAMERA_NAME
          (dataURL (shot env)) (now_safe env) (platform_plain env).

(** Successive clicks, each one its own task. *)
Definition clicks (v : variant) (envs : list capture) : M unit :=
  forEach envs (fun env => listener (eventButton_click v env)).

(** The persisted collection is the serialization of the in-memory one. *)
Definition mirrored (p : page) : Prop :=
  localStorage p !! LOCAL_STORAGE_KEY = Some (stringify (events p)).

(** Timers fire, in the order given by their positions at the time. *)
Definition fire_all (fired : list nat) : M unit :=
  forEach fired (fun i => listener (fire i)).

(** ** Vocabulary of the further statements *)

(** The history as displayed: the items of the container, first child
    first. *)
Definition shown (p : page) : list (option element) :=
  map (fun h => elements p !! h) (historyContainer p).

(** The key of the list that the plain variant keeps for the dashboard. *)
Definition DASHBOARD_EVENTS : string := "dashboard_events".

(** What the swipeable variant hands to the dashboard for a record: the
    object it stores, the key it stores it under, the address it opens. *)
Definition dashboard_json (e : event) : json :=
  JObj [("id", JNum (id53 e)); ("timestamp", JStr (timestamp e));
        ("cameraName", JStr (cameraName e)); ("imageData", JStr (imageData e))].

Definition dashboard_key (n : Z) : string := "dashboard_event_" +:+ decimal n.

Definition dashboard_url (v : variant) (n : Z) : string :=
  DASHBOARD_URL v +:+ "?eventId=" +:+ decimal n.

(** The clicks of a run that ran to their end. *)
Fixpoint completed (v : variant) (envs : list capture) (p : page) : list capture :=
  match envs with
  | [] => []
  | env :: r =>
      match eventButton_click v env p with
      | (Ret _, p') => env :: completed v r p'
      | (Throw _, p') => completed v r p'
      end
  end.

(** The events one recognizer can be given, in any order. *)
Inductive gesture : Type :=
| Press (k : pointer) (x : Z)      (* touchstart, mousedown *)
| Move (k : pointer) (x : Z)       (* touchmove, mousemove *)
| Release (k : pointer).           (* touchend, mouseup *)

Definition handle (h c : nat) (g : gesture) : M unit :=
  match g with
  | Press k x => listener (drag_start k h c x)
  | Move k x => listener (drag_move k h c x)
  | Release k => listener (drag_end k h c)
  end.

Definition gestures (h c : nat) (gs : list gesture) : M unit :=
  forEach gs (handle h c).

(** A drag on an item as the browser delivers it: every event goes to all
    the recognizers registered on the item (touch), or on the document
    (mouse moves and the mouse release). *)
Definition item_touch_session (h : nat) (x0 : Z) (xs : list Z) : M unit :=
  touchstart h x0 ;; forEach xs (touchmove h).

Definition item_touch_drag (h : nat) (x0 : Z) (xs : list Z) : M unit :=
  item_touch_session h x0 xs ;; touchend h.

Definition item_mouse_drag (h : nat) (x0 : Z) (xs : list Z) : M unit :=
  mousedown h x0 ;; forEach xs mousemove ;; mouseup.

End Page.

(* ===================================================================== *)
(** * Derived forms used in the proofs *)
(* ===================================================================== *)

Module Forms.
Import Json Page.

Definition no_digit_head (s : string) : bool :=
  match s with
  | String c _ => match digit_of_ascii c with Some _ => false | None => true end
  | EmptyString => true
  end.

Definition number_start (c : ascii) : bool :=
  match digit_of_ascii c with Some _ => true | None => Ascii.eqb c "-" end.

(** What the recognizer changes on its item. *)
Record visual : Type := mkVisual {
  v_ready : bool;
  v_transform : option transform;
  v_transition : option transition;
  v_collapsed : bool
}.

Definition visual_of (el : element) : visual :=
  mkVisual (delete_ready el) (style_transform el) (style_transition el) (collapsed el).

Definition set_visual (v : visual) (el : element) : element :=
  mkElement (dataset_id el) (image_src el) (time_text el) (camera_text el)
            (v_ready v) (v_transform v) (v_transition v) (v_collapsed v)
            (recognizers el).

(** The page in which item [h] shows [v] and its recognizer [c] holds [s]. *)
Definition put (h c : nat) (v : visual) (s : swipe) (p : page) : page :=
  upd_elements
    (alter (fun el => set_visual v (upd_recognizers (fun r => <[c := s]> r) el)) h) p.

(** The effect of one move on the recognizer's variables and on what its
    item shows. *)
Definition track_step (x : Z) (vs : visual * swipe) : visual * swipe :=
  let (v, s) := vs in
  if isDragging s then
    match startX s with
    | Some x0 =>
        if x - x0 <? 0 then
          (mkVisual (x - x0 <? -80) (Some (TranslateX (x - x0)))
                    (v_transition v) (v_collapsed v),
           mkSwipe (startX s) (Some x) (x - x0) (isDragging s))
        else (v, upd_moveX (fun _ => Some x) s)
    | None => (v, upd_moveX (fun _ => Some x) s)
    end
  else (v, s).

Definition leftward (x : Z) (s : swipe) : bool :=
  isDragging s && match startX s with Some x0 => x - x0 <? 0 | None => false end.

(** The end shared by [handleTouchEnd] and [handleMouseUp]. *)
Definition settle (h c : nat) : M bool :=
  s ← vars h c;
  if currentTranslate s <? -100 then
    deleteHistoryItem h ;; mret true
  else
    set_vars h c (upd_currentTranslate (fun _ => 0)) ;;
    set_style h (upd_style_transform (fun _ => Some TranslateZero)) ;;
    set_style h (upd_delete_ready (fun _ => false)) ;;
    mret false.

(** The page after a deletion of item [h] that keeps the records [l']. *)
Definition deleted (h : nat) (l' : list json) (p : page) : page :=
  upd_timers (fun t => t ++ [(300, RemoveItem h)])
    (upd_elements (alter (upd_style_transform (fun _ => Some TranslateOff)) h)
      (upd_elements (alter (upd_collapsed (fun _ => true)) h)
        (upd_localStorage <[LOCAL_STORAGE_KEY := stringify (JArr l')]>
          (upd_events (fun _ => JArr l') p)))).

(** The page after a deletion whose write was refused: the list is
    filtered, and nothing else was done. *)
Definition trimmed (l' : list json) (p : page) : page :=
  upd_events (fun _ => JArr l') p.

(** The document listeners once a drag has started, and once it ended. *)
Definition armed (k : pointer) (h c : nat) (p : page) : page :=
  match k with
  | Touch => p
  | Mouse => upd_documentListeners (add_listener (h, c)) p
  end.

Definition released (k : pointer) (h c : nat) (p : page) : page :=
  match k with
  | Touch => p
  | Mouse =>
      upd_documentListeners
        (List.filter (fun l => negb (bool_decide (l = (h, c))))) p
  end.

Definition slide (xs : list Z) (vs : visual * swipe) : visual * swipe :=
  fold_left (fun vs x => track_step x vs) xs vs.

(** What the item shows and what the recognizer holds once the drag has
    started at [x0]. *)
Definition started (x0 : Z) (el : element) (s : swipe) : visual * swipe :=
  (mkVisual (delete_ready el) (style_transform el) (Some TransitionNone) (collapsed el),
   mkSwipe (Some x0) (moveX s) (currentTranslate s) true).

(** What loading and rendering leave alone. *)
Definition quiet (p q : page) : Prop :=
  events q = events p /\ localStorage q = localStorage p /\
  sessionStorage q = sessionStorage p /\ notification q = notification p /\
  interval q = interval p /\ stream q = stream p.

(** The item that [addEventToHistory] builds for the record [e], holding
    the recognizers [rs]. *)
Definition item_for (v : variant) (e : event) (rs : list swipe) : element :=
  mkElement (match v with Swipeable => Some (decimal (id e)) | Plain => None end)
            (imageData e) (formattedTime e) (cameraName e) false None None false rs.

(** The recognizers of an item once [addEventToHistory] made it, and once
    a page load rendered it. *)
Definition own_recognizer (v : variant) : list swipe :=
  match v with Swipeable => [new_swipe] | Plain => [] end.

Definition loaded_recognizers (v : variant) : list swipe :=
  match v with Swipeable => [new_swipe; new_swipe; new_swipe] | Plain => [] end.

Definition add_recognizer : element -> element :=
  upd_recognizers (fun r => r ++ [new_swipe]).

(** The page once the records [evs] were rendered, in their order. *)
Definition rendered (v : variant) (evs : list event) (p : page) : page :=
  upd_historyContainer (fun c => rev (seq (length (elements p)) (length evs)) ++ c)
    (upd_elements (fun l => l ++ map (fun e => item_for v e (own_recognizer v)) evs) p).

(** The page a load ends in when the records [evs] are stored. *)
Definition loaded (v : variant) (now : string) (evs : list event)
    (ls ss : storage) : page :=
  mkPage None (JArr (map to_json evs)) ls ss
         (map (fun e => item_for v e (loaded_recognizers v)) evs)
         (rev (seq 0 (length evs)))
         (mkNotice EmptyString false false) [] [] [] (mkCanvas 0 0 0) now true.

(** The page once a click has taken the snapshot and appended the record,
    when the write of the list is refused. *)
Definition unsaved (env : capture) (l : list json) (p : page) : page :=
  upd_events (fun _ => JArr (l ++ [to_json (captured env)]))
    (upd_canvas (fun c => mkCanvas (videoWidth (shot env)) (videoHeight (shot env))
                                   (S (frames_drawn c))) p).

(** The page once a click has taken the snapshot, saved the record and
    rendered its item. *)
Definition recorded (v : variant) (env : capture) (l : list json) (p : page) : page :=
  upd_historyContainer (cons (length (elements p)))
    (upd_elements (fun els => els ++ [item_for v (captured env) (own_recognizer v)])
      (upd_localStorage
         <[LOCAL_STORAGE_KEY := stringify (JArr (l ++ [to_json (captured env)]))]>
        (upd_events (fun _ => JArr (l ++ [to_json (captured env)]))
          (upd_canvas (fun c => mkCanvas (videoWidth (shot env)) (videoHeight (shot env))
                                         (S (frames_drawn c))) p)))).

(** The page in which item [h] shows [v] and holds the recognizers [rs]. *)
Definition put_all (h : nat) (v : visual) (rs : list swipe) (p : page) : page :=
  upd_elements (alter (fun el => set_visual v (upd_recognizers (fun _ => rs) el)) h) p.

(** What a completed deletion of item [h] writes besides the item's style. *)
Definition stored (h : nat) (l' : list json) (p : page) : page :=
  upd_timers (fun t => t ++ [(300, RemoveItem h)])
    (upd_localStorage <[LOCAL_STORAGE_KEY := stringify (JArr l')]>
      (upd_events (fun _ => JArr l') p)).

(** The page once the recognizers [0 .. k-1] of item [h] have put their
    mouse handlers on the document, and once they have taken them off. *)
Fixpoint listening (h k : nat) (p : page) : page :=
  match k with
  | O => p
  | S k' => upd_documentListeners (add_listener (h, k')) (listening h k' p)
  end.

Fixpoint unlistening (h k : nat) (p : page) : page :=
  match k with
  | O => p
  | S k' =>
      upd_documentListeners (List.filter (fun l => negb (bool_decide (l = (h, k')))))
        (unlistening h k' p)
  end.

(** The same while each of them also completed a deletion. *)
Fixpoint unlistening_stored (h : nat) (l' : list json) (k : nat) (p : page) : page :=
  match k with
  | O => p
  | S k' =>
      stored h l'
        (upd_documentListeners (List.filter (fun l => negb (bool_decide (l = (h, k')))))
           (unlistening_stored h l' k' p))
  end.

End Forms.

(* ===================================================================== *)
(** * Example pages *)
(* ===================================================================== *)

Module Examples.
Import Json Page.

Definition shot1 : frame := mkFrame 1280 720 "data:image/jpeg;base64,AAAA".

(** The environment of a click at clock reading [t] (at reading 0 when
    [t] is no time value). *)
Definition env_at (t : Z) : capture :=
  let n := default (mkInt 0 I) (int53_of_Z t) in
  mkCapture "2024-01-01T00:00:00.000Z" "1/1/2024, 12:00:00 AM" shot1
            (int_val n) (int_safe n) I.

(** A page whose camera was granted. *)
Definition ready_page : page := snd (initCamera_resolved 1 (fresh_page ∅ ∅)).

(** A page on which the camera was refused. *)
Definition denied_page : page := snd (initCamera_rejected (fresh_page ∅ ∅)).

(** After one capture at clock reading 1700000000000. *)
Definition one_event_page : page :=
  snd (eventButton_click Swipeable (env_at 1700000000000) ready_page).

(** After a second capture half a second later. *)
Definition two_event_page : page :=
  snd (eventButton_click Swipeable (env_at 1700000000500) one_event_page).

(** The first item in the middle of a touch drag that started at 200 and
    is now at 80. *)
Definition dragging_page : page :=
  snd ((handleTouchStart 0 0 200 ;; handleTouchMove 0 0 80) two_event_page).

Definition dragged_swipe : swipe := mkSwipe (Some 200) (Some 80) (-120) true.

Definition dragged_item : element :=
  mkElement (Some "1700000000000") "data:image/jpeg;base64,AAAA"
            "1/1/2024, 12:00:00 AM" "Camera 1" true (Some (TranslateX (-120)))
            (Some TransitionNone) false [dragged_swipe].

Definition resting_item : element :=
  mkElement (Some "1700000000000") "data:image/jpeg;base64,AAAA"
            "1/1/2024, 12:00:00 AM" "Camera 1" false None None false [new_swipe].

(** The same page once that drag was released: the first record is gone,
    its item is still waiting for the removal timer. *)
Definition released_page : page := snd (handleTouchEnd 0 0 dragging_page).

(** The two-record page after a reload: both items are rendered again. *)
Definition reloaded_page : page := snd (reload Swipeable "12:00:00" two_event_page).

Definition storing (text : string) : storage :=
  {[ LOCAL_STORAGE_KEY := text ]}.

(** ** Pages of the further instances *)

Definition first_event : event := captured (env_at 1700000000000).
Definition second_event : event := captured (env_at 1700000000500).

(** The plain page with the camera granted, over a session that holds an
    empty dashboard list, and over one that holds text that is not JSON. *)
Definition plain_ready_page : page :=
  snd (initCamera_resolved 1 (fresh_page ∅ {[ "dashboard_events" := "[]" ]})).

Definition broken_session_page : page :=
  snd (initCamera_resolved 1 (fresh_page ∅ {[ "dashboard_events" := "{" ]})).

(** The page that started over a stored [null] and was then granted the
    camera. *)
Definition null_store_page : page :=
  snd (initCamera_resolved 1
         (snd (DOMContentLoaded Swipeable "12:00:00" (fresh_page (storing "null") ∅)))).

(** The page that started over a stored [[null]], was granted the camera,
    captured one event, and whose item is in a touch drag from 200 to 80. *)
Definition null_entry_page : page :=
  snd ((handleTouchStart 0 0 200 ;; handleTouchMove 0 0 80)
         (snd (eventButton_click Swipeable (env_at 1700000000000)
                 (snd (initCamera_resolved 1
                         (snd (DOMContentLoaded Swipeable "12:00:00"
                                 (fresh_page (storing "[null]") ∅)))))))).

(** A stored list whose second entry is [null]. *)
Definition null_tail_text : string := stringify (JArr [to_json first_event; JNull]).

(** The first item of [reloaded_page] in a touch drag from 200 to 80, and
    after the release: three removal timers are pending. *)
Definition dragging_reloaded_page : page :=
  snd ((touchstart 0 200 ;; touchmove 0 80) reloaded_page).

Definition swiped_reloaded_page : page :=
  snd ((touchstart 0 200 ;; touchmove 0 80 ;; touchend 0) reloaded_page).

(** ** Pages over a storage area that is nearly full *)

Definition third_event : event := captured (env_at 1700000000900).

(** A page with the camera granted whose [localStorage] has room for 400
    code units: enough for what one capture writes, not for two records. *)
Definition cramped_page : page :=
  snd (initCamera_resolved 1 (fresh_page (mkStorage ∅ 400) ∅)).

(** After three captures: the second and the third were refused by the
    storage area. *)
Definition crowded_page : page :=
  snd (clicks Swipeable
         [env_at 1700000000000; env_at 1700000000500; env_at 1700000000900]
         cramped_page).

(** The only item of [crowded_page], that of the first capture, in a touch
    drag from 200 to 80. *)
Definition dragging_crowded_page : page :=
  snd ((handleTouchStart 0 0 200 ;; handleTouchMove 0 0 80) crowded_page).

End Examples.

#[local] Arguments String.append !_ _ : simpl nomatch.

(* ===================================================================== *)
(** * Facts about the JSON built-ins *)
(* ===================================================================== *)

Module JsonFacts.
Import Json Page Forms.

Lemma append_assoc (a b c : string) : (a +:+ b) +:+ c = a +:+ (b +:+ c).
Proof. induction a as [|x a IH]; cbn; [reflexivity | now f_equal]. Qed.

Lemma parse_chars_escape_char (c : ascii) (t : string) :
  parse_chars (escape_char c +:+ t) = pmap (String c) (parse_chars t).
Proof.
  destruct c as [[] [] [] [] [] [] [] []]; reflexivity.
Qed.

Lemma parse_chars_escape (s rest : string) :
  parse_chars (escape s +:+ String dquote rest) = POk s rest.
Proof.
  induction s as [|c s IH]; [reflexivity |].
  cbn [escape]. rewrite append_assoc, parse_chars_escape_char, IH. reflexivity.
Qed.

Lemma scan_uint_print (u : uint) (rest : string) :
  no_digit_head rest = true ->
  scan_uint (NilEmpty.string_of_uint u +:+ rest) = (u, rest).
Proof.
  intros H. induction u; cbn [NilEmpty.string_of_uint String.append];
    try (cbn [scan_uint digit_of_ascii]; rewrite IHu; reflexivity).
  destruct rest as [|c r]; [reflexivity |]. cbn in *.
  destruct (digit_of_ascii c); [discriminate | reflexivity].
Qed.

Lemma unorm_to_uint (p : positive) : unorm (Pos.to_uint p) = Pos.to_uint p.
Proof.
  rewrite <- (DecimalPos.Unsigned.to_of (Pos.to_uint p)).
  rewrite DecimalPos.Unsigned.of_to. reflexivity.
Qed.

(** The decimal text of an integer: an optional minus and a canonical
    digit string. *)
Lemma decimal_shape (z : Z) :
  exists u, u <> Nil /\ unorm u = u /\ Z.of_uint u = Z.abs z /\
    decimal z = (if z <? 0 then String "-" (NilEmpty.string_of_uint u)
                     else NilEmpty.string_of_uint u).
Proof.
  destruct z as [|p|p].
  - exists (D0 Nil). repeat split; discriminate.
  - exists (Pos.to_uint p). 
    pose proof (DecimalPos.Unsigned.to_uint_nonnil p) as Hn.
    repeat split; [assumption | apply unorm_to_uint | |].
    + unfold Z.of_uint. rewrite DecimalPos.Unsigned.of_to. reflexivity.
    + unfold decimal. cbn. unfold NilZero.string_of_uint.
      destruct (Pos.to_uint p); [contradiction | reflexivity ..].
  - exists (Pos.to_uint p).
    pose proof (DecimalPos.Unsigned.to_uint_nonnil p) as Hn.
    repeat split; [assumption | apply unorm_to_uint | |].
    + unfold Z.of_uint. rewrite DecimalPos.Unsigned.of_to. reflexivity.
    + unfold decimal. cbn. unfold NilZero.string_of_uint.
      destruct (Pos.to_uint p); [contradiction | reflexivity ..].
Qed.

Lemma print_head (u : uint) (rest : string) :
  u <> Nil ->
  exists c r, NilEmpty.string_of_uint u +:+ rest = String c r /\
              Ascii.eqb c "-" = false /\ number_start c = true.
Proof.
  intros H. destruct u; [contradiction | ..]; cbn; eauto.
Qed.

Lemma Is_true_unique (b : bool) (H1 H2 : Is_true b) : H1 = H2.
Proof. destruct b; [now destruct H1, H2 | destruct H1]. Qed.

Lemma int53_eq (a b : int53) : int_val a = int_val b -> a = b.
Proof.
  destruct a as [x Hx], b as [y Hy]. cbn. intros ->.
  f_equal. apply Is_true_unique.
Qed.

Lemma int53_of_Z_val (n : int53) : int53_of_Z n = Some n.
Proof.
  destruct n as [z H]. unfold int53_of_Z. cbn [int_val].
  generalize (mkInt z). revert H.
  destruct (is_safe z); intros H k; [now destruct H | destruct H].
Qed.

Lemma parse_number_decimal (z : Z) (rest : string) :
  no_digit_head rest = true -> starts_fraction rest = false ->
  parse_number (decimal z +:+ rest)
  = match int53_of_Z z with
    | Some n => POk (JNum n) rest
    | None => PUnsupported
    end.
Proof.
  intros Hd Hf.
  destruct (decimal_shape z) as (u & Hn & Hu & Hv & ->).
  destruct (z <? 0) eqn:Hz.
  - cbn [String.append]. unfold parse_number. cbn [Ascii.eqb Bool.eqb].
    rewrite scan_uint_print by assumption.
    rewrite bool_decide_eq_true_2 by assumption. rewrite Hf, Hv.
    replace (- Z.abs z) with z by (apply Z.ltb_lt in Hz; lia). reflexivity.
  - destruct (print_head u rest Hn) as (c & r & He & Hc & _).
    unfold parse_number. rewrite He, Hc, <- He.
    rewrite scan_uint_print by assumption.
    rewrite bool_decide_eq_true_2 by assumption. rewrite Hf, Hv.
    replace (Z.abs z) with z by (apply Z.ltb_ge in Hz; lia). reflexivity.
Qed.

Lemma parse_number_print (n : int53) (rest : string) :
  no_digit_head rest = true -> starts_fraction rest = false ->
  parse_number (Number_toString n +:+ rest) = POk (JNum n) rest.
Proof.
  intros Hd Hf. unfold Number_toString.
  now rewrite parse_number_decimal, int53_of_Z_val.
Qed.

Lemma decimal_head (z : Z) (rest : string) :
  exists c r, decimal z +:+ rest = String c r /\ number_start c = true.
Proof.
  destruct (decimal_shape z) as (u & Hn & _ & _ & ->).
  destruct (z <? 0).
  - cbn. eauto.
  - destruct (print_head u rest Hn) as (c & r & He & _ & Hc). eauto.
Qed.

Lemma parse_value_number_start (n : nat) (c : ascii) (r : string) :
  number_start c = true ->
  parse_value (S n) (String c r) = parse_number (String c r).
Proof.
  destruct c as [[] [] [] [] [] [] [] []]; try discriminate; reflexivity.
Qed.

Lemma parse_value_number (k : nat) (n : int53) (rest : string) :
  no_digit_head rest = true -> starts_fraction rest = false ->
  parse_value (S k) (Number_toString n +:+ rest) = POk (JNum n) rest.
Proof.
  intros Hd Hf.
  destruct (decimal_head n rest) as (c & r & He & Hc).
  unfold Number_toString at 1.
  rewrite He, parse_value_number_start by assumption.
  rewrite <- He. now apply parse_number_print.
Qed.

Lemma parse_value_string (n : nat) (s rest : string) :
  parse_value (S n) (quote s +:+ rest) = POk (JStr s) rest.
Proof.
  unfold quote. cbn [String.append]. 
  rewrite append_assoc. cbn [String.append].
  change (parse_value (S n) (String dquote (escape s +:+ String dquote rest)))
    with (pmap JStr (parse_chars (escape s +:+ String dquote rest))).
  now rewrite parse_chars_escape.
Qed.

Lemma skip_ws_head (c : ascii) (r : string) :
  is_ws c = false -> skip_ws (String c r) = String c r.
Proof. intros H. cbn [skip_ws]. now rewrite H. Qed.

Lemma parse_members_quote (pv : string -> presult json) (n : nat)
    (acc : list (string * json)) (k t : string) :
  parse_members pv (S n) acc (quote k +:+ String ":" t) =
  match pv t with
  | POk v r3 =>
      match skip_ws r3 with
      | String d r4 =>
          if Ascii.eqb d "," then parse_members pv n (set_prop k v acc) r4
          else if Ascii.eqb d "}" then POk (set_prop k v acc) r4
          else PSyntax
      | EmptyString => PSyntax
      end
  | PSyntax => PSyntax
  | PUnsupported => PUnsupported
  end.
Proof.
  unfold quote. cbn [String.append]. rewrite append_assoc. cbn [String.append].
  cbn [parse_members]. 
  change (skip_ws (String dquote ?x)) with (String dquote x).
  change (Ascii.eqb dquote dquote) with true. cbv iota.
  rewrite parse_chars_escape. reflexivity.
Qed.

Lemma parse_value_object (m : nat) (k r : string) :
  parse_value (S m) (String "{" (quote k +:+ r)) =
  pmap JObj (parse_members (parse_value m) m [] (quote k +:+ r)).
Proof. reflexivity. Qed.

Ltac member_step :=
  rewrite parse_members_quote;
  first [ rewrite parse_value_number by reflexivity | rewrite parse_value_string ];
  rewrite skip_ws_head by reflexivity;
  cbn [Ascii.eqb Bool.eqb].

Lemma parse_value_record (m : nat) (e : event) (rest : string) :
  parse_value (6 + m) (stringify (to_json e) +:+ rest) = POk (to_json e) rest.
Proof.
  unfold to_json, new_event.
  cbn -[quote Number_toString parse_value].
  repeat (rewrite append_assoc; cbn [String.append]).
  change (6 + m)%nat with (S (S (S (S (S (S m)))))).
  rewrite parse_value_object.
  do 5 member_step.
  reflexivity.
Qed.

Lemma join_cons2 (sep x y : string) (l : list string) :
  join sep (x :: y :: l) = x +:+ sep +:+ join sep (y :: l).
Proof. reflexivity. Qed.

Lemma parse_elements_records (m : nat) (e : event) (evs : list event) (rest : string) :
  forall j, (length evs < j)%nat ->
  parse_elements (parse_value (6 + m)) j
    (join "," (map stringify (map to_json (e :: evs))) +:+ String "]" rest)
  = POk (map to_json (e :: evs)) rest.
Proof.
  revert e. induction evs as [|e' evs IH]; intros e j Hj.
  - destruct j as [|j]; [cbn in Hj; lia |].
    cbn [map join parse_elements]. rewrite parse_value_record.
    reflexivity.
  - destruct j as [|j]; [cbn in Hj; lia |].
    cbn [map]. rewrite join_cons2. rewrite !append_assoc. cbn [String.append].
    cbn [parse_elements]. rewrite parse_value_record.
    rewrite skip_ws_head by reflexivity. cbn [Ascii.eqb Bool.eqb].
    change (stringify (to_json e') :: map stringify (map to_json evs))
      with (map stringify (map to_json (e' :: evs))).
    rewrite IH by (cbn in Hj; lia). reflexivity.
Qed.

Lemma length_append (a b : string) :
  String.length (a +:+ b) = (String.length a + String.length b)%nat.
Proof. induction a as [|c a IH]; cbn; [reflexivity | now rewrite IH]. Qed.

Lemma stringify_record_head (e : event) :
  exists t, stringify (to_json e) = String "{" (String dquote t).
Proof. eexists. reflexivity. Qed.

Lemma length_join_records (evs : list event) :
  (length evs <= String.length (join "," (map stringify (map to_json evs))))%nat.
Proof.
  induction evs as [|e [|e' evs] IH]; [cbn; lia | |].
  - destruct (stringify_record_head e) as [t Ht]. cbn [map join]. rewrite Ht. cbn. lia.
  - cbn [map] in *. rewrite join_cons2, !length_append.
    destruct (stringify_record_head e) as [t Ht]. rewrite Ht. cbn in *. lia.
Qed.

Lemma length_record (e : event) : (6 <= String.length (stringify (to_json e)))%nat.
Proof.
  unfold to_json, new_event. cbn -[Number_toString escape].
  repeat (rewrite length_append; cbn [String.length]). lia.
Qed.

Lemma length_join_head (sep x : string) (l : list string) :
  (String.length x <= String.length (join sep (x :: l)))%nat.
Proof.
  destruct l as [|y l]; [cbn; lia |]. rewrite join_cons2, length_append. lia.
Qed.

(** [JSON.parse] gives back an array of event records that
    [JSON.stringify] wrote. *)
Lemma parse_stringify_records (evs : list event) :
  JSON_parse (stringify (JArr (map to_json evs))) = Parsed (JArr (map to_json evs)).
Proof.
  destruct evs as [|e evs]; [reflexivity |].
  unfold JSON_parse.
  set (text := stringify (JArr (map to_json (e :: evs)))).
  assert (Htext : text = String "[" (join "," (map stringify (map to_json (e :: evs)))
                                      +:+ String "]" EmptyString)) by reflexivity.
  assert (Hlen : (6 <= String.length text /\ length evs < String.length text)%nat).
  { rewrite Htext. cbn [String.length]. rewrite length_append.
    pose proof (length_join_records (e :: evs)) as H1.
    pose proof (length_join_head "," (stringify (to_json e))
                  (map stringify (map to_json evs))) as H2.
    pose proof (length_record e) as H3.
    cbn [map length String.length] in *. lia. }
  destruct (String.length text) as [|L] eqn:HL; [lia |].
  assert (Hm : exists m, S L = (6 + m)%nat) by (exists (S L - 6)%nat; lia).
  destruct Hm as [m Hm].
  assert (Hstep :
    parse_value (S (S L)) text =
    pmap JArr (parse_elements (parse_value (S L)) (S L)
                 (join "," (map stringify (map to_json (e :: evs)))
                  +:+ String "]" EmptyString))).
  { rewrite Htext. 
    destruct evs as [|e' evs]; cbn [map]; [cbn [join] | rewrite join_cons2];
      destruct (stringify_record_head e) as [t Ht]; rewrite Ht; reflexivity. }
  rewrite Hstep, Hm, parse_elements_records by lia. reflexivity.
Qed.

Lemma append_nil_r (s : string) : s +:+ EmptyString = s.
Proof. induction s as [|c s IH]; cbn; [reflexivity | now rewrite IH]. Qed.

Lemma hex_prefix_print (u : uint) : hex_prefix (NilEmpty.string_of_uint u) = None.
Proof. destruct u as [|u|u|u|u|u|u|u|u|u|u]; try reflexivity; destruct u; reflexivity. Qed.

Lemma trim_left_number (c : ascii) (r : string) :
  number_start c = true -> trim_left (String c r) = String c r.
Proof. destruct c as [[] [] [] [] [] [] [] []]; try discriminate; reflexivity. Qed.

(** [parseInt] reads back the decimal text of an integer of the model;
    the decimal text of any other integer gives a double beyond them. *)
Lemma parseInt_decimal (z : Z) :
  parseInt (decimal z)
  = match int53_of_Z z with
    | Some n => Int n
    | None => Beyond
    end.
Proof.
  unfold parseInt.
  destruct (decimal_shape z) as (u & Hn & Hu & Hv & ->).
  assert (Hs : scan_uint (NilEmpty.string_of_uint u) = (u, EmptyString)).
  { rewrite <- (append_nil_r (NilEmpty.string_of_uint u)) at 1.
    now apply scan_uint_print. }
  destruct (z <? 0) eqn:Hz.
  - rewrite trim_left_number by reflexivity.
    cbn [Ascii.eqb Bool.eqb]. rewrite hex_prefix_print, Hs.
    apply Z.ltb_lt in Hz.
    destruct u; [contradiction | rewrite Hv; replace (- Z.abs z) with z by lia ..];
      reflexivity.
  - destruct (print_head u EmptyString Hn) as (c & r & He & Hc & Hd).
    rewrite append_nil_r in He.
    assert (Hp : Ascii.eqb c "+" = false).
    { destruct c as [[] [] [] [] [] [] [] []]; try discriminate; reflexivity. }
    rewrite He, trim_left_number, Hc, Hp, <- He by assumption.
    rewrite hex_prefix_print, Hs.
    apply Z.ltb_ge in Hz.
    destruct u; [contradiction | rewrite Hv; replace (Z.abs z) with z by lia ..];
      reflexivity.
Qed.

Lemma parseInt_print (n : int53) : parseInt (Number_toString n) = Int n.
Proof. unfold Number_toString. now rewrite parseInt_decimal, int53_of_Z_val. Qed.

Lemma int53_of_Z_some (z : Z) (n : int53) : int53_of_Z z = Some n -> int_val n = z.
Proof.
  unfold int53_of_Z.
  assert (G : forall k : Is_true (is_safe z) -> int53,
            (forall H, int_val (k H) = z) ->
            match is_safe z as b return (Is_true b -> int53) -> option int53 with
            | true => fun k => Some (k I)
            | false => fun _ => None
            end k = Some n -> int_val n = z).
  { destruct (is_safe z); intros k Hk E; [| discriminate].
    injection E as <-. apply Hk. }
  apply G. reflexivity.
Qed.

Lemma int53_of_Z_none (z : Z) : int53_of_Z z = None -> is_safe z = false.
Proof.
  unfold int53_of_Z. generalize (mkInt z).
  destruct (is_safe z); intros k H; [discriminate | reflexivity].
Qed.

End JsonFacts.

(* ===================================================================== *)
(** * Facts about the storage areas *)
(* ===================================================================== *)

Module StorageFacts.
Import Json Page Forms JsonFacts.

Lemma storage_lookup_insert (s : storage) (k v : string) : <[k := v]> s !! k = Some v.
Proof. apply (lookup_insert_eq (items s)). Qed.

Lemma storage_lookup_insert_ne (s : storage) (k k' v : string) :
  k <> k' -> <[k := v]> s !! k' = s !! k'.
Proof. intros H. now apply (lookup_insert_ne (items s)). Qed.

Lemma storage_insert_insert (s : storage) (k v v' : string) :
  <[k := v]> (<[k := v']> s) = <[k := v]> s.
Proof.
  unfold insert, storage_insert. cbn. f_equal. apply insert_insert_eq.
Qed.

Lemma storage_insert_id (s : storage) (k v : string) :
  s !! k = Some v -> <[k := v]> s = s.
Proof.
  intros H. destruct s as [m q]. unfold insert, storage_insert. cbn. f_equal.
  now apply insert_id.
Qed.

(** A write that does not make its item longer is accepted. *)
Lemma accepts_not_longer (s : storage) (k v v0 : string) :
  s !! k = Some v0 -> (String.length v <= String.length v0)%nat ->
  accepts s k v = true.
Proof.
  intros H Hl. unfold accepts. change (items s !! k) with (s !! k). rewrite H.
  replace (item_size k v0 <? item_size k v)%N with false; [reflexivity |].
  symmetry. apply N.ltb_ge. unfold item_size. lia.
Qed.

Lemma accepts_again (s : storage) (k v : string) : accepts (<[k := v]> s) k v = true.
Proof.
  apply accepts_not_longer with (v0 := v); [apply storage_lookup_insert | lia].
Qed.


Lemma localStorage_setItem_accepted (p : page) (k v : string) :
  accepts (localStorage p) k v = true ->
  localStorage_setItem k v p = (Ret tt, upd_localStorage <[k := v]> p).
Proof.
  intros H. unfold localStorage_setItem, mbind, M_bind, gets. now rewrite H.
Qed.

Lemma localStorage_setItem_refused (p : page) (k v : string) :
  accepts (localStorage p) k v = false ->
  localStorage_setItem k v p = (Throw QuotaExceededError, p).
Proof.
  intros H. unfold localStorage_setItem, mbind, M_bind, gets. now rewrite H.
Qed.

Lemma sessionStorage_setItem_accepted (p : page) (k v : string) :
  accepts (sessionStorage p) k v = true ->
  sessionStorage_setItem k v p = (Ret tt, upd_sessionStorage <[k := v]> p).
Proof.
  intros H. unfold sessionStorage_setItem, mbind, M_bind, gets. now rewrite H.
Qed.

Lemma sessionStorage_setItem_refused (p : page) (k v : string) :
  accepts (sessionStorage p) k v = false ->
  sessionStorage_setItem k v p = (Throw QuotaExceededError, p).
Proof.
  intros H. unfold sessionStorage_setItem, mbind, M_bind, gets. now rewrite H.
Qed.

End StorageFacts.

(* ===================================================================== *)
(** * Facts about the page functions *)
(* ===================================================================== *)

Module PageFacts.
Import Json Page Forms JsonFacts StorageFacts.

(** ** Reading and writing one recognizer *)

Lemma closure_at_inv p h c el s :
  closure_at p h c = Some (el, s) ->
  elements p !! h = Some el /\ recognizers el !! c = Some s.
Proof.
  unfold closure_at. destruct (elements p !! h) as [e|]; [|discriminate]. cbn.
  destruct (recognizers e !! c) as [s'|] eqn:Hs; [|discriminate]. cbn.
  intros [= -> ->]. auto.
Qed.

Lemma alter_as_insert {A} (f : A -> A) (l : list A) (i : nat) (x : A) :
  l !! i = Some x -> alter f i l = <[i := f x]> l.
Proof.
  revert i. induction l as [|y l IH]; intros [|i] H; try discriminate.
  - injection H as ->. reflexivity.
  - cbn. f_equal. now apply IH.
Qed.

Lemma alter_insert_same {A} (f : A -> A) (l : list A) (i : nat) (x y : A) :
  l !! i = Some x -> alter f i (<[i := y]> l) = <[i := f y]> l.
Proof.
  intros H. rewrite (alter_as_insert f _ i y).
  - apply list_insert_insert_eq.
  - apply list_lookup_insert_eq. eapply lookup_lt_Some, H.
Qed.

Lemma elements_put p h c el0 s0 v s :
  closure_at p h c = Some (el0, s0) ->
  elements (put h c v s p) =
  <[h := set_visual v (upd_recognizers (fun r => <[c := s]> r) el0)]> (elements p).
Proof.
  intros H. apply closure_at_inv in H as [He Hs].
  unfold put. cbn.
  now apply (alter_as_insert
    (fun el => set_visual v (upd_recognizers (fun r => <[c := s]> r) el))).
Qed.

Lemma put_lookup p h c el0 s0 v s :
  closure_at p h c = Some (el0, s0) ->
  elements (put h c v s p) !! h
  = Some (set_visual v (upd_recognizers (fun r => <[c := s]> r) el0)).
Proof.
  intros H. rewrite (elements_put _ _ _ _ _ _ _ H).
  apply closure_at_inv in H as [He Hs].
  apply list_lookup_insert_eq. eapply lookup_lt_Some, He.
Qed.

Lemma put_closure p h c el0 s0 v s :
  closure_at p h c = Some (el0, s0) ->
  closure_at (put h c v s p) h c
  = Some (set_visual v (upd_recognizers (fun r => <[c := s]> r) el0), s).
Proof.
  intros H. unfold closure_at. rewrite (put_lookup _ _ _ _ _ _ _ H). cbn.
  apply closure_at_inv in H as [He Hs].
  rewrite list_lookup_insert_eq; [reflexivity | eapply lookup_lt_Some, Hs].
Qed.

Lemma put_id p h c el s :
  closure_at p h c = Some (el, s) -> put h c (visual_of el) s p = p.
Proof.
  intros H. apply closure_at_inv in H as [He Hs].
  destruct p. unfold put, upd_elements. cbn in *. f_equal.
  rewrite (alter_as_insert _ _ _ _ He).
  rewrite list_insert_id; [reflexivity |]. rewrite He. f_equal.
  destruct el. unfold set_visual, upd_recognizers, visual_of. cbn in *. f_equal.
  symmetry. now apply list_insert_id.
Qed.

(** Rewriting the elements of a page that was [put]. *)
Lemma upd_elements_put p h c el0 s0 v s (f : element -> element) v' s' :
  closure_at p h c = Some (el0, s0) ->
  f (set_visual v (upd_recognizers (fun r => <[c := s]> r) el0))
  = set_visual v' (upd_recognizers (fun r => <[c := s']> r) el0) ->
  upd_elements (alter f h) (put h c v s p) = put h c v' s' p.
Proof.
  intros H Hf. pose proof (elements_put _ _ _ _ _ v s H) as E1.
  pose proof (elements_put _ _ _ _ _ v' s' H) as E2.
  apply closure_at_inv in H as [He Hs].
  destruct p. unfold put, upd_elements in *. cbn in *. f_equal.
  rewrite E1, E2. rewrite (alter_insert_same _ _ _ _ _ He). now rewrite Hf.
Qed.

Lemma set_vars_put p h c el0 s0 v s (f : swipe -> swipe) :
  closure_at p h c = Some (el0, s0) ->
  set_vars h c f (put h c v s p) = (Ret tt, put h c v (f s) p).
Proof.
  intros H. unfold set_vars, modify. f_equal.
  apply (upd_elements_put _ _ _ _ _ _ _ _ _ _ H).
  apply closure_at_inv in H as [He Hs].
  unfold set_visual, upd_recognizers. cbn. f_equal.
  now apply alter_insert_same with (x := s0).
Qed.

Lemma set_style_put p h c el0 s0 v s (g : element -> element) v' :
  closure_at p h c = Some (el0, s0) ->
  (forall el, g (set_visual v el) = set_visual v' el) ->
  set_style h g (put h c v s p) = (Ret tt, put h c v' s p).
Proof.
  intros H Hg. unfold set_style, modify. f_equal.
  apply (upd_elements_put _ _ _ _ _ _ _ _ _ _ H). apply Hg.
Qed.

Lemma vars_put p h c el0 s0 v s :
  closure_at p h c = Some (el0, s0) ->
  vars h c (put h c v s p) = (Ret s, put h c v s p).
Proof.
  intros H. pose proof (put_closure _ _ _ _ _ v s H) as Hc.
  apply closure_at_inv in Hc as [He Hs].
  unfold vars, element_at, mbind, M_bind. rewrite He, Hs. reflexivity.
Qed.

Lemma bind_eq {A B} (m : M A) (f : A -> M B) (p p' : page) (a : A) :
  m p = (Ret a, p') -> (m ≫= f) p = f a p'.
Proof. intros H. unfold mbind, M_bind. now rewrite H. Qed.

Lemma bind_throw {A B} (m : M A) (f : A -> M B) (p p' : page) (e : exn) :
  m p = (Throw e, p') -> (m ≫= f) p = (Throw e, p').
Proof. intros H. unfold mbind, M_bind. now rewrite H. Qed.

Lemma handleTouchStart_put p h c el0 s0 v s x :
  closure_at p h c = Some (el0, s0) ->
  handleTouchStart h c x (put h c v s p)
  = (Ret tt, put h c (mkVisual (v_ready v) (v_transform v) (Some TransitionNone) (v_collapsed v))
                     (mkSwipe (Some x) (moveX s) (currentTranslate s) true) p).
Proof.
  intros H. unfold handleTouchStart.
  rewrite (bind_eq _ _ _ _ _ (set_vars_put _ _ _ _ _ _ _ _ H)).
  rewrite (bind_eq _ _ _ _ _ (set_vars_put _ _ _ _ _ _ _ _ H)).
  erewrite set_style_put; [reflexivity | exact H | reflexivity].
Qed.

Lemma set_ready_put p h c el0 s0 v s (b : bool) :
  closure_at p h c = Some (el0, s0) ->
  set_style h (upd_delete_ready (fun _ => b)) (put h c v s p)
  = (Ret tt, put h c (mkVisual b (v_transform v) (v_transition v) (v_collapsed v)) s p).
Proof. intros H. now apply set_style_put with (el0 := el0) (s0 := s0). Qed.

Lemma set_transform_put p h c el0 s0 v s (t : option transform) :
  closure_at p h c = Some (el0, s0) ->
  set_style h (upd_style_transform (fun _ => t)) (put h c v s p)
  = (Ret tt, put h c (mkVisual (v_ready v) t (v_transition v) (v_collapsed v)) s p).
Proof. intros H. now apply set_style_put with (el0 := el0) (s0 := s0). Qed.

Lemma set_transition_put p h c el0 s0 v s (t : option transition) :
  closure_at p h c = Some (el0, s0) ->
  set_style h (upd_style_transition (fun _ => t)) (put h c v s p)
  = (Ret tt, put h c (mkVisual (v_ready v) (v_transform v) t (v_collapsed v)) s p).
Proof. intros H. now apply set_style_put with (el0 := el0) (s0 := s0). Qed.

Lemma handleMouseDown_put p h c el0 s0 v s x :
  closure_at p h c = Some (el0, s0) ->
  handleMouseDown h c x (put h c v s p)
  = (Ret tt,
     upd_documentListeners (add_listener (h, c))
       (put h c (mkVisual (v_ready v) (v_transform v) (Some TransitionNone) (v_collapsed v))
                (mkSwipe (Some x) (moveX s) (currentTranslate s) true) p)).
Proof.
  intros H. unfold handleMouseDown.
  rewrite (bind_eq _ _ _ _ _ (set_vars_put _ _ _ _ _ _ _ _ H)).
  rewrite (bind_eq _ _ _ _ _ (set_vars_put _ _ _ _ _ _ _ _ H)).
  rewrite (bind_eq _ _ _ _ _ (set_transition_put _ _ _ _ _ _ _ _ H)).
  reflexivity.
Qed.

Lemma handleTouchMove_put p h c el0 s0 v s x :
  closure_at p h c = Some (el0, s0) ->
  handleTouchMove h c x (put h c v s p)
  = (Ret (leftward x s),
     put h c (fst (track_step x (v, s))) (snd (track_step x (v, s))) p).
Proof.
  intros H. unfold handleTouchMove, leftward, track_step.
  rewrite (bind_eq _ _ _ _ _ (vars_put _ _ _ _ _ _ _ H)).
  destruct (isDragging s) eqn:Hd; cbn [negb andb fst snd]; [|reflexivity].
  rewrite (bind_eq _ _ _ _ _ (set_vars_put _ _ _ _ _ _ _ _ H)).
  destruct (startX s) as [x0|] eqn:Hx; [|reflexivity].
  destruct (x - x0 <? 0) eqn:Hlt; cbn [fst snd]; [|reflexivity].
  rewrite (bind_eq _ _ _ _ _ (set_vars_put _ _ _ _ _ _ _ _ H)).
  rewrite (bind_eq _ _ _ _ _ (vars_put _ _ _ _ _ _ _ H)).
  rewrite (bind_eq _ _ _ _ _ (set_transform_put _ _ _ _ _ _ _ _ H)).
  cbn [currentTranslate upd_currentTranslate upd_moveX].
  destruct (x - x0 <? -80) eqn:H80;
    rewrite (bind_eq _ _ _ _ _ (set_ready_put _ _ _ _ _ _ _ _ H));
    unfold upd_currentTranslate, upd_moveX; cbn; rewrite ?Hx, ?Hd; reflexivity.
Qed.

Lemma handleMouseMove_put p h c el0 s0 v s x :
  closure_at p h c = Some (el0, s0) ->
  handleMouseMove h c x (put h c v s p)
  = (Ret tt, put h c (fst (track_step x (v, s))) (snd (track_step x (v, s))) p).
Proof.
  intros H. unfold handleMouseMove, track_step.
  rewrite (bind_eq _ _ _ _ _ (vars_put _ _ _ _ _ _ _ H)).
  destruct (isDragging s) eqn:Hd; cbn [negb andb fst snd]; [|reflexivity].
  rewrite (bind_eq _ _ _ _ _ (set_vars_put _ _ _ _ _ _ _ _ H)).
  destruct (startX s) as [x0|] eqn:Hx; [|reflexivity].
  destruct (x - x0 <? 0) eqn:Hlt; cbn [fst snd]; [|reflexivity].
  rewrite (bind_eq _ _ _ _ _ (set_vars_put _ _ _ _ _ _ _ _ H)).
  rewrite (bind_eq _ _ _ _ _ (vars_put _ _ _ _ _ _ _ H)).
  rewrite (bind_eq _ _ _ _ _ (set_transform_put _ _ _ _ _ _ _ _ H)).
  cbn [currentTranslate upd_currentTranslate upd_moveX].
  destruct (x - x0 <? -80) eqn:H80;
    rewrite (set_ready_put _ _ _ _ _ _ _ _ H);
    unfold upd_currentTranslate, upd_moveX; cbn; rewrite ?Hx, ?Hd; reflexivity.
Qed.

(** A deletion up to its write: the list is filtered. *)
Lemma deleteHistoryItem_write p h el l l' :
  elements p !! h = Some el -> events p = JArr l ->
  array_filter (other_id (eventId_of el)) l = Some l' ->
  deleteHistoryItem h p
  = (localStorage_setItem LOCAL_STORAGE_KEY (stringify (JArr l')) ;;
     set_style h (upd_collapsed (fun _ => true)) ;;
     set_style h (upd_style_transform (fun _ => Some TranslateOff)) ;;
     setTimeout (RemoveItem h) 300) (trimmed l' p).
Proof.
  intros He Hev Hf.
  unfold deleteHistoryItem, element_at, mbind at 1 2 3, M_bind at 1 2 3, gets, modify.
  rewrite He, Hev. fold (eventId_of el). rewrite Hf. reflexivity.
Qed.

Lemma deleteHistoryItem_ok p h el l l' :
  elements p !! h = Some el -> events p = JArr l ->
  array_filter (other_id (eventId_of el)) l = Some l' ->
  accepts (localStorage p) LOCAL_STORAGE_KEY (stringify (JArr l')) = true ->
  deleteHistoryItem h p = (Ret tt, deleted h l' p).
Proof.
  intros He Hev Hf Ha. rewrite (deleteHistoryItem_write p h el l l' He Hev Hf).
  rewrite (bind_eq _ _ _ _ _ (localStorage_setItem_accepted (trimmed l' p) _ _ Ha)).
  reflexivity.
Qed.

Lemma deleteHistoryItem_refused p h el l l' :
  elements p !! h = Some el -> events p = JArr l ->
  array_filter (other_id (eventId_of el)) l = Some l' ->
  accepts (localStorage p) LOCAL_STORAGE_KEY (stringify (JArr l')) = false ->
  deleteHistoryItem h p = (Throw QuotaExceededError, trimmed l' p).
Proof.
  intros He Hev Hf Ha. rewrite (deleteHistoryItem_write p h el l l' He Hev Hf).
  unfold mbind at 1, M_bind at 1.
  now rewrite (localStorage_setItem_refused (trimmed l' p) _ _ Ha).
Qed.

Lemma deleteHistoryItem_throws p h :
  (forall el l l', elements p !! h = Some el -> events p = JArr l ->
                   array_filter (other_id (eventId_of el)) l = Some l' -> False) ->
  exists e, e <> QuotaExceededError /\ deleteHistoryItem h p = (Throw e, p).
Proof.
  intros Hno.
  unfold deleteHistoryItem, element_at, mbind, M_bind, gets, modify, throw.
  destruct (elements p !! h) as [el|] eqn:He; [| exists OutsideModel; now split].
  fold (eventId_of el).
  destruct (events p) as [| | | |l|] eqn:Hev; try (exists TypeError; now split).
  destruct (array_filter (other_id (eventId_of el)) l) as [l'|] eqn:Hf;
    [| exists TypeError; now split].
  exfalso. eapply Hno; eauto.
Qed.

Lemma deleted_put p h c el0 s0 v s l' :
  closure_at p h c = Some (el0, s0) ->
  deleted h l' (put h c v s p)
  = upd_timers (fun t => t ++ [(300, RemoveItem h)])
      (upd_localStorage <[LOCAL_STORAGE_KEY := stringify (JArr l')]>
        (upd_events (fun _ => JArr l')
          (put h c (mkVisual (v_ready v) (Some TranslateOff) (v_transition v) true) s p))).
Proof.
  intros H. unfold deleted.
  change (upd_localStorage ?f (upd_events ?g (put h c ?v ?s p)))
    with (put h c v s (upd_localStorage f (upd_events g p))).
  set (q := upd_localStorage _ _).
  assert (Hq : closure_at q h c = Some (el0, s0)) by exact H.
  rewrite (upd_elements_put q h c el0 s0 v s (upd_collapsed (fun _ => true))
             (mkVisual (v_ready v) (v_transform v) (v_transition v) true) s Hq eq_refl).
  rewrite (upd_elements_put q h c el0 s0
             (mkVisual (v_ready v) (v_transform v) (v_transition v) true) s
             (upd_style_transform (fun _ => Some TranslateOff))
             (mkVisual (v_ready v) (Some TranslateOff) (v_transition v) true) s Hq eq_refl).
  reflexivity.
Qed.

Lemma settle_put p h c el0 s0 v s :
  closure_at p h c = Some (el0, s0) ->
  settle h c (put h c v s p) =
  if currentTranslate s <? -100 then
    (deleteHistoryItem h ;; mret true) (put h c v s p)
  else
    (Ret false,
     put h c (mkVisual false (Some TranslateZero) (v_transition v) (v_collapsed v))
             (upd_currentTranslate (fun _ => 0) s) p).
Proof.
  intros H. unfold settle.
  rewrite (bind_eq _ _ _ _ _ (vars_put _ _ _ _ _ _ _ H)).
  destruct (currentTranslate s <? -100); [reflexivity |].
  rewrite (bind_eq _ _ _ _ _ (set_vars_put _ _ _ _ _ _ _ _ H)).
  rewrite (bind_eq _ _ _ _ _ (set_transform_put _ _ _ _ _ _ _ _ H)).
  rewrite (bind_eq _ _ _ _ _ (set_ready_put _ _ _ _ _ _ _ _ H)).
  reflexivity.
Qed.

Lemma closure_armed k h c p : closure_at (armed k h c p) h c = closure_at p h c.
Proof. destruct k; reflexivity. Qed.

Lemma closure_released k h c p : closure_at (released k h c p) h c = closure_at p h c.
Proof. destruct k; reflexivity. Qed.

Lemma drag_start_put k p h c el0 s0 v s x :
  closure_at p h c = Some (el0, s0) ->
  drag_start k h c x (put h c v s p)
  = (Ret tt,
     put h c (mkVisual (v_ready v) (v_transform v) (Some TransitionNone) (v_collapsed v))
             (mkSwipe (Some x) (moveX s) (currentTranslate s) true) (armed k h c p)).
Proof.
  intros H. destruct k; cbn [drag_start armed].
  - now apply handleTouchStart_put with (el0 := el0) (s0 := s0).
  - now rewrite (handleMouseDown_put _ _ _ _ _ _ _ _ H).
Qed.

Lemma drag_move_put k p h c el0 s0 v s x :
  closure_at p h c = Some (el0, s0) ->
  drag_move k h c x (put h c v s p)
  = (Ret tt, put h c (fst (track_step x (v, s))) (snd (track_step x (v, s))) p).
Proof.
  intros H. destruct k; unfold drag_move.
  - now rewrite (bind_eq _ _ _ _ _ (handleTouchMove_put _ _ _ _ _ _ _ _ H)).
  - now apply handleMouseMove_put with (el0 := el0) (s0 := s0).
Qed.

Lemma drag_moves_put k p h c el0 s0 xs :
  closure_at p h c = Some (el0, s0) ->
  forall v s,
  drag_moves k h c xs (put h c v s p)
  = (Ret tt, put h c (fst (slide xs (v, s))) (snd (slide xs (v, s))) p).
Proof.
  intros H. unfold drag_moves, slide.
  induction xs as [|x xs IH]; intros v s; [reflexivity |].
  cbn [forEach fold_left].
  rewrite (bind_eq _ _ _ _ _ (drag_move_put k _ _ _ _ _ _ _ x H)).
  rewrite IH. now destruct (track_step x (v, s)).
Qed.

Lemma handleTouchEnd_settle h c :
  handleTouchEnd h c
  = (set_vars h c (upd_isDragging (fun _ => false)) ;;
     set_style h (upd_style_transition (fun _ => Some TransformEase)) ;;
     settle h c).
Proof. reflexivity. Qed.

Lemma handleMouseUp_settle h c :
  handleMouseUp h c
  = (s ← vars h c;
     if negb (isDragging s) then mret false
     else
       set_vars h c (upd_isDragging (fun _ => false)) ;;
       set_style h (upd_style_transition (fun _ => Some TransformEase)) ;;
       modify (upd_documentListeners
                 (List.filter (fun l => negb (bool_decide (l = (h, c)))))) ;;
       settle h c).
Proof. reflexivity. Qed.

Lemma drag_end_put k p h c el0 s0 v s :
  closure_at p h c = Some (el0, s0) -> isDragging s = true ->
  drag_end k h c (put h c v s p)
  = settle h c
      (put h c (mkVisual (v_ready v) (v_transform v) (Some TransformEase) (v_collapsed v))
               (upd_isDragging (fun _ => false) s) (released k h c p)).
Proof.
  intros H Hd. destruct k; cbn [drag_end released].
  - rewrite handleTouchEnd_settle.
    rewrite (bind_eq _ _ _ _ _ (set_vars_put _ _ _ _ _ _ _ _ H)).
    now rewrite (bind_eq _ _ _ _ _ (set_transition_put _ _ _ _ _ _ _ _ H)).
  - rewrite handleMouseUp_settle.
    rewrite (bind_eq _ _ _ _ _ (vars_put _ _ _ _ _ _ _ H)). rewrite Hd. cbn [negb].
    rewrite (bind_eq _ _ _ _ _ (set_vars_put _ _ _ _ _ _ _ _ H)).
    rewrite (bind_eq _ _ _ _ _ (set_transition_put _ _ _ _ _ _ _ _ H)).
    reflexivity.
Qed.

Lemma last_leftward_snoc x0 xs x : forall d,
  last_leftward x0 (xs ++ [x]) d
  = if x - x0 <? 0 then Some (x - x0) else last_leftward x0 xs d.
Proof. induction xs as [|y xs IH]; intros d; cbn; [reflexivity | apply IH]. Qed.

Lemma slide_snoc xs x vs : slide (xs ++ [x]) vs = track_step x (slide xs vs).
Proof. unfold slide. now rewrite fold_left_app. Qed.

(** What a run of moves leaves behind, in a session whose origin is [x0]. *)
Lemma slide_session x0 xs v s :
  isDragging s = true -> startX s = Some x0 ->
  let vs := slide xs (v, s) in
  isDragging (snd vs) = true /\ startX (snd vs) = Some x0 /\
  currentTranslate (snd vs) = default (currentTranslate s) (last_leftward x0 xs None) /\
  v_ready (fst vs) = match last_leftward x0 xs None with
                     | Some d => d <? -80
                     | None => v_ready v
                     end /\
  v_transform (fst vs) = match last_leftward x0 xs None with
                         | Some d => Some (TranslateX d)
                         | None => v_transform v
                         end /\
  v_transition (fst vs) = v_transition v /\ v_collapsed (fst vs) = v_collapsed v.
Proof.
  intros Hd Hx. induction xs as [|x xs IH] using rev_ind.
  - cbn. auto 10.
  - rewrite slide_snoc, last_leftward_snoc.
    destruct (slide xs (v, s)) as [v' s'].
    cbn [fst snd] in IH. destruct IH as (I1 & I2 & I3 & I4 & I5 & I6 & I7).
    unfold track_step. rewrite I1, I2.
    destruct (x - x0 <? 0); cbn; auto 10.
Qed.

End PageFacts.

Module ItemFacts.
Import Json Page Forms JsonFacts StorageFacts PageFacts.

Lemma alter_middle {A} (f : A -> A) (l : list A) (x : A) (r : list A) :
  alter f (length l) (l ++ x :: r) = l ++ f x :: r.
Proof.
  replace (length l) with (length l + 0)%nat by lia. now rewrite alter_app_r.
Qed.

Lemma alter_at_end {A} (f : A -> A) (l : list A) (x : A) :
  alter f (length l) (l ++ [x]) = l ++ [f x].
Proof. apply alter_middle. Qed.

(** The rendered fields of an event record hold no markup. *)
Lemma event_plain (e : event) :
  renders_verbatim (imageData e) (formattedTime e) (cameraName e) = true.
Proof. apply Is_true_true, (fields_plain e). Qed.

(** The item made for an event record. *)
Lemma addEventToHistory_render v e p :
  addEventToHistory v (to_json e) p
  = (Ret tt, upd_historyContainer (cons (length (elements p)))
               (upd_elements (fun l => l ++ [item_for v e (own_recognizer v)]) p)).
Proof.
  unfold addEventToHistory, to_json, new_event.
  cbn -[Number_toString renders_verbatim makeHistoryItemSwipeable].
  rewrite event_plain. cbn [negb].
  unfold makeHistoryItemSwipeable, set_style.
  unfold mbind, M_bind, mret, M_ret, modify, gets.
  destruct p as [st ev ls ss els hc nt tm dl op cv ct iv].
  destruct v, hc; cbn -[Number_toString]; unfold upd_elements, upd_historyContainer;
    cbn -[Number_toString]; rewrite ?alter_at_end; reflexivity.
Qed.

(** The item made for a captured record: it carries the record's id in
    decimal and has exactly one recognizer, at rest. *)
Lemma addEventToHistory_item (e : event) (p : page) :
  exists p' el,
    addEventToHistory Swipeable (to_json e) p = (Ret tt, p') /\
    elements p' = elements p ++ [el] /\
    closure_at p' (length (elements p)) 0 = Some (el, new_swipe) /\
    dataset_id el = Some (decimal (id e)) /\
    recognizers el = [new_swipe] /\ delete_ready el = false.
Proof.
  eexists _, _. split; [apply addEventToHistory_render |].
  split; [reflexivity |]. split; [| auto].
  unfold closure_at. cbn [elements upd_elements upd_historyContainer].
  now rewrite lookup_app_r, Nat.sub_diag by lia.
Qed.

(** On an item with a single recognizer the events of the item are the
    handlers of that recognizer. *)
Lemma dispatch_single (p : page) (h : nat) (el : element) (s : swipe) (x : Z) :
  elements p !! h = Some el -> recognizers el = [s] ->
  snd (touchstart h x p) = snd (handleTouchStart h 0 x p) /\
  snd (touchmove h x p) = snd (handleTouchMove h 0 x p) /\
  snd (touchend h p) = snd (handleTouchEnd h 0 p) /\
  snd (mousedown h x p) = snd (handleMouseDown h 0 x p).
Proof.
  intros He Hr.
  unfold touchstart, touchmove, touchend, mousedown, closures, gets.
  unfold mbind, M_bind. rewrite He, Hr. cbn [length seq forEach].
  unfold listener, mbind, M_bind, mret, M_ret. cbn [snd]. auto.
Qed.

End ItemFacts.

(* ===================================================================== *)
(** * The event store *)
(* ===================================================================== *)
Module StoreFacts.
Import Json Page Forms JsonFacts StorageFacts PageFacts ItemFacts.

Lemma array_filter_idem {A} (f : A -> option bool) (l l' : list A) :
  array_filter f l = Some l' -> array_filter f l' = Some l'.
Proof.
  revert l'. induction l as [|x l IH]; intros l' H; cbn in H.
  - injection H as <-. reflexivity.
  - destruct (f x) as [b|] eqn:Hx; [|discriminate].
    destruct (array_filter f l) as [r|]; [|discriminate].
    injection H as <-. specialize (IH r eq_refl).
    destruct b; [|exact IH]. cbn. now rewrite Hx, IH.
Qed.

Lemma array_filter_keep_all {A} (f : A -> option bool) (l : list A) :
  Forall (fun x => f x = Some true) l -> array_filter f l = Some l.
Proof.
  induction 1 as [|x l Hx _ IH]; cbn; [reflexivity |]. now rewrite Hx, IH.
Qed.

Lemma array_filter_total (n : parsed_int) (l : list json) :
  Forall (fun x => x <> JNull) l -> exists l', array_filter (other_id n) l = Some l'.
Proof.
  induction 1 as [|x l Hx _ [l' IH]]; cbn; [eauto |].
  rewrite IH. unfold other_id. destruct x; try contradiction; cbn; eauto.
Qed.

Lemma other_id_record (o : parsed_int) (e : event) :
  other_id o (to_json e) = Some (kept_by o e).
Proof. now destruct o. Qed.

(** On event records the filter of the script is the filter on ids. *)
Lemma array_filter_kept (o : parsed_int) (evs : list event) :
  array_filter (other_id o) (map to_json evs)
  = Some (map to_json (List.filter (kept_by o) evs)).
Proof.
  induction evs as [|e evs IH]; [reflexivity |].
  cbn [map array_filter List.filter]. rewrite other_id_record, IH.
  now destruct (kept_by o e).
Qed.

Lemma eventId_of_decimal (el : element) (n : Z) :
  dataset_id el = Some (decimal n) ->
  eventId_of el = match int53_of_Z n with
                  | Some m => Int m
                  | None => Beyond
                  end.
Proof. unfold eventId_of. intros ->. apply parseInt_decimal. Qed.

(** An item that carries the decimal numeral of [n] stands for the
    records whose id is [n]: no record has an id outside the model. *)
Lemma kept_by_decimal (el : element) (n : Z) (e : event) :
  dataset_id el = Some (decimal n) ->
  kept_by (eventId_of el) e = negb (id e =? n).
Proof.
  intros H. rewrite (eventId_of_decimal el n H).
  destruct (int53_of_Z n) as [m|] eqn:E; cbn [kept_by].
  - now rewrite (int53_of_Z_some _ _ E).
  - apply int53_of_Z_none in E. symmetry. apply negb_true_iff, Z.eqb_neq.
    intros Hid. pose proof (id_safe e) as Hs. rewrite Hid, E in Hs. exact Hs.
Qed.

Lemma array_filter_records (el : element) (n : Z) (evs : list event) :
  dataset_id el = Some (decimal n) ->
  array_filter (other_id (eventId_of el)) (map to_json evs)
  = Some (map to_json (List.filter (fun e => negb (id e =? n)) evs)).
Proof.
  intros H. rewrite array_filter_kept. do 2 f_equal.
  apply List.filter_ext. intros e. now apply kept_by_decimal.
Qed.

Lemma deleted_lookup p h el l' :
  elements p !! h = Some el ->
  elements (deleted h l' p) !! h
  = Some (upd_style_transform (fun _ => Some TranslateOff)
            (upd_collapsed (fun _ => true) el)).
Proof.
  intros He. unfold deleted. cbn.
  rewrite (alter_as_insert _ _ _ _ He).
  rewrite (alter_insert_same _ _ _ _ _ He).
  apply list_lookup_insert_eq. eapply lookup_lt_Some, He.
Qed.

(** A deletion completes, reaching [deleted]; or its write is refused
    once the list is filtered; or it throws before it changed anything. *)
Lemma deleteHistoryItem_cases p h :
  (exists el l l', elements p !! h = Some el /\ events p = JArr l /\
      array_filter (other_id (eventId_of el)) l = Some l' /\
      accepts (localStorage p) LOCAL_STORAGE_KEY (stringify (JArr l')) = true /\
      deleteHistoryItem h p = (Ret tt, deleted h l' p))
  \/ (exists el l l', elements p !! h = Some el /\ events p = JArr l /\
      array_filter (other_id (eventId_of el)) l = Some l' /\
      accepts (localStorage p) LOCAL_STORAGE_KEY (stringify (JArr l')) = false /\
      deleteHistoryItem h p = (Throw QuotaExceededError, trimmed l' p))
  \/ (exists e, e <> QuotaExceededError /\ deleteHistoryItem h p = (Throw e, p)).
Proof.
  destruct (elements p !! h) as [el|] eqn:He.
  - destruct (events p) as [| | | |l|] eqn:Hev;
      try (right; right; apply deleteHistoryItem_throws; intros; congruence).
    destruct (array_filter (other_id (eventId_of el)) l) as [l'|] eqn:Hf.
    + destruct (accepts (localStorage p) LOCAL_STORAGE_KEY (stringify (JArr l'))) eqn:Ha.
      * left. exists el, l, l'. repeat split; try assumption.
        now apply deleteHistoryItem_ok with (el := el) (l := l).
      * right; left. exists el, l, l'. repeat split; try assumption.
        now apply deleteHistoryItem_refused with (el := el) (l := l).
    + right; right. apply deleteHistoryItem_throws. intros; congruence.
  - right; right. apply deleteHistoryItem_throws. intros; congruence.
Qed.

End StoreFacts.
Import Json Page Forms JsonFacts StorageFacts PageFacts ItemFacts StoreFacts.

(** C2. Deleting the same item twice leaves the event list and the
    persisted collection as the first deletion left them, whatever the page
    state; and when no stored record carries the item's identifier, one
    deletion leaves the event list as it was and rewrites the persisted
    collection with the text it already had. *)
Theorem delete_idempotent (p : page) (h : nat) :
  (let p1 := snd (deleteHistoryItem h p) in
   let p2 := snd (deleteHistoryItem h p1) in
   fst (deleteHistoryItem h p1) = fst (deleteHistoryItem h p) /\
   events p2 = events p1 /\ localStorage p2 = localStorage p1) /\
  (forall el l,
     elements p !! h = Some el -> events p = JArr l ->
     Forall (fun ev => other_id (eventId_of el) ev = Some true) l ->
     mirrored p ->
     exists p', deleteHistoryItem h p = (Ret tt, p') /\
                events p' = events p /\ localStorage p' = localStorage p).
Proof.
  split.
  - destruct (deleteHistoryItem_cases p h)
      as [(el & l & l' & He & Hev & Hf & Ha & ->)
         | [(el & l & l' & He & Hev & Hf & Ha & ->) | [e H]]].
    + cbn [snd fst].
      pose proof (deleted_lookup p h el l' He) as He'.
      erewrite (deleteHistoryItem_ok (deleted h l' p) h _ l' l');
        [| exact He' | reflexivity | now apply array_filter_idem with (l := l)
         | apply accepts_again].
      cbn [snd fst]. repeat split. apply storage_insert_insert.
    + cbn [snd fst].
      erewrite (deleteHistoryItem_refused (trimmed l' p) h el l' l');
        [| exact He | reflexivity | now apply array_filter_idem with (l := l)
         | exact Ha].
      cbn [snd fst]. repeat split.
    + destruct H as [_ H]. rewrite H. cbn [snd fst]. rewrite H. cbn. auto.
  - intros el l He Hev Hall Hm.
    unfold mirrored in Hm. rewrite Hev in Hm.
    exists (deleted h l p). split; [|split].
    + apply deleteHistoryItem_ok with (el := el) (l := l); auto.
      * now apply array_filter_keep_all.
      * apply accepts_not_longer with (v0 := stringify (JArr l)); [exact Hm | lia].
    + cbn. now rewrite Hev.
    + cbn. now apply storage_insert_id.
Qed.

Module ClickFacts.
Import Json Page Forms JsonFacts StorageFacts PageFacts ItemFacts StoreFacts.

Ltac unfold_m :=
  unfold mbind, M_bind, mret, M_ret, modify, gets, throw in *.

(** [saveEvent] up to its write: the record is appended. *)
Lemma saveEvent_write p ev l :
  events p = JArr l ->
  saveEvent ev p
  = localStorage_setItem LOCAL_STORAGE_KEY (stringify (JArr (l ++ [ev])))
      (upd_events (fun _ => JArr (l ++ [ev])) p).
Proof.
  intros H. unfold saveEvent. unfold mbind at 1 2 3, M_bind at 1 2 3, gets, modify.
  now rewrite H.
Qed.

Lemma saveEvent_ok p ev l :
  events p = JArr l ->
  accepts (localStorage p) LOCAL_STORAGE_KEY (stringify (JArr (l ++ [ev]))) = true ->
  saveEvent ev p
  = (Ret tt, upd_localStorage <[LOCAL_STORAGE_KEY := stringify (JArr (l ++ [ev]))]>
               (upd_events (fun _ => JArr (l ++ [ev])) p)).
Proof.
  intros H Ha. rewrite (saveEvent_write p ev l H).
  now apply localStorage_setItem_accepted.
Qed.

Lemma saveEvent_refused p ev l :
  events p = JArr l ->
  accepts (localStorage p) LOCAL_STORAGE_KEY (stringify (JArr (l ++ [ev]))) = false ->
  saveEvent ev p = (Throw QuotaExceededError, upd_events (fun _ => JArr (l ++ [ev])) p).
Proof.
  intros H Ha. rewrite (saveEvent_write p ev l H).
  now apply localStorage_setItem_refused.
Qed.

Lemma saveEvent_throws p ev :
  (forall l, events p <> JArr l) -> saveEvent ev p = (Throw TypeError, p).
Proof.
  intros H. unfold saveEvent. unfold_m.
  destruct (events p); try reflexivity. now destruct (H elems).
Qed.

Lemma addEventToHistory_record v e p :
  exists p', addEventToHistory v (to_json e) p = (Ret tt, p') /\
    events p' = events p /\ localStorage p' = localStorage p /\
    sessionStorage p' = sessionStorage p /\ stream p' = stream p.
Proof. eexists. split; [apply addEventToHistory_render | auto]. Qed.

Lemma dashboard_key_differs (s : string) :
  "dashboard_event_" +:+ s <> LOCAL_STORAGE_KEY.
Proof. discriminate. Qed.

Lemma sendToDashboard_record v e p :
  let p' := snd (sendToDashboard v (to_json e) p) in
  events p' = events p /\ stream p' = stream p /\
  localStorage p' !! LOCAL_STORAGE_KEY = localStorage p !! LOCAL_STORAGE_KEY.
Proof.
  unfold sendToDashboard, localStorage_setItem, sessionStorage_setItem,
    sessionStorage_getItem. unfold_m.
  destruct v.
  - cbn -[stringify String.append LOCAL_STORAGE_KEY accepts].
    match goal with |- context [accepts ?a ?k ?t] => destruct (accepts a k t) end;
      cbn -[stringify String.append LOCAL_STORAGE_KEY]; repeat split.
    apply storage_lookup_insert_ne, dashboard_key_differs.
  - cbn -[JSON_parse stringify accepts]. 
    destruct (sessionStorage p !! "dashboard_events") as [[|a t]|];
      match goal with |- context [JSON_parse ?t] => destruct (JSON_parse t) as [[]| |] end;
      try match goal with |- context [accepts ?a ?k ?t] => destruct (accepts a k t) end;
      cbn; auto.
Qed.

Lemma showNotification_store m b p :
  let p' := snd (showNotification m b p) in
  events p' = events p /\ stream p' = stream p /\ localStorage p' = localStorage p.
Proof. cbn. auto. Qed.

(** The page once a click has taken its snapshot. *)
Lemma click_snapshot v env p st :
  stream p = Some st ->
  eventButton_click v env p
  = (saveEvent (to_json (captured env)) ;;
     addEventToHistory v (to_json (captured env)) ;;
     sendToDashboard v (to_json (captured env)) ;;
     showNotification "Event reported successfully" false)
      (upd_canvas (fun c => mkCanvas (videoWidth (shot env)) (videoHeight (shot env))
                                     (S (frames_drawn c))) p).
Proof.
  intros Hs. unfold eventButton_click.
  rewrite (bind_eq _ _ p p (Some st)) by (unfold gets; now rewrite Hs).
  unfold takeSnapshot.
  erewrite bind_eq; [| unfold_m; reflexivity]. reflexivity.
Qed.

(** A click with the camera available appends the captured record,
    whatever happens afterwards in the handler; the persisted collection
    is the new list when its write is accepted, and is as before when it
    is refused. *)
Lemma eventButton_click_store v env p st l :
  stream p = Some st -> events p = JArr l ->
  let p' := snd (eventButton_click v env p) in
  let text := stringify (JArr (l ++ [to_json (captured env)])) in
  events p' = JArr (l ++ [to_json (captured env)]) /\
  stream p' = Some st /\
  localStorage p' !! LOCAL_STORAGE_KEY
    = if accepts (localStorage p) LOCAL_STORAGE_KEY text then Some text
      else localStorage p !! LOCAL_STORAGE_KEY.
Proof.
  intros Hs Hev. cbn zeta. rewrite (click_snapshot v env p st Hs).
  set (p0 := upd_canvas _ p).
  destruct (accepts (localStorage p) LOCAL_STORAGE_KEY
              (stringify (JArr (l ++ [to_json (captured env)])))) eqn:Ha.
  - erewrite bind_eq; [| apply saveEvent_ok with (l := l); [exact Hev | exact Ha]].
    erewrite bind_eq; [| apply addEventToHistory_render].
    match goal with |- context [(sendToDashboard v ?e ≫= ?k) ?q] =>
      pose proof (sendToDashboard_record v (captured env) q) as (B1 & B2 & B3);
      unfold mbind, M_bind;
      destruct (sendToDashboard v e q) as [[[]|e'] p4]
    end;
      cbn [snd] in B1, B2, B3;
      unfold showNotification, setTimeout; unfold_m;
      cbn -[stringify LOCAL_STORAGE_KEY];
      rewrite B1, B2, B3; cbn -[stringify LOCAL_STORAGE_KEY]; rewrite Hs;
      (repeat split; apply storage_lookup_insert).
  - rewrite (bind_throw _ _ _ _ _ (saveEvent_refused p0 _ l Hev Ha)). cbn [snd]. auto.
Qed.

End ClickFacts.
Import Json Page Forms JsonFacts StorageFacts PageFacts ItemFacts StoreFacts ClickFacts.

Module EndFacts.
Import Json Page Forms JsonFacts StorageFacts PageFacts ItemFacts StoreFacts ClickFacts.

Lemma handleTouchEnd_put p h c el0 s0 v s :
  closure_at p h c = Some (el0, s0) ->
  handleTouchEnd h c (put h c v s p)
  = settle h c
      (put h c (mkVisual (v_ready v) (v_transform v) (Some TransformEase) (v_collapsed v))
               (upd_isDragging (fun _ => false) s) p).
Proof.
  intros H. rewrite handleTouchEnd_settle.
  rewrite (bind_eq _ _ _ _ _ (set_vars_put _ _ _ _ _ _ _ _ H)).
  now rewrite (bind_eq _ _ _ _ _ (set_transition_put _ _ _ _ _ _ _ _ H)).
Qed.

Lemma handleMouseUp_idle p h c el s :
  closure_at p h c = Some (el, s) -> isDragging s = false ->
  handleMouseUp h c p = (Ret false, p).
Proof.
  intros H Hd. apply closure_at_inv in H as [He Hs].
  unfold handleMouseUp, vars, element_at, mbind, M_bind.
  rewrite He. cbn. rewrite Hs. cbn. now rewrite Hd.
Qed.

(** The two ways a [settle] on a known recognizer ends. *)
Lemma settle_cases p h c el0 s0 v s :
  closure_at p h c = Some (el0, s0) ->
  let q := put h c v s p in
  (currentTranslate s < -100 /\
   settle h c q = (deleteHistoryItem h ;; mret true) q)
  \/ (-100 <= currentTranslate s /\
      settle h c q
      = (Ret false,
         put h c (mkVisual false (Some TranslateZero) (v_transition v) (v_collapsed v))
                 (upd_currentTranslate (fun _ => 0) s) p)).
Proof.
  intros H q. subst q. rewrite (settle_put _ _ _ _ _ _ _ H).
  destruct (currentTranslate s <? -100) eqn:E.
  - left. apply Z.ltb_lt in E. auto.
  - right. apply Z.ltb_ge in E. auto.
Qed.

Lemma delete_then_true p h :
  match (deleteHistoryItem h ;; mret true) p with
  | (Ret b, p') => b = true /\ exists l', deleteHistoryItem h p = (Ret tt, deleted h l' p)
                                         /\ p' = deleted h l' p
  | (Throw _, p') => p' = p \/ exists l', p' = trimmed l' p
  end.
Proof.
  unfold mbind, M_bind.
  destruct (deleteHistoryItem_cases p h)
    as [(el & l & l' & _ & _ & _ & _ & E)
       | [(el & l & l' & _ & _ & _ & _ & E) | (e & _ & E)]];
    rewrite E; cbn; eauto.
Qed.



End EndFacts.
Import EndFacts.


(** C9. Without a stream the click handler only shows the error
    notification: no frame is drawn on the canvas, no record is created,
    no history item is added, nothing is handed to the dashboard, and the
    in-memory list and both storage areas are as before. *)
Theorem click_without_camera (v : variant) (env : capture) (p : page) :
  stream p = None ->
  exists p', eventButton_click v env p = (Ret tt, p') /\
    events p' = events p /\ localStorage p' = localStorage p /\
    sessionStorage p' = sessionStorage p /\ canvas p' = canvas p /\
    elements p' = elements p /\ historyContainer p' = historyContainer p /\
    opened p' = opened p /\ stream p' = None /\
    notification p' = mkNotice "Camera not available" true true /\
    timers p' = timers p ++ [(3000, HideNotification)].
Proof.
  intros Hs. eexists. split.
  - unfold eventButton_click.
    rewrite (bind_eq _ _ p p None) by (unfold gets; now rewrite Hs). reflexivity.
  - cbn. auto 12.
Qed.

(* ===================================================================== *)
(** * Loading and reloading *)
(* ===================================================================== *)

Module LoadFacts.
Import Json Page Forms JsonFacts StorageFacts PageFacts ItemFacts StoreFacts ClickFacts EndFacts.

Lemma quiet_refl p : quiet p p.
Proof. repeat split. Qed.

Lemma quiet_trans p q r : quiet p q -> quiet q r -> quiet p r.
Proof. unfold quiet. intuition congruence. Qed.

Lemma forEach_quiet {A} (f : A -> M unit) (l : list A) :
  Forall (fun x => forall p, exists p', f x p = (Ret tt, p') /\ quiet p p') l ->
  forall p, exists p', forEach l f p = (Ret tt, p') /\ quiet p p'.
Proof.
  induction 1 as [|x l Hx _ IH]; intros p; cbn [forEach].
  - exists p. split; [reflexivity | apply quiet_refl].
  - destruct (Hx p) as (p1 & E1 & Q1). destruct (IH p1) as (p2 & E2 & Q2).
    exists p2. rewrite (bind_eq _ _ _ _ _ E1). split; [exact E2 |].
    now apply quiet_trans with (q := p1).
Qed.

Lemma addEventToHistory_quiet v e p :
  exists p', addEventToHistory v (to_json e) p = (Ret tt, p') /\ quiet p p'.
Proof. eexists. split; [apply addEventToHistory_render | repeat split]. Qed.

Lemma makeHistoryItemsSwipeable_quiet p :
  exists p', makeHistoryItemsSwipeable p = (Ret tt, p') /\ quiet p p'.
Proof.
  unfold makeHistoryItemsSwipeable.
  rewrite (bind_eq _ _ p p (historyContainer p)) by reflexivity.
  apply forEach_quiet. apply Forall_forall. intros h _ q.
  eexists. split; [reflexivity | repeat split].
Qed.

Lemma finish_load_quiet v p :
  exists p', (match v with
              | Swipeable => makeHistoryItemsSwipeable
              | Plain => mret tt
              end) p = (Ret tt, p') /\ quiet p p'.
Proof.
  destruct v; [apply makeHistoryItemsSwipeable_quiet |].
  exists p. split; [reflexivity | apply quiet_refl].
Qed.

Lemma stringify_array_nonempty (l : list json) :
  exists c t, stringify (JArr l) = String c t.
Proof. cbn. eauto. Qed.


(** Loading a stored list of event records. *)
Lemma loadEvents_records v p evs :
  localStorage p !! LOCAL_STORAGE_KEY = Some (stringify (JArr (map to_json evs))) ->
  exists p', loadEvents v p = (Ret tt, p') /\
    events p' = JArr (map to_json evs) /\ localStorage p' = localStorage p /\
    sessionStorage p' = sessionStorage p /\ notification p' = notification p /\
    interval p' = interval p.
Proof.
  intros H. unfold loadEvents, localStorage_getItem.
  rewrite (bind_eq _ _ p p (localStorage p !! LOCAL_STORAGE_KEY)) by reflexivity.
  rewrite H. destruct (stringify_array_nonempty (map to_json evs)) as (c0 & t & Ht).
  assert (Hm : forall (A : Type) (a b : A),
            match stringify (JArr (map to_json evs)) with
            | EmptyString => a
            | String _ _ => b
            end = b) by (intros; now rewrite Ht).
  rewrite Hm, parse_stringify_records.
  set (p1 := upd_events (fun _ => JArr (map to_json evs)) p).
  destruct (forEach_quiet (addEventToHistory v) (map to_json evs)) with (p := p1)
    as (p2 & E2 & Q2).
  { apply Forall_forall. intros x Hx. apply list_elem_of_In, in_map_iff in Hx as (e & <- & _).
    intros q. apply addEventToHistory_quiet. }
  destruct (finish_load_quiet v p2) as (p3 & E3 & Q3).
  exists p3. split.
  - erewrite bind_eq; [exact E3 |].
    erewrite bind_eq; [exact E2 | reflexivity].
  - destruct Q2 as (A1 & A2 & A3 & A4 & A5 & _), Q3 as (B1 & B2 & B3 & B4 & B5 & _).
    subst p1. cbn in *. repeat split; congruence.
Qed.


(** Timers leave both storage areas alone. *)
Lemma fire_storage i p :
  localStorage (snd (fire i p)) = localStorage p /\
  sessionStorage (snd (fire i p)) = sessionStorage p.
Proof.
  unfold fire, mbind, M_bind, gets, modify, mret, M_ret.
  destruct (timers p !! i) as [[d [|h]]|]; cbn; auto.
Qed.

Lemma fire_all_storage fired p :
  localStorage (snd (fire_all fired p)) = localStorage p /\
  sessionStorage (snd (fire_all fired p)) = sessionStorage p.
Proof.
  unfold fire_all. revert p. induction fired as [|i fired IH]; intros p; cbn [forEach].
  - auto.
  - change ((listener (fire i) ;; forEach fired (fun i => listener (fire i))) p)
      with (forEach fired (fun i => listener (fire i)) (snd (fire i p))).
    destruct (IH (snd (fire i p))) as [A B], (fire_storage i p) as [C D].
    split; congruence.
Qed.

(** A reload over storage that holds a list of event records. *)
Lemma reload_records v now p evs :
  localStorage p !! LOCAL_STORAGE_KEY = Some (stringify (JArr (map to_json evs))) ->
  exists q, reload v now p = (Ret tt, q) /\ events q = JArr (map to_json evs) /\
            localStorage q = localStorage p /\
            notification q = mkNotice EmptyString false false /\ interval q = true.
Proof.
  intros H. unfold reload, DOMContentLoaded, updateCurrentTime.
  erewrite bind_eq; [| reflexivity].
  set (p0 := upd_currentTime _ _).
  destruct (loadEvents_records v p0 evs H) as (p1 & E1 & A1 & A2 & A3 & A4 & A5).
  rewrite (bind_eq _ _ _ _ _ E1).
  erewrite bind_eq; [| reflexivity].
  destruct (finish_load_quiet v (upd_interval (fun _ => true) p1))
    as (p2 & E2 & B1 & B2 & B3 & B4 & B5 & _).
  exists p2. split; [exact E2 |]. cbn in *. subst p0. cbn in *.
  repeat split; congruence.
Qed.

(** Leaving entries out of a list does not make its text longer. *)
Lemma length_join_filter {A} (g : A -> string) (f : A -> bool) (sep : string) (l : list A) :
  (String.length (join sep (map g (List.filter f l)))
   <= String.length (join sep (map g l)))%nat.
Proof.
  induction l as [|x l IH]; [cbn; lia |].
  assert (Hx : (String.length (join sep (map g l))
                <= String.length (join sep (map g (x :: l))))%nat).
  { destruct l as [|y l]; [cbn; lia |].
    cbn [map]. rewrite join_cons2, !length_append. cbn [map] in *. lia. }
  cbn [List.filter]. destruct (f x); [| lia].
  cbn [map]. destruct (List.filter f l) as [|y r] eqn:Hf.
  - cbn [map join]. apply length_join_head.
  - destruct l as [|z l]; [discriminate |].
    cbn [map] in *. rewrite !join_cons2, !length_append. lia.
Qed.

Lemma stringify_filter_shorter (f : event -> bool) (evs : list event) :
  (String.length (stringify (JArr (map to_json (List.filter f evs))))
   <= String.length (stringify (JArr (map to_json evs))))%nat.
Proof.
  cbn [stringify]. rewrite !map_map.
  cbn [String.append String.length]. rewrite !length_append.
  pose proof (length_join_filter (fun e => stringify (to_json e)) f "," evs). lia.
Qed.

(** On a page whose persisted collection is in step, the write of a
    deletion is accepted: it does not make the item longer. *)
Lemma mirrored_accepts_filter (p : page) (f : event -> bool) (evs : list event) :
  mirrored p -> events p = JArr (map to_json evs) ->
  accepts (localStorage p) LOCAL_STORAGE_KEY
    (stringify (JArr (map to_json (List.filter f evs)))) = true.
Proof.
  intros Hm Hev. unfold mirrored in Hm. rewrite Hev in Hm.
  apply accepts_not_longer with (v0 := stringify (JArr (map to_json evs)));
    [exact Hm | apply stringify_filter_shorter].
Qed.

Lemma filter_drops (n : Z) (evs : list event) :
  Forall (fun e => id e <> n) (List.filter (fun e => negb (id e =? n)) evs).
Proof.
  apply Forall_forall. intros e He. apply list_elem_of_In, filter_In in He as [_ He].
  apply negb_true_iff, Z.eqb_neq in He. exact He.
Qed.

End LoadFacts.
Import LoadFacts.

(** C1, as the script has it. A drag-end that commits removes the record
    from the in-memory list and at once asks the storage area to take the
    updated collection; the area accepts whenever the persisted collection
    was in step with the list.  When the write is accepted, the removal of
    the item from the display only waits on a 300 ms timer, and a reload
    of the page from then on, before or after any timers fire, loads a
    list without the deleted record.  When the write is refused, the
    drag-end ends there on a QuotaExceededError: the record is gone from
    the list only, the item is neither collapsed nor scheduled for removal,
    and a reload loads what the storage area held before, deleted record
    included. *)
Theorem commit_persists_before_removal
    (k : pointer) (p : page) (h c : nat) (el : element) (s : swipe)
    (evs : list event) (n : Z) :
  closure_at p h c = Some (el, s) -> isDragging s = true ->
  currentTranslate s < -100 ->
  dataset_id el = Some (decimal n) ->
  events p = JArr (map to_json evs) ->
  let kept := List.filter (fun e => negb (id e =? n)) evs in
  let text := stringify (JArr (map to_json kept)) in
  (mirrored p -> accepts (localStorage p) LOCAL_STORAGE_KEY text = true) /\
  (accepts (localStorage p) LOCAL_STORAGE_KEY text = true ->
   exists p',
     drag_end k h c p = (Ret true, p') /\
     events p' = JArr (map to_json kept) /\
     localStorage p' !! LOCAL_STORAGE_KEY = Some text /\
     timers p' = timers p ++ [(300, RemoveItem h)] /\
     historyContainer p' = historyContainer p /\
     Forall (fun e => id e <> n) kept /\
     forall fired v now,
       exists q, reload v now (snd (fire_all fired p')) = (Ret tt, q) /\
                 events q = JArr (map to_json kept)) /\
  (accepts (localStorage p) LOCAL_STORAGE_KEY text = false ->
   exists p',
     drag_end k h c p = (Throw QuotaExceededError, p') /\
     events p' = JArr (map to_json kept) /\
     localStorage p' = localStorage p /\
     timers p' = timers p /\ historyContainer p' = historyContainer p /\
     (exists el', elements p' !! h = Some el' /\ collapsed el' = collapsed el) /\
     forall held fired v now,
       localStorage p !! LOCAL_STORAGE_KEY = Some (stringify (JArr (map to_json held))) ->
       exists q, reload v now (snd (fire_all fired p')) = (Ret tt, q) /\
                 events q = JArr (map to_json held)).
Proof.
  intros H Hd Hct Hid Hev kept text.
  split; [intros Hm; now apply mirrored_accepts_filter |].
  pose proof (drag_end_put k p h c el s (visual_of el) s H Hd) as E.
  rewrite (put_id _ _ _ _ _ H) in E.
  set (q0 := put h c _ _ (released k h c p)) in E.
  assert (Hq : closure_at (released k h c p) h c = Some (el, s))
    by (now rewrite closure_released).
  destruct (settle_cases (released k h c p) h c el s
              (mkVisual (v_ready (visual_of el)) (v_transform (visual_of el))
                        (Some TransformEase) (v_collapsed (visual_of el)))
              (upd_isDragging (fun _ => false) s) Hq) as [[_ E'] | [Hge _]];
    [| cbn in Hge; lia].
  fold q0 in E'. rewrite E' in E. clear E'.
  assert (Hel : elements q0 !! h = Some _) by (subst q0; apply (put_lookup _ _ _ _ _ _ _ Hq)).
  assert (Hev0 : events q0 = JArr (map to_json evs)) by (subst q0; destruct k; exact Hev).
  assert (Hls : localStorage q0 = localStorage p) by (subst q0; destruct k; reflexivity).
  assert (Hf : array_filter (other_id (eventId_of el)) (map to_json evs)
               = Some (map to_json kept)) by now apply array_filter_records.
  split.
  - intros Ha.
    assert (Hdel : deleteHistoryItem h q0 = (Ret tt, deleted h (map to_json kept) q0)).
    { eapply deleteHistoryItem_ok; [exact Hel | exact Hev0 | exact Hf | now rewrite Hls]. }
    rewrite (bind_eq _ _ _ _ _ Hdel) in E.
    exists (deleted h (map to_json kept) q0). split; [exact E |].
    split; [reflexivity |]. split; [apply storage_lookup_insert |].
    split; [subst q0; destruct k; reflexivity |].
    split; [subst q0; destruct k; reflexivity |].
    split; [apply filter_drops |].
    intros fired v now.
    destruct (fire_all_storage fired (deleted h (map to_json kept) q0)) as (F2 & _).
    destruct (reload_records v now (snd (fire_all fired (deleted h (map to_json kept) q0))) kept)
      as (q & Eq & Aq & _).
    { rewrite F2. apply storage_lookup_insert. }
    eauto.
  - intros Ha.
    assert (Hdel : deleteHistoryItem h q0
                   = (Throw QuotaExceededError, trimmed (map to_json kept) q0)).
    { eapply deleteHistoryItem_refused; [exact Hel | exact Hev0 | exact Hf | now rewrite Hls]. }
    rewrite (bind_throw _ _ _ _ _ Hdel) in E.
    exists (trimmed (map to_json kept) q0). split; [exact E |].
    split; [reflexivity |]. split; [exact Hls |].
    split; [subst q0; destruct k; reflexivity |].
    split; [subst q0; destruct k; reflexivity |].
    split; [eexists; split; [exact Hel | reflexivity] |].
    intros held fired v now Hst.
    destruct (fire_all_storage fired (trimmed (map to_json kept) q0)) as (F2 & _).
    destruct (reload_records v now (snd (fire_all fired (trimmed (map to_json kept) q0))) held)
      as (q & Eq & Aq & _).
    { rewrite F2. change (localStorage (trimmed _ q0)) with (localStorage q0).
      now rewrite Hls. }
    eauto.
Qed.

(* ===================================================================== *)
(** * The drag recognizer *)
(* ===================================================================== *)

Module DragFacts.
Import Json Page Forms JsonFacts StorageFacts PageFacts ItemFacts StoreFacts ClickFacts EndFacts LoadFacts.

Lemma session_put k p h c el s x0 xs :
  closure_at p h c = Some (el, s) ->
  (drag_start k h c x0 ;; drag_moves k h c xs) p
  = (Ret tt, put h c (fst (slide xs (started x0 el s))) (snd (slide xs (started x0 el s)))
                 (armed k h c p)).
Proof.
  intros H.
  pose proof (drag_start_put k p h c el s (visual_of el) s x0 H) as E.
  rewrite (put_id _ _ _ _ _ H) in E. rewrite (bind_eq _ _ _ _ _ E).
  apply drag_moves_put with (el0 := el) (s0 := s). now rewrite closure_armed.
Qed.

Lemma slide_started x0 xs el s :
  let vs := slide xs (started x0 el s) in
  isDragging (snd vs) = true /\ startX (snd vs) = Some x0 /\
  currentTranslate (snd vs) = default (currentTranslate s) (last_leftward x0 xs None) /\
  v_ready (fst vs) = match last_leftward x0 xs None with
                     | Some d => d <? -80
                     | None => delete_ready el
                     end /\
  v_transform (fst vs) = match last_leftward x0 xs None with
                         | Some d => Some (TranslateX d)
                         | None => style_transform el
                         end.
Proof.
  destruct (slide_session x0 xs (fst (started x0 el s)) (snd (started x0 el s))
              eq_refl eq_refl) as (A & B & C & D & E & _).
  cbn zeta. unfold started in *. cbn [fst snd] in *. auto.
Qed.

Lemma slide_moveX x0 xs v s :
  isDragging s = true -> startX s = Some x0 ->
  moveX (snd (slide xs (v, s))) = match last xs with
                                  | Some x => Some x
                                  | None => moveX s
                                  end.
Proof.
  intros Hd Hx. induction xs as [|x xs IH] using rev_ind; [reflexivity |].
  rewrite slide_snoc, last_snoc.
  destruct (slide_session x0 xs v s Hd Hx) as (A & B & _).
  destruct (slide xs (v, s)) as [v' s']. cbn [fst snd] in *.
  unfold track_step. rewrite A, B. destruct (x - x0 <? 0); reflexivity.
Qed.

Lemma last_leftward_rightward x0 xs d :
  Forall (fun x => x0 <= x) xs -> last_leftward x0 xs d = d.
Proof.
  intros H. revert d. induction H as [|x xs Hx _ IH]; intros d; cbn; [reflexivity |].
  rewrite IH. destruct (x - x0 <? 0) eqn:E; [apply Z.ltb_lt in E; lia | reflexivity].
Qed.

Lemma last_leftward_split x0 xs d :
  last_leftward x0 xs None = Some d ->
  exists ys x zs, xs = ys ++ x :: zs /\ d = x - x0 /\ x - x0 < 0 /\
                  Forall (fun z => x0 <= z) zs.
Proof.
  revert d. induction xs as [|x xs IH] using rev_ind; intros d H; [discriminate |].
  rewrite last_leftward_snoc in H. destruct (x - x0 <? 0) eqn:E.
  - injection H as <-. apply Z.ltb_lt in E. exists xs, x, []. auto.
  - destruct (IH d H) as (ys & y & zs & -> & Hd & Hy & Hz).
    exists ys, y, (zs ++ [x]). rewrite <- app_assoc. repeat split; auto.
    apply Forall_app. split; [exact Hz |]. apply Z.ltb_ge in E.
    constructor; [lia | constructor].
Qed.

Lemma last_leftward_app x0 ys x zs :
  x - x0 < 0 -> Forall (fun z => x0 <= z) zs ->
  last_leftward x0 (ys ++ x :: zs) None = Some (x - x0).
Proof.
  intros Hx Hz.
  replace (ys ++ x :: zs) with ((ys ++ [x]) ++ zs) by now rewrite <- app_assoc.
  assert (G : forall l1 l2 d, last_leftward x0 (l1 ++ l2) d
                              = last_leftward x0 l2 (last_leftward x0 l1 d)).
  { induction l1 as [|a l1 IH]; intros l2 d; cbn; [reflexivity | apply IH]. }
  rewrite G, last_leftward_snoc, last_leftward_rightward by assumption.
  apply Z.ltb_lt in Hx. now rewrite Hx.
Qed.

Lemma bind_assoc {A B C} (m : M A) (f : A -> M B) (g : B -> M C) (p : page) :
  (m ≫= (fun x => f x ≫= g)) p = ((m ≫= f) ≫= g) p.
Proof. unfold mbind, M_bind. now destruct (m p) as [[a|e] p']. Qed.

(** The whole drag, reduced to the final [settle]. *)
Lemma drag_put k p h c el s x0 xs :
  closure_at p h c = Some (el, s) ->
  let vs := slide xs (started x0 el s) in
  drag k h c x0 xs p
  = settle h c
      (put h c (mkVisual (v_ready (fst vs)) (v_transform (fst vs)) (Some TransformEase)
                         (v_collapsed (fst vs)))
               (upd_isDragging (fun _ => false) (snd vs))
               (released k h c (armed k h c p))).
Proof.
  intros H vs. unfold drag.
  pose proof (session_put k p h c el s x0 xs H) as E. fold vs in E.
  rewrite bind_assoc, (bind_eq _ _ _ _ _ E).
  apply drag_end_put with (el0 := el) (s0 := s).
  - now rewrite closure_armed.
  - subst vs. now destruct (slide_started x0 xs el s) as (A & _).
Qed.

(** A drag whose last leftward move went beyond the threshold ends in the
    deletion of its item. *)
Lemma drag_to_commit k p h c el s x0 xs d :
  closure_at p h c = Some (el, s) ->
  last_leftward x0 xs None = Some d -> d < -100 ->
  exists q0 el0,
    drag k h c x0 xs p = (deleteHistoryItem h ;; mret true) q0 /\
    elements q0 !! h = Some el0 /\ dataset_id el0 = dataset_id el /\
    events q0 = events p /\ localStorage q0 = localStorage p /\
    timers q0 = timers p /\ historyContainer q0 = historyContainer p.
Proof.
  intros H Hd Hlt.
  pose proof (drag_put k p h c el s x0 xs H) as E. cbn zeta in E.
  destruct (slide_started x0 xs el s) as (_ & _ & C & _).
  rewrite Hd in C. cbn in C.
  assert (Hq : closure_at (released k h c (armed k h c p)) h c = Some (el, s))
    by now rewrite closure_released, closure_armed.
  rewrite (settle_put _ _ _ _ _ _ _ Hq) in E.
  cbn [currentTranslate upd_isDragging] in E. rewrite C in E.
  apply Z.ltb_lt in Hlt. rewrite Hlt in E.
  set (q0 := put h c _ _ _) in E.
  exists q0. eexists. split; [exact E |].
  split; [subst q0; apply (put_lookup _ _ _ _ _ _ _ Hq) |].
  split; [reflexivity |].
  repeat split; subst q0; destruct k; reflexivity.
Qed.

End DragFacts.

Module Observe.
Import Json Page Forms JsonFacts StorageFacts PageFacts ItemFacts StoreFacts ClickFacts EndFacts LoadFacts DragFacts.

Lemma observe_put q h c el s v s' :
  closure_at q h c = Some (el, s) ->
  exists el1, closure_at (put h c v s' q) h c = Some (el1, s') /\
    delete_ready el1 = v_ready v /\ style_transform el1 = v_transform v /\
    dataset_id el1 = dataset_id el /\
    length (recognizers el1) = length (recognizers el).
Proof.
  intros H. eexists. split; [apply (put_closure _ _ _ _ _ _ _ H) |].
  cbn. repeat split. apply length_insert.
Qed.

Lemma observe_session k p h c el s x0 xs :
  closure_at p h c = Some (el, s) ->
  exists p1 el1 s1,
    (drag_start k h c x0 ;; drag_moves k h c xs) p = (Ret tt, p1) /\
    closure_at p1 h c = Some (el1, s1) /\
    isDragging s1 = true /\ startX s1 = Some x0 /\
    currentTranslate s1 = default (currentTranslate s) (last_leftward x0 xs None) /\
    moveX s1 = match last xs with Some x => Some x | None => moveX s end /\
    delete_ready el1 = match last_leftward x0 xs None with
                       | Some d => d <? -80
                       | None => delete_ready el
                       end /\
    style_transform el1 = match last_leftward x0 xs None with
                          | Some d => Some (TranslateX d)
                          | None => style_transform el
                          end /\
    events p1 = events p /\ localStorage p1 = localStorage p.
Proof.
  intros H.
  assert (Ha : closure_at (armed k h c p) h c = Some (el, s)) by now rewrite closure_armed.
  destruct (observe_put _ _ _ _ _ (fst (slide xs (started x0 el s)))
              (snd (slide xs (started x0 el s))) Ha) as (el1 & C1 & R1 & T1 & _).
  destruct (slide_started x0 xs el s) as (A & B & C & D & E).
  pose proof (slide_moveX x0 xs (fst (started x0 el s)) (snd (started x0 el s))
                eq_refl eq_refl) as F.
  eexists _, el1, _. split; [apply (session_put k p h c el s x0 xs H) |].
  split; [exact C1 |]. cbn zeta in *.
  repeat split; try assumption; try congruence; destruct k; reflexivity.
Qed.

End Observe.
Import Json Page Forms JsonFacts StorageFacts PageFacts ItemFacts StoreFacts ClickFacts EndFacts LoadFacts
  DragFacts Observe Examples.

(** C5, as the script has it. In a drag whose moves all stay at or to the
    right of the origin, the moves change nothing on the item: after every
    prefix of the moves the recognizer's offset, the item's transform and
    its delete-ready class are what they were at the drag-start; on an item
    at rest the offset so stays 0 and the class absent.  The drag-end
    reverts, with the event list and the persisted collection unchanged,
    exactly when the offset held at the drag-start is not below -100.  When
    an earlier committed drag left the offset below -100, the drag-end
    takes the commit branch again although no move went left. *)
Theorem rightward_drag_is_clamped
    (k : pointer) (p : page) (h c : nat) (el : element) (s : swipe)
    (x0 : Z) (xs : list Z) :
  closure_at p h c = Some (el, s) ->
  Forall (fun x => x0 <= x) xs ->
  (forall ys zs, xs = ys ++ zs ->
     exists p1 el1 s1,
       (drag_start k h c x0 ;; drag_moves k h c ys) p = (Ret tt, p1) /\
       closure_at p1 h c = Some (el1, s1) /\
       currentTranslate s1 = currentTranslate s /\
       delete_ready el1 = delete_ready el /\
       style_transform el1 = style_transform el) /\
  (-100 <= currentTranslate s ->
   exists p' el' s',
     drag k h c x0 xs p = (Ret false, p') /\
     events p' = events p /\ localStorage p' = localStorage p /\
     closure_at p' h c = Some (el', s') /\
     currentTranslate s' = 0 /\ delete_ready el' = false /\
     style_transform el' = Some TranslateZero) /\
  (currentTranslate s < -100 -> fst (drag k h c x0 xs p) <> Ret false).
Proof.
  intros H Hxs.
  assert (Hq : closure_at (released k h c (armed k h c p)) h c = Some (el, s))
    by now rewrite closure_released, closure_armed.
  pose proof (drag_put k p h c el s x0 xs H) as E. cbn zeta in E.
  destruct (slide_started x0 xs el s) as (_ & _ & A & _).
  rewrite (last_leftward_rightward _ _ _ Hxs) in A. cbn in A.
  rewrite (settle_put _ _ _ _ _ _ _ Hq) in E.
  cbn [currentTranslate upd_isDragging] in E. rewrite A in E.
  split; [| split].
  - intros ys zs ->. apply Forall_app in Hxs as [Hys _].
    destruct (observe_session k p h c el s x0 ys H)
      as (p1 & el1 & s1 & E1 & C & _ & _ & A1 & _ & A2 & A3 & _).
    rewrite (last_leftward_rightward _ _ _ Hys) in *. cbn in A1.
    exists p1, el1, s1. repeat split; congruence.
  - intros Hge. apply Z.ltb_ge in Hge. rewrite Hge in E.
    match type of E with _ = (_, put h c ?v ?s' _) =>
      destruct (observe_put _ _ _ _ _ v s' Hq) as (el' & C' & R' & T' & _) end.
    eexists _, el', _. split; [exact E |].
    split; [destruct k; reflexivity |]. split; [destruct k; reflexivity |].
    split; [exact C' |]. cbn in *. auto.
  - intros Hlt Hr. apply Z.ltb_lt in Hlt. rewrite Hlt in E. rewrite E in Hr.
    match type of Hr with fst (?m ?q) = _ =>
      pose proof (delete_then_true q h) as D; destruct (m q) as [[b|e] q'] end;
      [destruct D as [-> _] |]; discriminate.
Qed.

Module AffordanceFacts.
Import Json Page Forms JsonFacts StorageFacts PageFacts ItemFacts StoreFacts ClickFacts EndFacts LoadFacts
  DragFacts Observe.

Lemma last_leftward_none x0 xs :
  last_leftward x0 xs None = None -> Forall (fun z => x0 <= z) xs.
Proof.
  induction xs as [|x xs IH] using rev_ind; intros H; [constructor |].
  rewrite last_leftward_snoc in H. destruct (x - x0 <? 0) eqn:E; [discriminate |].
  apply Forall_app. split; [now apply IH |].
  apply Z.ltb_ge in E. constructor; [lia | constructor].
Qed.

(** Every handler of a recognizer keeps the delete-ready class on while
    the recognizer's offset is below the soft threshold. *)
Lemma affordance_invariant k p h c el s :
  closure_at p h c = Some (el, s) -> affordance_kept el s ->
  (forall x, exists el' s',
     closure_at (snd (drag_start k h c x p)) h c = Some (el', s') /\
     affordance_kept el' s') /\
  (forall x, exists el' s',
     closure_at (snd (drag_move k h c x p)) h c = Some (el', s') /\
     affordance_kept el' s') /\
  (exists el' s',
     closure_at (snd (drag_end k h c p)) h c = Some (el', s') /\
     affordance_kept el' s').
Proof.
  intros H Hinv. unfold affordance_kept in *.
  assert (Ha : closure_at (armed k h c p) h c = Some (el, s)) by now rewrite closure_armed.
  assert (Hr : closure_at (released k h c p) h c = Some (el, s))
    by now rewrite closure_released.
  split; [|split].
  - intros x. pose proof (drag_start_put k p h c el s (visual_of el) s x H) as E.
    rewrite (put_id _ _ _ _ _ H) in E. rewrite E. cbn [snd].
    match goal with |- context [put h c ?v ?s' _] =>
      destruct (observe_put _ _ _ _ _ v s' Ha) as (el' & C' & R' & _) end.
    exists el'. eexists. split; [exact C' |]. rewrite R'. exact Hinv.
  - intros x. pose proof (drag_move_put k p h c el s (visual_of el) s x H) as E.
    rewrite (put_id _ _ _ _ _ H) in E. rewrite E. cbn [snd].
    match goal with |- context [put h c ?v ?s' _] =>
      destruct (observe_put _ _ _ _ _ v s' H) as (el' & C' & R' & _) end.
    exists el'. eexists. split; [exact C' |]. rewrite R'.
    unfold track_step. cbn [visual_of].
    destruct (isDragging s); [|exact Hinv].
    destruct (startX s) as [x0|]; [|exact Hinv].
    destruct (x - x0 <? 0); [|exact Hinv].
    cbn. intros Hlt. now apply Z.ltb_lt.
  - assert (Hs : forall q v s1, closure_at q h c = Some (el, s) ->
             (currentTranslate s1 < -80 -> v_ready v = true) ->
             exists el' s', closure_at (snd (settle h c (put h c v s1 q))) h c = Some (el', s')
                            /\ (currentTranslate s' < -80 -> delete_ready el' = true)).
    { intros q v s1 Hq Hv.
      destruct (settle_cases q h c el s v s1 Hq) as [[_ E] | [_ E]]; rewrite E.
      - pose proof (delete_then_true (put h c v s1 q) h) as D.
        destruct ((deleteHistoryItem h ;; mret true) (put h c v s1 q)) as [[b|e] q'].
        + destruct D as (_ & l' & _ & ->). cbn [snd].
          rewrite (deleted_put _ _ _ _ _ _ _ _ Hq).
          match goal with |- context [put h c ?v' ?s' q] =>
            destruct (observe_put _ _ _ _ _ v' s' Hq) as (el' & C' & R' & _) end.
          exists el'. eexists. split; [exact C' |]. rewrite R'. exact Hv.
        + cbn [snd].
          assert (Hc : closure_at q' h c = closure_at (put h c v s1 q) h c)
            by (destruct D as [-> | [l' ->]]; reflexivity).
          rewrite Hc.
          destruct (observe_put _ _ _ _ _ v s1 Hq) as (el' & C' & R' & _).
          exists el'. eexists. split; [exact C' |]. rewrite R'. exact Hv.
      - cbn [snd].
        match goal with |- context [put h c ?v' ?s' q] =>
          destruct (observe_put _ _ _ _ _ v' s' Hq) as (el' & C' & R' & _) end.
        exists el'. eexists. split; [exact C' |]. cbn. lia. }
    destruct k; cbn [drag_end].
    + pose proof (handleTouchEnd_put p h c el s (visual_of el) s H) as E.
      rewrite (put_id _ _ _ _ _ H) in E. rewrite E.
      apply Hs; [exact H | exact Hinv].
    + destruct (isDragging s) eqn:Hd.
      * pose proof (drag_end_put Mouse _ _ _ _ _ (visual_of el) s H Hd) as E.
        cbn [drag_end] in E. rewrite (put_id _ _ _ _ _ H) in E. rewrite E.
        apply Hs; [exact Hr | exact Hinv].
      * rewrite (handleMouseUp_idle _ _ _ _ _ H Hd). cbn [snd]. eauto.
Qed.

End AffordanceFacts.
Import AffordanceFacts.

(** C4. On an item that carries the delete-ready class whenever its
    recognizer's offset is below -80 (as after every handler, and on a new
    item), a drag ends in the commit branch only if at some point of the
    drag before the drag-end the offset was below -100 with the class on;
    that point is the last leftward move, which went below -100, or the
    drag-start itself when an earlier committed drag had left the offset
    there. *)
Theorem commit_needs_affordance
    (k : pointer) (p : page) (h c : nat) (el : element) (s : swipe)
    (x0 : Z) (xs : list Z) :
  closure_at p h c = Some (el, s) ->
  affordance_kept el s ->
  fst (drag k h c x0 xs p) <> Ret false ->
  exists ys zs,
    xs = ys ++ zs /\ Forall (fun z => x0 <= z) zs /\
    (exists p1 el1 s1,
       (drag_start k h c x0 ;; drag_moves k h c ys) p = (Ret tt, p1) /\
       closure_at p1 h c = Some (el1, s1) /\
       currentTranslate s1 < -100 /\ delete_ready el1 = true) /\
    match last ys with
    | Some x => x - x0 < -100
    | None => currentTranslate s < -100
    end.
Proof.
  intros H Hinv Hcommit. unfold affordance_kept in Hinv.
  pose proof (drag_put k p h c el s x0 xs H) as E. cbn zeta in E.
  destruct (slide_started x0 xs el s) as (_ & _ & A & _).
  assert (Hq : closure_at (released k h c (armed k h c p)) h c = Some (el, s))
    by now rewrite closure_released, closure_armed.
  rewrite (settle_put _ _ _ _ _ _ _ Hq) in E.
  cbn [currentTranslate upd_isDragging] in E.
  destruct (last_leftward x0 xs None) as [d|] eqn:Hl; cbn in A; rewrite A in E.
  - destruct (d <? -100) eqn:Hd;
      [| rewrite E in Hcommit; exfalso; apply Hcommit; reflexivity].
    apply Z.ltb_lt in Hd.
    destruct (last_leftward_split _ _ _ Hl) as (ys & x & zs & -> & -> & Hx & Hz).
    exists (ys ++ [x]), zs. rewrite <- app_assoc. split; [reflexivity |].
    split; [exact Hz |]. rewrite last_snoc. split; [| exact Hd].
    destruct (observe_session k p h c el s x0 (ys ++ [x]) H)
      as (p1 & el1 & s1 & E1 & C1 & _ & _ & B1 & _ & B2 & _).
    rewrite last_leftward_snoc in *.
    assert (Hlt : (x - x0 <? 0) = true) by (apply Z.ltb_lt; lia). rewrite Hlt in *.
    exists p1, el1, s1. cbn in B1. repeat split; try assumption; [lia |].
    rewrite B2. apply Z.ltb_lt. lia.
  - destruct (currentTranslate s <? -100) eqn:Hd;
      [| rewrite E in Hcommit; exfalso; apply Hcommit; reflexivity].
    apply Z.ltb_lt in Hd.
    exists [], xs. split; [reflexivity |]. split; [now apply last_leftward_none |].
    split; [| exact Hd].
    destruct (observe_session k p h c el s x0 [] H)
      as (p1 & el1 & s1 & E1 & C1 & _ & _ & B1 & _ & B2 & _).
    cbn in B1, B2. exists p1, el1, s1. repeat split; try assumption; [lia |].
    rewrite B2. apply Hinv. lia.
Qed.

(** C10. The offset a drag-end decides on is the displacement of the
    last move that was left of the origin (the offset held before the drag
    when there was none), while the pointer's last position is kept apart
    in [moveX]; so a drag that went past the hard threshold and came back
    to the right of the origin before the release still takes the commit
    branch: the records whose id is the one the item carries are removed
    from the list, and the remaining ones are persisted and the removal
    timer is set when the storage area accepts the write (otherwise the
    drag-end ends on the QuotaExceededError of [setItem]). *)
Theorem commit_uses_last_leftward
    (k : pointer) (p : page) (h c : nat) (el : element) (s : swipe) (x0 : Z) :
  closure_at p h c = Some (el, s) ->
  (forall xs,
     exists p1 el1 s1,
       (drag_start k h c x0 ;; drag_moves k h c xs) p = (Ret tt, p1) /\
       closure_at p1 h c = Some (el1, s1) /\
       currentTranslate s1 = default (currentTranslate s) (last_leftward x0 xs None) /\
       moveX s1 = match last xs with Some x => Some x | None => moveX s end /\
       (fst (drag k h c x0 xs p) = Ret false <->
        -100 <= default (currentTranslate s) (last_leftward x0 xs None))) /\
  (forall xs x ys evs n,
     events p = JArr (map to_json evs) -> dataset_id el = Some (decimal n) ->
     x - x0 < -100 -> Forall (fun y => x0 <= y) ys ->
     let kept := List.filter (fun e => negb (id e =? n)) evs in
     let text := stringify (JArr (map to_json kept)) in
     let r := drag k h c x0 (xs ++ x :: ys) p in
     events (snd r) = JArr (map to_json kept) /\
     Forall (fun e => id e <> n) kept /\
     (accepts (localStorage p) LOCAL_STORAGE_KEY text = true ->
      fst r = Ret true /\
      localStorage (snd r) !! LOCAL_STORAGE_KEY = Some text /\
      timers (snd r) = timers p ++ [(300, RemoveItem h)]) /\
     (accepts (localStorage p) LOCAL_STORAGE_KEY text = false ->
      fst r = Throw QuotaExceededError /\ localStorage (snd r) = localStorage p)).
Proof.
  intros H.
  assert (Hq : closure_at (released k h c (armed k h c p)) h c = Some (el, s))
    by now rewrite closure_released, closure_armed.
  split.
  - intros xs.
    destruct (observe_session k p h c el s x0 xs H)
      as (p1 & el1 & s1 & E1 & C1 & _ & _ & B1 & B2 & _).
    exists p1, el1, s1. repeat split; try assumption.
    + intros Hr. pose proof (drag_put k p h c el s x0 xs H) as E. cbn zeta in E.
      destruct (slide_started x0 xs el s) as (_ & _ & A & _).
      rewrite (settle_put _ _ _ _ _ _ _ Hq) in E.
      cbn [currentTranslate upd_isDragging] in E. rewrite A in E.
      destruct (_ <? -100) eqn:Hd in E; [| now apply Z.ltb_ge in Hd].
      rewrite E in Hr.
      match type of Hr with fst (?m ?q) = _ =>
        pose proof (delete_then_true q h) as D; destruct (m q) as [[b|e] q'] end;
        [destruct D as [-> _] |]; discriminate.
    + intros Hge. pose proof (drag_put k p h c el s x0 xs H) as E. cbn zeta in E.
      destruct (slide_started x0 xs el s) as (_ & _ & A & _).
      rewrite (settle_put _ _ _ _ _ _ _ Hq) in E.
      cbn [currentTranslate upd_isDragging] in E. rewrite A in E.
      apply Z.ltb_ge in Hge. rewrite Hge in E. now rewrite E.
  - intros xs x ys evs n Hev Hid Hx Hys kept text r.
    destruct (drag_to_commit k p h c el s x0 (xs ++ x :: ys) (x - x0) H)
      as (q0 & el0 & E & Hel & Hid0 & Hev0 & Hls & Ht & _);
      [apply last_leftward_app; (assumption || lia) | exact Hx |].
    rewrite Hid in Hid0. rewrite Hev in Hev0.
    pose proof (array_filter_records el0 n evs Hid0) as Hf. fold kept in Hf.
    split; [| split; [apply filter_drops | split]].
    + destruct (accepts (localStorage p) LOCAL_STORAGE_KEY text) eqn:Ha.
      * unfold r. rewrite E.
        erewrite bind_eq;
          [| eapply deleteHistoryItem_ok; [exact Hel | exact Hev0 | exact Hf |
                                           rewrite Hls; exact Ha]].
        reflexivity.
      * unfold r. rewrite E.
        erewrite bind_throw;
          [| eapply deleteHistoryItem_refused; [exact Hel | exact Hev0 | exact Hf |
                                                rewrite Hls; exact Ha]].
        reflexivity.
    + intros Ha. unfold r. rewrite E.
      erewrite bind_eq;
        [| eapply deleteHistoryItem_ok; [exact Hel | exact Hev0 | exact Hf |
                                         rewrite Hls; exact Ha]].
      split; [reflexivity |]. split; [apply storage_lookup_insert |].
      cbn. now rewrite Ht.
    + intros Ha. unfold r. rewrite E.
      erewrite bind_throw;
        [| eapply deleteHistoryItem_refused; [exact Hel | exact Hev0 | exact Hf |
                                              rewrite Hls; exact Ha]].
      split; [reflexivity | exact Hls].
Qed.

(** C6, as the script has it. A drag-start that arrives while a session
    is active on the item is not ignored: the same recognizer stays active
    (no second one is created) with its offset, the item's transform and
    class, the event list and the persisted collection unchanged, but the
    session's origin becomes the new pointer position. *)
Theorem second_drag_start_resets_origin
    (k : pointer) (p : page) (h c : nat) (el : element) (s : swipe) (x : Z) :
  closure_at p h c = Some (el, s) -> isDragging s = true ->
  exists p' el' s',
    drag_start k h c x p = (Ret tt, p') /\
    closure_at p' h c = Some (el', s') /\
    startX s' = Some x /\ isDragging s' = true /\
    currentTranslate s' = currentTranslate s /\ moveX s' = moveX s /\
    length (recognizers el') = length (recognizers el) /\
    length (elements p') = length (elements p) /\
    delete_ready el' = delete_ready el /\
    style_transform el' = style_transform el /\
    events p' = events p /\ localStorage p' = localStorage p.
Proof.
  intros H Hd.
  pose proof (drag_start_put k p h c el s (visual_of el) s x H) as E.
  rewrite (put_id _ _ _ _ _ H) in E.
  assert (Ha : closure_at (armed k h c p) h c = Some (el, s)) by now rewrite closure_armed.
  match type of E with _ = (_, put h c ?v ?s' _) =>
    destruct (observe_put _ _ _ _ _ v s' Ha) as (el' & C' & R' & T' & _ & L') end.
  eexists _, el', _. split; [exact E |]. split; [exact C' |].
  cbn in *. repeat split; try assumption.
  - rewrite length_alter. destruct k; reflexivity.
  - destruct k; reflexivity.
  - destruct k; reflexivity.
Qed.

(* ===================================================================== *)
(** * Captures and startup *)
(* ===================================================================== *)

Module CaptureFacts.
Import Json Page Forms JsonFacts StorageFacts PageFacts ItemFacts StoreFacts ClickFacts EndFacts LoadFacts.

Lemma clicks_events v envs : forall p st evs,
  stream p = Some st -> events p = JArr (map to_json evs) ->
  events (snd (clicks v envs p)) = JArr (map to_json (evs ++ map captured envs)) /\
  stream (snd (clicks v envs p)) = Some st.
Proof.
  induction envs as [|env envs IH]; intros p st evs Hs Hev.
  - cbn. rewrite app_nil_r. auto.
  - change (clicks v (env :: envs) p)
      with (clicks v envs (snd (eventButton_click v env p))).
    destruct (eventButton_click_store v env p st _ Hs Hev) as (E1 & E2 & _).
    destruct (IH (snd (eventButton_click v env p)) st (evs ++ [captured env])) as [A B].
    + exact E2.
    + rewrite E1, map_app. reflexivity.
    + rewrite <- app_assoc in A. auto.
Qed.

Lemma captured_ids (evs : list event) (envs : list capture) :
  map id (evs ++ map captured envs) = map id evs ++ map date_now envs.
Proof. rewrite map_app, map_map. reflexivity. Qed.

Lemma increasing_NoDup (l : list Z) : StronglySorted Z.lt l -> NoDup l.
Proof.
  induction 1 as [|x l _ IH Hx]; constructor; [|exact IH].
  intros Hin. rewrite Forall_forall in Hx. specialize (Hx x Hin). lia.
Qed.

End CaptureFacts.
Import CaptureFacts.

(** C7, as the script has it. After any run of clicks the stored records
    are the earlier ones followed by one record per click whose id is the
    clock reading of that click; when those readings, after the ids
    already stored, are strictly increasing, the ids are pairwise distinct
    and increase in creation order.  A deletion leaves in the list
    exactly the stored records that the filter keeps, each as it was; it
    returns normally when the storage area accepts its write, and ends on
    the QuotaExceededError of that write, the storage as before, when the
    area refuses it. *)
Theorem capture_ids_follow_clock
    (v : variant) (p : page) (st : nat) (evs : list event) (envs : list capture) :
  stream p = Some st -> events p = JArr (map to_json evs) ->
  let p' := snd (clicks v envs p) in
  let all := evs ++ map captured envs in
  events p' = JArr (map to_json all) /\
  map id all = map id evs ++ map date_now envs /\
  (StronglySorted Z.lt (map id evs ++ map date_now envs) ->
   NoDup (map id all) /\ StronglySorted Z.lt (map id all)) /\
  (forall h el,
     elements p' !! h = Some el ->
     let kept := List.filter (kept_by (eventId_of el)) all in
     events (snd (deleteHistoryItem h p')) = JArr (map to_json kept) /\
     (accepts (localStorage p') LOCAL_STORAGE_KEY (stringify (JArr (map to_json kept)))
        = true ->
      exists p'', deleteHistoryItem h p' = (Ret tt, p'') /\
        events p'' = JArr (map to_json kept)) /\
     (accepts (localStorage p') LOCAL_STORAGE_KEY (stringify (JArr (map to_json kept)))
        = false ->
      exists p'', deleteHistoryItem h p' = (Throw QuotaExceededError, p'') /\
        events p'' = JArr (map to_json kept) /\ localStorage p'' = localStorage p')).
Proof.
  intros Hs Hev p' all.
  destruct (clicks_events v envs p st evs Hs Hev) as [E _]. fold p' all in E.
  split; [exact E |]. split; [apply captured_ids |]. split.
  - intros Hsorted. unfold all. rewrite captured_ids.
    split; [now apply increasing_NoDup | exact Hsorted].
  - intros h el Hel kept.
    pose proof (array_filter_kept (eventId_of el) all) as Hf. fold kept in Hf.
    split.
    + destruct (accepts (localStorage p') LOCAL_STORAGE_KEY
                  (stringify (JArr (map to_json kept)))) eqn:Ha.
      * now rewrite (deleteHistoryItem_ok p' h el _ _ Hel E Hf Ha).
      * now rewrite (deleteHistoryItem_refused p' h el _ _ Hel E Hf Ha).
    + split; intros Ha; eexists.
      * split; [exact (deleteHistoryItem_ok p' h el _ _ Hel E Hf Ha) | reflexivity].
      * split; [exact (deleteHistoryItem_refused p' h el _ _ Hel E Hf Ha) |].
        split; reflexivity.
Qed.


(* ===================================================================== *)
(** * Instances at the example pages *)
(* ===================================================================== *)

Import Json Page Forms JsonFacts StorageFacts PageFacts ItemFacts StoreFacts ClickFacts EndFacts LoadFacts
  DragFacts Observe CaptureFacts Examples.

(** The released drag of [dragging_page]: the first record is gone from the
    list, and from every later reload. *)
Lemma commit_persists_witness :
  exists p',
    drag_end Touch 0 0 dragging_page = (Ret true, p') /\
    events p' = JArr [to_json (captured (env_at 1700000000500))] /\
    forall fired v now,
      exists q, reload v now (snd (fire_all fired p')) = (Ret tt, q) /\
                events q = JArr [to_json (captured (env_at 1700000000500))].
Proof.
  destruct (commit_persists_before_removal Touch dragging_page 0 0
              dragged_item dragged_swipe
              [captured (env_at 1700000000000); captured (env_at 1700000000500)]
              1700000000000)
    as (_ & C & _);
    [vm_compute; reflexivity | reflexivity | reflexivity
    | vm_compute; reflexivity | vm_compute; reflexivity |].
  destruct C as (p' & E & A & _ & _ & _ & _ & R); [vm_compute; reflexivity |].
  exists p'. split; [exact E |]. split; [exact A | exact R].
Defined.

(** On [dragging_crowded_page] the list holds three records and the
    storage area the first of them only.  The release commits, the first
    record leaves the list, and the write of the two others is refused:
    no removal is scheduled, and a reload brings the deleted record back. *)
Lemma refused_commit_counterexample :
  events dragging_crowded_page
    = JArr [to_json first_event; to_json second_event; to_json third_event] /\
  (currentTranslate <$> (snd <$> closure_at dragging_crowded_page 0 0)) = Some (-120) /\
  fst (drag_end Touch 0 0 dragging_crowded_page) = Throw QuotaExceededError /\
  events (snd (drag_end Touch 0 0 dragging_crowded_page))
    = JArr [to_json second_event; to_json third_event] /\
  timers (snd (drag_end Touch 0 0 dragging_crowded_page)) = timers dragging_crowded_page /\
  events (snd (reload Swipeable "12:00:00" (snd (drag_end Touch 0 0 dragging_crowded_page))))
    = JArr [to_json first_event].
Proof. vm_compute. auto 10. Qed.

(** Deleting again the item whose record [released_page] no longer holds. *)
Lemma delete_idempotent_witness :
  exists p',
    deleteHistoryItem 0 released_page = (Ret tt, p') /\
    events p' = events released_page /\
    localStorage p' = localStorage released_page.
Proof.
  eapply (proj2 (delete_idempotent released_page 0));
    [vm_compute; reflexivity | vm_compute; reflexivity | | vm_compute; reflexivity].
  vm_compute. repeat constructor.
Defined.



(** A mouse drag from 200 over 150, 80 and 260: the move to 80 puts the
    class on before the release commits. *)
Lemma commit_needs_affordance_witness :
  exists ys zs,
    [150; 80; 260] = ys ++ zs /\
    (exists p1 el1 s1,
       (drag_start Mouse 0 0 200 ;; drag_moves Mouse 0 0 ys) one_event_page
         = (Ret tt, p1) /\
       closure_at p1 0 0 = Some (el1, s1) /\
       currentTranslate s1 < -100 /\ delete_ready el1 = true) /\
    match last ys with Some x => x - 200 < -100 | None => False end.
Proof.
  destruct (commit_needs_affordance Mouse one_event_page 0 0 resting_item new_swipe
              200 [150; 80; 260])
    as (ys & zs & E & _ & P & L);
    [vm_compute; reflexivity | vm_compute; discriminate | vm_compute; discriminate |].
  exists ys, zs. split; [exact E |]. split; [exact P |].
  destruct (last ys); [exact L | vm_compute in L; discriminate].
Defined.

(** A touch drag from 200 over 210, 320 and 200. *)
Lemma rightward_drag_witness :
  (exists p1 el1 s1,
     (drag_start Touch 0 0 200 ;; drag_moves Touch 0 0 [210; 320]) one_event_page
       = (Ret tt, p1) /\
     closure_at p1 0 0 = Some (el1, s1) /\
     currentTranslate s1 = 0 /\ delete_ready el1 = false) /\
  exists p' el' s',
    drag Touch 0 0 200 [210; 320; 200] one_event_page = (Ret false, p') /\
    events p' = events one_event_page /\
    localStorage p' = localStorage one_event_page /\
    closure_at p' 0 0 = Some (el', s') /\ currentTranslate s' = 0 /\
    delete_ready el' = false.
Proof.
  destruct (rightward_drag_is_clamped Touch one_event_page 0 0 resting_item
              new_swipe 200 [210; 320; 200]
              ltac:(vm_compute; reflexivity)
              ltac:(repeat constructor; discriminate))
    as (Hprefix & Hrevert & _).
  split.
  - destruct (Hprefix [210; 320] [200] eq_refl) as (p1 & el1 & s1 & E1 & C1 & A1 & B1 & _).
    exists p1, el1, s1. auto.
  - destruct Hrevert as (p' & el' & s' & E & A & B & C & D & F & _);
      [vm_compute; discriminate |].
    exists p', el', s'. auto 10.
Defined.

(** The item of [released_page] was swiped away a moment ago and is still
    there, its recognizer holding the offset -120.  A second drag on it
    whose moves are all right of the origin shows the item with that
    offset's class still on, and commits. *)
Lemma rightward_commit_counterexample :
  Forall (fun x => 200 <= x) [210; 320] /\
  (currentTranslate <$> (snd <$> closure_at
      (snd ((drag_start Touch 0 0 200 ;; drag_moves Touch 0 0 [210; 320]) released_page))
      0 0)) = Some (-120) /\
  (delete_ready <$> (fst <$> closure_at
      (snd ((drag_start Touch 0 0 200 ;; drag_moves Touch 0 0 [210; 320]) released_page))
      0 0)) = Some true /\
  fst (drag Touch 0 0 200 [210; 320] released_page) = Ret true /\
  timers (snd (drag Touch 0 0 200 [210; 320] released_page))
    = timers released_page ++ [(300, RemoveItem 0)].
Proof.
  split; [repeat constructor; discriminate |]. vm_compute. auto.
Qed.

(** A second drag-start at 150 in the session of [dragging_page], whose
    origin was 200: the origin becomes 150, and a following move to 100
    is measured as -50 where it would have been -100. *)
Lemma second_start_counterexample :
  (startX <$> (snd <$> closure_at dragging_page 0 0)) = Some (Some 200) /\
  (isDragging <$> (snd <$> closure_at dragging_page 0 0)) = Some true /\
  (startX <$> (snd <$> closure_at (snd (handleTouchStart 0 0 150 dragging_page)) 0 0))
    = Some (Some 150) /\
  (startX <$> (snd <$> closure_at (snd (handleMouseDown 0 0 150 dragging_page)) 0 0))
    = Some (Some 150) /\
  (currentTranslate <$> (snd <$> closure_at
      (snd ((handleTouchStart 0 0 150 ;; handleTouchMove 0 0 100) dragging_page)) 0 0))
    = Some (-50) /\
  (currentTranslate <$> (snd <$> closure_at
      (snd (handleTouchMove 0 0 100 dragging_page)) 0 0))
    = Some (-100).
Proof. vm_compute. auto 10. Qed.

(** The same second drag-start, through the general statement. *)
Lemma second_start_witness :
  exists p' el' s',
    drag_start Touch 0 0 150 dragging_page = (Ret tt, p') /\
    closure_at p' 0 0 = Some (el', s') /\
    startX s' = Some 150 /\ isDragging s' = true /\ currentTranslate s' = -120.
Proof.
  destruct (second_drag_start_resets_origin Touch dragging_page 0 0
              dragged_item dragged_swipe 150)
    as (p' & el' & s' & E & C & A1 & A2 & A3 & _);
    [vm_compute; reflexivity | reflexivity |].
  exists p', el', s'. auto.
Defined.

(** Two clicks within the same millisecond: two records, one id. *)
Lemma same_clock_counterexample :
  events (snd (clicks Swipeable [env_at 1700000000000; env_at 1700000000000] ready_page))
  = JArr [to_json (captured (env_at 1700000000000));
          to_json (captured (env_at 1700000000000))] /\
  ~ NoDup (map id [captured (env_at 1700000000000); captured (env_at 1700000000000)]).
Proof.
  split; [vm_compute; reflexivity |].
  intros H. inversion H as [|x l Hin _]; subst. apply Hin. left.
Qed.

(** Two more captures at later readings, then the deletion of the first
    item. *)
Lemma capture_ids_witness :
  events (snd (clicks Plain [env_at 1700000000500; env_at 1700000000900] one_event_page))
  = JArr (map to_json [captured (env_at 1700000000000);
                       captured (env_at 1700000000500);
                       captured (env_at 1700000000900)]) /\
  NoDup [1700000000000; 1700000000500; 1700000000900] /\
  exists p'',
    deleteHistoryItem 0
      (snd (clicks Plain [env_at 1700000000500; env_at 1700000000900] one_event_page))
    = (Ret tt, p'') /\
    events p'' = JArr (map to_json [captured (env_at 1700000000500);
                                    captured (env_at 1700000000900)]).
Proof.
  destruct (capture_ids_follow_clock Plain one_event_page 1%nat
              [captured (env_at 1700000000000)]
              [env_at 1700000000500; env_at 1700000000900])
    as (E & _ & S & D); [reflexivity | vm_compute; reflexivity |].
  split; [exact E |]. split.
  - apply S. repeat constructor; reflexivity.
  - edestruct (D 0%nat) as (_ & Hret & _); [vm_compute; reflexivity |].
    destruct Hret as (p'' & E2 & A2); [vm_compute; reflexivity |].
    exists p''. split; [exact E2 |]. rewrite A2. vm_compute. reflexivity.
Defined.



(** A click on the page whose camera was refused. *)
Lemma click_without_camera_witness :
  exists p', eventButton_click Swipeable (env_at 1700000000000) denied_page = (Ret tt, p') /\
    events p' = JArr [] /\ localStorage p' = ∅ /\ canvas p' = mkCanvas 0 0 0.
Proof.
  destruct (click_without_camera Swipeable (env_at 1700000000000) denied_page eq_refl)
    as (p' & E & A & B & _ & C & _).
  exists p'. auto.
Defined.

(** A mouse drag from 200 to 80 and back to 250 before the release: the
    only record is deleted. *)
Lemma commit_after_return_witness :
  fst (drag Mouse 0 0 200 ([] ++ 80 :: [250]) one_event_page) = Ret true /\
  events (snd (drag Mouse 0 0 200 ([] ++ 80 :: [250]) one_event_page)) = JArr [] /\
  localStorage (snd (drag Mouse 0 0 200 ([] ++ 80 :: [250]) one_event_page))
    !! LOCAL_STORAGE_KEY = Some "[]".
Proof.
  destruct (proj2 (commit_uses_last_leftward Mouse one_event_page 0 0 resting_item
                     new_swipe 200 ltac:(vm_compute; reflexivity))
              [] 80 [250] [first_event] 1700000000000)
    as (A & _ & B & _);
    [vm_compute; reflexivity | reflexivity | reflexivity
    | repeat constructor; discriminate |].
  destruct B as (B1 & B2 & _); [vm_compute; reflexivity |].
  split; [exact B1 |]. split; [exact A | exact B2].
Defined.

(** An item rendered by a reload has three recognizers, all fed the same
    events: a committed drag on it asks for the deletion three times, which
    leaves the store as one deletion does and three removal timers. *)
Lemma reloaded_item_swipe :
  map (fun e => length (recognizers e)) (elements reloaded_page) = [3; 3]%nat /\
  let q := snd ((touchstart 1 200 ;; touchmove 1 80 ;; touchmove 1 230 ;; touchend 1)
                  reloaded_page) in
  events q = JArr [to_json (captured (env_at 1700000000000))] /\
  mirrored q /\
  timers q = [(300, RemoveItem 1); (300, RemoveItem 1); (300, RemoveItem 1)].
Proof. vm_compute. auto. Qed.

(* ===================================================================== *)
(** * Further facts: rendering, hand-off, timers, items with several recognizers *)
(* ===================================================================== *)

(** ** Facts about the rendering of the history *)

Module RenderFacts.
Import Json Page Forms JsonFacts StorageFacts PageFacts ItemFacts StoreFacts ClickFacts EndFacts LoadFacts
  DragFacts Observe AffordanceFacts CaptureFacts.

Lemma forEach_render v evs : forall p,
  forEach (map to_json evs) (addEventToHistory v) p = (Ret tt, rendered v evs p).
Proof.
  induction evs as [|e evs IH]; intros p.
  - destruct p. unfold rendered, upd_historyContainer, upd_elements. cbn.
    now rewrite app_nil_r.
  - cbn [map forEach]. rewrite (bind_eq _ _ _ _ _ (addEventToHistory_render v e p)).
    rewrite IH. f_equal. destruct p as [st ev ls ss els hc nt tm dl op cv ct iv].
    unfold rendered, upd_historyContainer, upd_elements. cbn. rewrite length_app. cbn.
    rewrite <- !app_assoc. cbn. f_equal.
    replace (length els + 1)%nat with (S (length els)) by lia. reflexivity.
Qed.

Lemma forEach_swipeable hs : forall p,
  forEach hs makeHistoryItemSwipeable p
  = (Ret tt, upd_elements (fun l => fold_left (fun l h => alter add_recognizer h l) hs l) p).
Proof.
  induction hs as [|h hs IH]; intros p; cbn [forEach fold_left].
  - now destruct p.
  - erewrite bind_eq; [| reflexivity]. rewrite IH. now destruct p.
Qed.

Lemma fold_alter_all {A} (f : A -> A) (n : nat) : forall l l2 : list A,
  length l = n ->
  fold_left (fun l h => alter f h l) (rev (seq 0 n)) (l ++ l2) = map f l ++ l2.
Proof.
  induction n as [|n IH]; intros l l2 Hl.
  - destruct l; [reflexivity | discriminate].
  - destruct l as [|x l _] using rev_ind; [discriminate |].
    rewrite length_app in Hl. cbn in Hl.
    assert (n = length l) as -> by lia.
    rewrite seq_S, rev_app_distr. cbn [rev app fold_left Nat.add].
    rewrite <- app_assoc. cbn [app]. rewrite alter_middle.
    rewrite IH by lia. rewrite map_app, <- app_assoc. reflexivity.
Qed.

Lemma makeHistoryItemsSwipeable_all p :
  historyContainer p = rev (seq 0 (length (elements p))) ->
  makeHistoryItemsSwipeable p = (Ret tt, upd_elements (map add_recognizer) p).
Proof.
  intros H. unfold makeHistoryItemsSwipeable.
  rewrite (bind_eq _ _ p p (historyContainer p)) by reflexivity.
  rewrite forEach_swipeable, H. f_equal.
  destruct p as [st ev ls ss els hc nt tm dl op cv ct iv].
  unfold upd_elements. cbn. f_equal.
  rewrite <- (app_nil_r els) at 2. rewrite fold_alter_all by reflexivity.
  apply app_nil_r.
Qed.

Lemma reload_loaded v now p evs :
  localStorage p !! LOCAL_STORAGE_KEY = Some (stringify (JArr (map to_json evs))) ->
  reload v now p = (Ret tt, loaded v now evs (localStorage p) (sessionStorage p)).
Proof.
  intros H. unfold reload, DOMContentLoaded, updateCurrentTime.
  erewrite bind_eq; [| reflexivity].
  set (p0 := upd_currentTime _ _).
  assert (L : loadEvents v p0
              = (Ret tt, match v with
                         | Swipeable => upd_elements (map add_recognizer)
                         | Plain => fun q => q
                         end (rendered v evs (upd_events (fun _ => JArr (map to_json evs)) p0)))).
  { unfold loadEvents, localStorage_getItem.
    rewrite (bind_eq _ _ p0 p0 (localStorage p !! LOCAL_STORAGE_KEY)) by reflexivity.
    rewrite H. destruct (stringify_array_nonempty (map to_json evs)) as (c0 & t & Ht).
    assert (Hm : forall (A : Type) (a b : A),
              match stringify (JArr (map to_json evs)) with
              | EmptyString => a
              | String _ _ => b
              end = b) by (intros; now rewrite Ht).
    rewrite Hm, parse_stringify_records.
    erewrite bind_eq; [| erewrite bind_eq; [apply forEach_render | reflexivity]].
    destruct v; [|reflexivity].
    apply makeHistoryItemsSwipeable_all. cbn. now rewrite length_map, app_nil_r. }
  rewrite (bind_eq _ _ _ _ _ L).
  erewrite bind_eq; [| reflexivity].
  destruct v.
  - rewrite makeHistoryItemsSwipeable_all.
    + f_equal. unfold loaded, rendered, upd_elements, upd_historyContainer. cbn.
      rewrite app_nil_r. f_equal.
      rewrite !map_map. reflexivity.
    + cbn. now rewrite !length_map, app_nil_r.
  - unfold mret, M_ret. f_equal.
    unfold loaded, rendered, upd_elements, upd_historyContainer. cbn.
    now rewrite app_nil_r.
Qed.

Lemma lookup_all {A} (l : list A) :
  map (fun h => l !! h) (seq 0 (length l)) = map Some l.
Proof.
  induction l as [|x l IH] using rev_ind; [reflexivity |].
  rewrite length_app. cbn [length]. rewrite Nat.add_1_r, seq_S, !map_app. cbn.
  rewrite lookup_app_r, Nat.sub_diag by lia. cbn. f_equal.
  rewrite <- IH. apply map_ext_in. intros h Hh. apply in_seq in Hh.
  apply lookup_app_l. lia.
Qed.

Lemma shown_loaded v now evs ls ss :
  shown (loaded v now evs ls ss)
  = map (fun e => Some (item_for v e (loaded_recognizers v))) (rev evs).
Proof.
  unfold shown, loaded. cbn.
  rewrite <- (length_map (fun e => item_for v e (loaded_recognizers v)) evs).
  rewrite map_rev, lookup_all, <- !map_rev, map_map. reflexivity.
Qed.

End RenderFacts.

(** ** Facts about the hand-off to the dashboard *)

Module HandoffFacts.
Import Json Page Forms JsonFacts StorageFacts PageFacts ItemFacts StoreFacts ClickFacts EndFacts LoadFacts
  DragFacts Observe AffordanceFacts CaptureFacts RenderFacts.

(** The swipeable hand-off up to its write. *)
Lemma sendToDashboard_write e p :
  sendToDashboard Swipeable (to_json e) p
  = (localStorage_setItem (dashboard_key (id e)) (stringify (dashboard_json e)) ;;
     modify (upd_opened (fun w => w ++ [dashboard_url Swipeable (id e)]))) p.
Proof. reflexivity. Qed.

Lemma sendToDashboard_swipeable e p :
  accepts (localStorage p) (dashboard_key (id e)) (stringify (dashboard_json e)) = true ->
  sendToDashboard Swipeable (to_json e) p
  = (Ret tt, upd_opened (fun w => w ++ [dashboard_url Swipeable (id e)])
               (upd_localStorage <[dashboard_key (id e) := stringify (dashboard_json e)]> p)).
Proof.
  intros Ha. rewrite sendToDashboard_write.
  now rewrite (bind_eq _ _ _ _ _ (localStorage_setItem_accepted p _ _ Ha)).
Qed.

Lemma sendToDashboard_swipeable_refused e p :
  accepts (localStorage p) (dashboard_key (id e)) (stringify (dashboard_json e)) = false ->
  sendToDashboard Swipeable (to_json e) p = (Throw QuotaExceededError, p).
Proof.
  intros Ha. rewrite sendToDashboard_write.
  now rewrite (bind_throw _ _ _ _ _ (localStorage_setItem_refused p _ _ Ha)).
Qed.

Lemma parse_value_dashboard (m : nat) (e : event) (rest : string) :
  parse_value (6 + m) (stringify (dashboard_json e) +:+ rest) = POk (dashboard_json e) rest.
Proof.
  unfold dashboard_json.
  cbn -[quote Number_toString parse_value].
  repeat (rewrite append_assoc; cbn [String.append]).
  change (6 + m)%nat with (S (S (S (S (S (S m)))))).
  rewrite parse_value_object.
  do 4 member_step.
  reflexivity.
Qed.

Lemma parse_stringify_dashboard (e : event) :
  JSON_parse (stringify (dashboard_json e)) = Parsed (dashboard_json e).
Proof.
  unfold JSON_parse.
  assert (Hlen : (5 <= String.length (stringify (dashboard_json e)))%nat).
  { unfold dashboard_json. cbn -[Number_toString escape].
    repeat (rewrite length_append; cbn [String.length]). lia. }
  destruct (String.length (stringify (dashboard_json e))) as [|L] eqn:HL; [lia |].
  assert (Hm : exists m, S (S L) = (6 + m)%nat) by (exists (L - 4)%nat; lia).
  destruct Hm as [m ->].
  rewrite <- (append_nil_r (stringify (dashboard_json e))).
  rewrite parse_value_dashboard. reflexivity.
Qed.

Lemma uint_print_inj (a b : uint) :
  NilEmpty.string_of_uint a = NilEmpty.string_of_uint b -> a = b.
Proof.
  intros H.
  assert (S : forall u, scan_uint (NilEmpty.string_of_uint u) = (u, EmptyString)).
  { intros u. rewrite <- (append_nil_r (NilEmpty.string_of_uint u)) at 1.
    now apply scan_uint_print. }
  apply (f_equal scan_uint) in H. rewrite !S in H. congruence.
Qed.

(** Distinct integers have distinct decimal numerals. *)
Lemma decimal_inj (a b : Z) : decimal a = decimal b -> a = b.
Proof.
  intros H.
  destruct (decimal_shape a) as (ua & Hna & _ & Hva & Ea).
  destruct (decimal_shape b) as (ub & Hnb & _ & Hvb & Eb).
  rewrite Ea, Eb in H.
  destruct (print_head ua EmptyString Hna) as (ca & ra & Pa & Ca & _).
  destruct (print_head ub EmptyString Hnb) as (cb & rb & Pb & Cb & _).
  rewrite append_nil_r in Pa, Pb.
  destruct (a <? 0) eqn:Sa, (b <? 0) eqn:Sb.
  - injection H as H. apply uint_print_inj in H. subst ub.
    apply Z.ltb_lt in Sa, Sb. lia.
  - rewrite Pb in H. injection H as <- _. discriminate Cb.
  - rewrite Pa in H. injection H as -> _. discriminate Ca.
  - apply uint_print_inj in H. subst ub.
    apply Z.ltb_ge in Sa, Sb. lia.
Qed.

(** The plain hand-off up to its write, over a stored list of records and
    over an absent or empty entry. *)
Lemma sendToDashboard_plain_write e ds p :
  sessionStorage p !! DASHBOARD_EVENTS = Some (stringify (JArr (map to_json ds))) ->
  sendToDashboard Plain (to_json e) p
  = sessionStorage_setItem DASHBOARD_EVENTS
      (stringify (JArr (map to_json (ds ++ [e])))) p.
Proof.
  intros H. unfold sendToDashboard, sessionStorage_getItem.
  unfold DASHBOARD_EVENTS in H.
  erewrite bind_eq; [| unfold gets; rewrite H; reflexivity].
  destruct (stringify_array_nonempty (map to_json ds)) as (c0 & t & Ht).
  assert (Hm : match stringify (JArr (map to_json ds)) with
               | EmptyString => "[]"
               | String _ _ => stringify (JArr (map to_json ds))
               end = stringify (JArr (map to_json ds))) by now rewrite Ht.
  rewrite Hm, parse_stringify_records, map_app. reflexivity.
Qed.

Lemma sendToDashboard_plain_records e ds p :
  sessionStorage p !! DASHBOARD_EVENTS = Some (stringify (JArr (map to_json ds))) ->
  accepts (sessionStorage p) DASHBOARD_EVENTS
    (stringify (JArr (map to_json (ds ++ [e])))) = true ->
  sendToDashboard Plain (to_json e) p
  = (Ret tt, upd_sessionStorage
               <[DASHBOARD_EVENTS := stringify (JArr (map to_json (ds ++ [e])))]> p).
Proof.
  intros H Ha. rewrite (sendToDashboard_plain_write e ds p H).
  now apply sessionStorage_setItem_accepted.
Qed.

Lemma sendToDashboard_plain_refused e ds p :
  sessionStorage p !! DASHBOARD_EVENTS = Some (stringify (JArr (map to_json ds))) ->
  accepts (sessionStorage p) DASHBOARD_EVENTS
    (stringify (JArr (map to_json (ds ++ [e])))) = false ->
  sendToDashboard Plain (to_json e) p = (Throw QuotaExceededError, p).
Proof.
  intros H Ha. rewrite (sendToDashboard_plain_write e ds p H).
  now apply sessionStorage_setItem_refused.
Qed.

Lemma sendToDashboard_plain_absent_write e p :
  sessionStorage p !! DASHBOARD_EVENTS = None \/
  sessionStorage p !! DASHBOARD_EVENTS = Some EmptyString ->
  sendToDashboard Plain (to_json e) p
  = sessionStorage_setItem DASHBOARD_EVENTS (stringify (JArr (map to_json [e]))) p.
Proof.
  intros H. unfold sendToDashboard, sessionStorage_getItem.
  unfold DASHBOARD_EVENTS in H.
  erewrite bind_eq; [| unfold gets; reflexivity].
  destruct H as [-> | ->]; reflexivity.
Qed.

Lemma sendToDashboard_plain_malformed (ev : json) c t p :
  sessionStorage p !! DASHBOARD_EVENTS = Some (String c t) ->
  JSON_parse (String c t) = SyntaxErr ->
  sendToDashboard Plain ev p = (Throw SyntaxError, p).
Proof.
  intros H Hp. unfold sendToDashboard, sessionStorage_getItem.
  unfold DASHBOARD_EVENTS in H.
  erewrite bind_eq; [| unfold gets; rewrite H; reflexivity].
  cbv beta iota zeta. now rewrite Hp.
Qed.

End HandoffFacts.

(** ** Facts about the click handler *)

Module RecordFacts.
Import Json Page Forms JsonFacts StorageFacts PageFacts ItemFacts StoreFacts ClickFacts EndFacts LoadFacts
  DragFacts Observe AffordanceFacts CaptureFacts RenderFacts HandoffFacts.

Lemma click_recorded v env p st l :
  stream p = Some st -> events p = JArr l ->
  accepts (localStorage p) LOCAL_STORAGE_KEY
    (stringify (JArr (l ++ [to_json (captured env)]))) = true ->
  eventButton_click v env p
  = (sendToDashboard v (to_json (captured env)) ;;
     showNotification "Event reported successfully" false) (recorded v env l p).
Proof.
  intros Hs Hev Ha. rewrite (click_snapshot v env p st Hs).
  erewrite bind_eq; [| apply saveEvent_ok with (l := l); [exact Hev | exact Ha]].
  erewrite bind_eq; [| apply (addEventToHistory_render v (captured env))].
  reflexivity.
Qed.

Lemma click_save_refused v env p st l :
  stream p = Some st -> events p = JArr l ->
  accepts (localStorage p) LOCAL_STORAGE_KEY
    (stringify (JArr (l ++ [to_json (captured env)]))) = false ->
  eventButton_click v env p = (Throw QuotaExceededError, unsaved env l p).
Proof.
  intros Hs Hev Ha. rewrite (click_snapshot v env p st Hs).
  erewrite bind_throw; [reflexivity |].
  apply saveEvent_refused with (l := l); [exact Hev | exact Ha].
Qed.

Lemma click_swipeable env p st l :
  stream p = Some st -> events p = JArr l ->
  accepts (localStorage p) LOCAL_STORAGE_KEY
    (stringify (JArr (l ++ [to_json (captured env)]))) = true ->
  accepts (<[LOCAL_STORAGE_KEY := stringify (JArr (l ++ [to_json (captured env)]))]>
             (localStorage p))
    (dashboard_key (date_now env)) (stringify (dashboard_json (captured env))) = true ->
  eventButton_click Swipeable env p
  = (Ret tt,
     upd_timers (fun t => t ++ [(3000, HideNotification)])
       (upd_notification (fun _ => mkNotice "Event reported successfully" false true)
         (upd_opened (fun w => w ++ [dashboard_url Swipeable (date_now env)])
           (upd_localStorage
              <[dashboard_key (date_now env) := stringify (dashboard_json (captured env))]>
              (recorded Swipeable env l p))))).
Proof.
  intros Hs Hev Ha Hb. rewrite (click_recorded _ _ _ _ _ Hs Hev Ha).
  erewrite bind_eq; [| apply sendToDashboard_swipeable; exact Hb]. reflexivity.
Qed.

Lemma click_handoff_refused env p st l :
  stream p = Some st -> events p = JArr l ->
  accepts (localStorage p) LOCAL_STORAGE_KEY
    (stringify (JArr (l ++ [to_json (captured env)]))) = true ->
  accepts (<[LOCAL_STORAGE_KEY := stringify (JArr (l ++ [to_json (captured env)]))]>
             (localStorage p))
    (dashboard_key (date_now env)) (stringify (dashboard_json (captured env))) = false ->
  eventButton_click Swipeable env p
  = (Throw QuotaExceededError, recorded Swipeable env l p).
Proof.
  intros Hs Hev Ha Hb. rewrite (click_recorded _ _ _ _ _ Hs Hev Ha).
  erewrite bind_throw; [reflexivity |].
  apply sendToDashboard_swipeable_refused. exact Hb.
Qed.

(** A click of the swipeable variant that returns had both its writes
    accepted. *)
Lemma click_returned env p st l :
  stream p = Some st -> events p = JArr l ->
  fst (eventButton_click Swipeable env p) = Ret tt ->
  accepts (localStorage p) LOCAL_STORAGE_KEY
    (stringify (JArr (l ++ [to_json (captured env)]))) = true /\
  accepts (<[LOCAL_STORAGE_KEY := stringify (JArr (l ++ [to_json (captured env)]))]>
             (localStorage p))
    (dashboard_key (date_now env)) (stringify (dashboard_json (captured env))) = true.
Proof.
  intros Hs Hev Hr.
  destruct (accepts (localStorage p) _ _) eqn:Ha.
  - split; [reflexivity |].
    destruct (accepts (<[_ := _]> (localStorage p)) _ _) eqn:Hb; [reflexivity |].
    rewrite (click_handoff_refused env p st l Hs Hev Ha Hb) in Hr. discriminate.
  - rewrite (click_save_refused Swipeable env p st l Hs Hev Ha) in Hr. discriminate.
Qed.


Lemma filter_fresh (n : Z) (evs : list event) (e : event) :
  Forall (fun e => id e <> n) evs -> id e = n ->
  List.filter (fun e => negb (id e =? n)) (evs ++ [e]) = evs.
Proof.
  intros H He. rewrite List.filter_app. cbn. rewrite He, Z.eqb_refl. cbn.
  rewrite app_nil_r. induction H as [|x l Hx _ IH]; [reflexivity |].
  cbn. apply Z.eqb_neq in Hx. rewrite Hx. cbn. now rewrite IH.
Qed.

Lemma click_refused v env p :
  stream p = None ->
  eventButton_click v env p = showNotification "Camera not available" true p.
Proof.
  intros Hs. unfold eventButton_click.
  now rewrite (bind_eq _ _ p p None) by (unfold gets; now rewrite Hs).
Qed.

Lemma replicate_snoc {A} (n : nat) (x : A) : x :: replicate n x = replicate n x ++ [x].
Proof. induction n as [|n IH]; cbn; [reflexivity | now rewrite <- IH]. Qed.

Lemma clicks_refused v envs : forall p,
  stream p = None ->
  let q := snd (clicks v envs p) in
  events q = events p /\ localStorage q = localStorage p /\
  sessionStorage q = sessionStorage p /\ elements q = elements p /\
  historyContainer q = historyContainer p /\ canvas q = canvas p /\
  opened q = opened p /\ stream q = None /\
  timers q = timers p ++ replicate (length envs) (3000, HideNotification) /\
  notification q = match envs with
                   | [] => notification p
                   | _ :: _ => mkNotice "Camera not available" true true
                   end.
Proof.
  induction envs as [|env envs IH]; intros p Hs.
  - cbn. rewrite app_nil_r. auto 12.
  - change (clicks v (env :: envs) p)
      with (clicks v envs (snd (eventButton_click v env p))).
    rewrite (click_refused v env p Hs).
    set (p1 := snd (showNotification "Camera not available" true p)).
    destruct (IH p1 Hs) as (A1 & A2 & A3 & A4 & A5 & A6 & A7 & A8 & A9 & A10).
    cbn zeta. rewrite A1, A2, A3, A4, A5, A6, A7, A8, A9, A10.
    subst p1. unfold showNotification, setTimeout, mbind, M_bind, modify. cbn.
    rewrite <- app_assoc. cbn [app].
    repeat split; try reflexivity. now destruct envs.
Qed.

Lemma click_not_array v env p st :
  stream p = Some st -> (forall l, events p <> JArr l) ->
  eventButton_click v env p
  = (Throw TypeError,
     upd_canvas (fun c => mkCanvas (videoWidth (shot env)) (videoHeight (shot env))
                                   (S (frames_drawn c))) p).
Proof.
  intros Hs Hna. unfold eventButton_click.
  rewrite (bind_eq _ _ p p (Some st)) by (unfold gets; now rewrite Hs).
  unfold takeSnapshot.
  erewrite bind_eq; [| unfold_m; reflexivity].
  unfold mbind at 1, M_bind at 1. rewrite saveEvent_throws; [reflexivity | exact Hna].
Qed.

Lemma array_filter_null (o : parsed_int) (l : list json) :
  In JNull l -> array_filter (other_id o) l = None.
Proof.
  induction l as [|x l IH]; intros H; [destruct H |].
  cbn [array_filter]. destruct H as [-> | H]; [reflexivity |].
  rewrite (IH H). now destruct (other_id o x).
Qed.

Lemma deleteHistoryItem_null p h el l :
  elements p !! h = Some el -> events p = JArr l -> In JNull l ->
  deleteHistoryItem h p = (Throw TypeError, p).
Proof.
  intros He Hev Hn.
  unfold deleteHistoryItem, element_at, mbind, M_bind, gets, modify, throw.
  rewrite He, Hev. fold (eventId_of el). now rewrite array_filter_null.
Qed.

End RecordFacts.

(** ** Facts about the timers *)

Module TimerFacts.
Import Json Page Forms JsonFacts StorageFacts PageFacts ItemFacts StoreFacts ClickFacts EndFacts LoadFacts
  DragFacts Observe AffordanceFacts CaptureFacts RenderFacts HandoffFacts RecordFacts.

Lemma delete_at_end {A} (l : list A) (x : A) (r : list A) :
  delete (length l) (l ++ x :: r) = l ++ r.
Proof. induction l as [|y l IH]; cbn; [reflexivity | now f_equal]. Qed.

Lemma fire_removal q t0 t1 h d :
  timers q = t0 ++ (d, RemoveItem h) :: t1 ->
  fire (length t0) q
  = (Ret tt,
     upd_timers (fun _ => t0 ++ t1 ++ [(3000, HideNotification)])
       (upd_notification (fun _ => mkNotice "Event deleted" false true)
         (upd_historyContainer (List.filter (fun x => negb (x =? h)%nat)) q))).
Proof.
  intros Ht. unfold fire.
  erewrite bind_eq; [| unfold gets; rewrite Ht; reflexivity].
  rewrite lookup_app_r, Nat.sub_diag by lia. cbn [lookup list_lookup].
  unfold run_callback, showNotification, setTimeout, mbind, M_bind, modify.
  destruct q. unfold upd_timers, upd_notification, upd_historyContainer. cbn in *.
  subst. now rewrite delete_at_end, <- app_assoc.
Qed.

Lemma filter_twice {A} (f : A -> bool) (l : list A) :
  List.filter f (List.filter f l) = List.filter f l.
Proof.
  induction l as [|x l IH]; [reflexivity |]. cbn. destruct (f x) eqn:E; cbn.
  - now rewrite E, IH.
  - exact IH.
Qed.

End TimerFacts.

(** ** Facts about a recognizer between and during its sessions *)

Module SessionFacts.
Import Json Page Forms JsonFacts StorageFacts PageFacts ItemFacts StoreFacts ClickFacts EndFacts LoadFacts
  DragFacts Observe AffordanceFacts CaptureFacts RenderFacts HandoffFacts RecordFacts TimerFacts.

Lemma filter_add_listener (x : nat * nat) (l : list (nat * nat)) :
  List.filter (fun y => negb (bool_decide (y = x))) (add_listener x l)
  = List.filter (fun y => negb (bool_decide (y = x))) l.
Proof.
  unfold add_listener. destruct (bool_decide (x ∈ l)); [reflexivity |].
  rewrite List.filter_app. cbn. rewrite bool_decide_eq_true_2 by reflexivity.
  cbn. apply app_nil_r.
Qed.

Lemma add_listener_twice (x : nat * nat) (l : list (nat * nat)) :
  add_listener x (add_listener x l) = add_listener x l.
Proof.
  unfold add_listener. destruct (bool_decide (x ∈ l)) eqn:E; [now rewrite E |].
  rewrite bool_decide_eq_true_2; [reflexivity |].
  apply elem_of_app. right. now apply list_elem_of_singleton.
Qed.

Lemma settle_listeners h c q :
  documentListeners (snd (settle h c q)) = documentListeners q.
Proof.
  unfold settle, vars, element_at, mbind, M_bind, mret, M_ret, throw.
  destruct (elements q !! h) as [e|]; [|reflexivity].
  destruct (recognizers e !! c) as [s|]; [|reflexivity].
  destruct (currentTranslate s <? -100); [|reflexivity].
  destruct (deleteHistoryItem_cases q h)
    as [(el & l & l' & _ & _ & _ & _ & E)
       | [(el & l & l' & _ & _ & _ & _ & E) | (e' & _ & E)]];
    rewrite E; reflexivity.
Qed.

Lemma slide_idle xs v s : isDragging s = false -> slide xs (v, s) = (v, s).
Proof.
  intros Hd. unfold slide. induction xs as [|x xs IH]; [reflexivity |].
  cbn [fold_left]. unfold track_step at 2. now rewrite Hd.
Qed.

Lemma idle_moves k p h c el s ys :
  closure_at p h c = Some (el, s) -> isDragging s = false ->
  drag_moves k h c ys p = (Ret tt, p).
Proof.
  intros H Hd.
  pose proof (drag_moves_put k p h c el s ys H (visual_of el) s) as E.
  rewrite (slide_idle _ _ _ Hd) in E. cbn [fst snd] in E.
  now rewrite (put_id _ _ _ _ _ H) in E.
Qed.

Lemma settle_idle q h c el0 s0 v s1 :
  closure_at q h c = Some (el0, s0) -> isDragging s1 = false ->
  exists el' s', closure_at (snd (settle h c (put h c v s1 q))) h c = Some (el', s') /\
                 isDragging s' = false.
Proof.
  intros Hq Hd.
  destruct (settle_cases q h c el0 s0 v s1 Hq) as [[_ E] | [_ E]]; rewrite E.
  - pose proof (delete_then_true (put h c v s1 q) h) as D.
    destruct ((deleteHistoryItem h ;; mret true) (put h c v s1 q)) as [[b|e] q'].
    + destruct D as (_ & l' & _ & ->). cbn [snd].
      rewrite (deleted_put _ _ _ _ _ _ _ _ Hq).
      eexists _, _. split; [apply (put_closure _ _ _ _ _ _ _ Hq) | exact Hd].
    + cbn [snd].
      assert (Hc : closure_at q' h c = closure_at (put h c v s1 q) h c)
        by (destruct D as [-> | [l' ->]]; reflexivity).
      rewrite Hc.
      eexists _, _. split; [apply (put_closure _ _ _ _ _ _ _ Hq) | exact Hd].
  - cbn [snd]. eexists _, _. split; [apply (put_closure _ _ _ _ _ _ _ Hq) |].
    exact Hd.
Qed.

(** A drag whose last leftward move went beyond the threshold, on an item
    that carries the id [n], when the storage area accepts the write. *)
Lemma drag_commits k p h c el s x0 xs d n evs :
  closure_at p h c = Some (el, s) ->
  last_leftward x0 xs None = Some d -> d < -100 ->
  dataset_id el = Some (decimal n) -> events p = JArr (map to_json evs) ->
  accepts (localStorage p) LOCAL_STORAGE_KEY
    (stringify (JArr (map to_json (List.filter (fun e => negb (id e =? n)) evs)))) = true ->
  exists q0,
    drag k h c x0 xs p
    = (Ret true,
       deleted h (map to_json (List.filter (fun e => negb (id e =? n)) evs)) q0) /\
    timers q0 = timers p /\ historyContainer q0 = historyContainer p.
Proof.
  intros H Hd Hlt Hid Hev Ha.
  destruct (drag_to_commit k p h c el s x0 xs d H Hd Hlt)
    as (q0 & el0 & E & Hel & Hid0 & Hev0 & Hls & Ht & Hc).
  rewrite Hid in Hid0. rewrite Hev in Hev0.
  exists q0. split; [| split; assumption].
  rewrite E. erewrite bind_eq; [reflexivity |].
  eapply deleteHistoryItem_ok; [exact Hel | exact Hev0 | | now rewrite Hls].
  now apply array_filter_records.
Qed.

End SessionFacts.

(** ** Facts about the events of an item, delivered to all its recognizers *)

Module DispatchFacts.
Import Json Page Forms JsonFacts StorageFacts PageFacts ItemFacts StoreFacts ClickFacts EndFacts LoadFacts
  DragFacts Observe AffordanceFacts CaptureFacts RenderFacts HandoffFacts RecordFacts
  TimerFacts SessionFacts.

Lemma put_all_lookup p h el0 v rs :
  elements p !! h = Some el0 ->
  elements (put_all h v rs p) !! h
  = Some (set_visual v (upd_recognizers (fun _ => rs) el0)).
Proof.
  intros He. unfold put_all. cbn. rewrite (alter_as_insert _ _ _ _ He).
  apply list_lookup_insert_eq. eapply lookup_lt_Some, He.
Qed.

Lemma put_all_closure p h el0 v rs c s :
  elements p !! h = Some el0 -> rs !! c = Some s ->
  closure_at (put_all h v rs p) h c
  = Some (set_visual v (upd_recognizers (fun _ => rs) el0), s).
Proof.
  intros He Hs. unfold closure_at. rewrite (put_all_lookup _ _ _ _ _ He). cbn.
  now rewrite Hs.
Qed.

Lemma put_put_all p h el0 v rs c v' s' :
  elements p !! h = Some el0 ->
  put h c v' s' (put_all h v rs p) = put_all h v' (<[c := s']> rs) p.
Proof.
  intros He. destruct p. unfold put, put_all, upd_elements. cbn in *. f_equal.
  rewrite (alter_as_insert _ _ _ _ He).
  rewrite (alter_insert_same _ _ _ _ _ He).
  now rewrite (alter_as_insert _ _ _ _ He).
Qed.

Lemma put_all_id p h el :
  elements p !! h = Some el ->
  put_all h (visual_of el) (recognizers el) p = p.
Proof.
  intros He. destruct p. unfold put_all, upd_elements. cbn in *. f_equal.
  rewrite (alter_as_insert _ _ _ _ He).
  rewrite list_insert_id; [reflexivity |]. rewrite He. f_equal. now destruct el.
Qed.

Lemma insert_replicate_next {A} (k m : nat) (a b : A) :
  <[k := a]> (replicate k a ++ replicate (S m) b) = replicate (S k) a ++ replicate m b.
Proof.
  induction k as [|k IH]; cbn; [reflexivity |]. f_equal. exact IH.
Qed.

Lemma lookup_replicate_next {A} (k m : nat) (a b : A) :
  (replicate k a ++ replicate (S m) b) !! k = Some b.
Proof. induction k as [|k IH]; cbn; [reflexivity | exact IH]. Qed.

Section Lockstep.
Context {A : Type} (hd : nat -> M A) (G : visual * swipe -> visual * swipe).
Context (h : nat) (B : nat -> page) (s : swipe).
Hypothesis step : forall c v rs,
  rs !! c = Some s ->
  snd (hd c (put_all h v rs (B c)))
  = put_all h (fst (G (v, s))) (<[c := snd (G (v, s))]> rs) (B (S c)).

Lemma lockstep (s' : swipe) (v' : visual) :
  G (v', s) = (v', s') ->
  forall m k vk, G (vk, s) = (v', s') ->
  snd (forEach (seq k m) (fun c => listener (hd c))
         (put_all h vk (replicate k s' ++ replicate m s) (B k)))
  = put_all h (match m with O => vk | S _ => v' end) (replicate (k + m) s') (B (k + m)).
Proof.
  intros Hst. induction m as [|m IH]; intros k vk Hk.
  - cbn. now rewrite app_nil_r, Nat.add_0_r.
  - cbn [seq forEach].
    change ((listener (hd k) ;; forEach (seq (S k) m) (fun c => listener (hd c)))
              (put_all h vk (replicate k s' ++ replicate (S m) s) (B k)))
      with (forEach (seq (S k) m) (fun c => listener (hd c))
              (snd (hd k (put_all h vk (replicate k s' ++ replicate (S m) s) (B k))))).
    rewrite (step k vk _) by apply lookup_replicate_next.
    rewrite Hk. cbn [fst snd]. rewrite insert_replicate_next.
    rewrite (IH (S k) v' Hst).
    replace (S k + m)%nat with (k + S m)%nat by lia. now destruct m.
Qed.

(** The dispatch of an event to the [S n] recognizers of an item that all
    hold [s]. *)
Lemma lockstep_all (n : nat) (v : visual) :
  G (fst (G (v, s)), s) = G (v, s) ->
  snd (forEach (seq 0 (S n)) (fun c => listener (hd c))
         (put_all h v (replicate (S n) s) (B 0)))
  = put_all h (fst (G (v, s))) (replicate (S n) (snd (G (v, s)))) (B (S n)).
Proof.
  intros Hst.
  pose proof (lockstep (snd (G (v, s))) (fst (G (v, s)))) as L.
  rewrite Hst in L. specialize (L (surjective_pairing _) (S n) 0%nat v (surjective_pairing _)).
  exact L.
Qed.

End Lockstep.

Lemma visual_of_set v el : visual_of (set_visual v el) = v.
Proof. now destruct v. Qed.

Lemma put_all_put_all p h v rs v' rs' el0 :
  elements p !! h = Some el0 ->
  put_all h v' rs' (put_all h v rs p) = put_all h v' rs' p.
Proof.
  intros He. destruct p. unfold put_all, upd_elements. cbn in *. f_equal.
  rewrite (alter_as_insert _ _ _ _ He).
  rewrite (alter_insert_same _ _ _ _ _ He).
  now rewrite (alter_as_insert _ _ _ _ He).
Qed.

Lemma put_all_self p h el0 v rs c s :
  elements p !! h = Some el0 -> rs !! c = Some s ->
  put h c v s (put_all h v rs p) = put_all h v rs p.
Proof.
  intros He Hs. rewrite (put_put_all _ _ _ _ _ _ _ _ He).
  now rewrite list_insert_id.
Qed.

Lemma closures_put_all p h el0 v rs :
  elements p !! h = Some el0 ->
  closures h (put_all h v rs p) = (Ret (seq 0 (length rs)), put_all h v rs p).
Proof.
  intros He. unfold closures, gets. now rewrite (put_all_lookup _ _ _ _ _ He).
Qed.

Lemma start_put_all k p h el0 v rs c s x :
  elements p !! h = Some el0 -> rs !! c = Some s ->
  drag_start k h c x (put_all h v rs p)
  = (Ret tt, put_all h (mkVisual (v_ready v) (v_transform v) (Some TransitionNone)
                                 (v_collapsed v))
               (<[c := mkSwipe (Some x) (moveX s) (currentTranslate s) true]> rs)
               (armed k h c p)).
Proof.
  intros He Hs.
  pose proof (put_all_closure _ _ _ v _ _ _ He Hs) as Hc.
  pose proof (drag_start_put k _ _ _ _ _ v s x Hc) as E.
  rewrite (put_all_self _ _ _ _ _ _ _ He Hs) in E. rewrite E. f_equal.
  replace (armed k h c (put_all h v rs p)) with (put_all h v rs (armed k h c p))
    by (destruct k; reflexivity).
  apply put_put_all with (el0 := el0). destruct k; exact He.
Qed.

Lemma move_put_all k p h el0 v rs c s x :
  elements p !! h = Some el0 -> rs !! c = Some s ->
  drag_move k h c x (put_all h v rs p)
  = (Ret tt, put_all h (fst (track_step x (v, s)))
               (<[c := snd (track_step x (v, s))]> rs) p).
Proof.
  intros He Hs.
  pose proof (put_all_closure _ _ _ v _ _ _ He Hs) as Hc.
  pose proof (drag_move_put k _ _ _ _ _ v s x Hc) as E.
  rewrite (put_all_self _ _ _ _ _ _ _ He Hs) in E. rewrite E. f_equal.
  now apply put_put_all with (el0 := el0).
Qed.

Lemma track_step_stable x v s :
  track_step x (fst (track_step x (v, s)), s) = track_step x (v, s).
Proof.
  unfold track_step. destruct (isDragging s); [|reflexivity].
  destruct (startX s) as [x0|]; [|reflexivity].
  destruct (x - x0 <? 0); reflexivity.
Qed.

Lemma snd_bind_ret {A} (m : M A) (p : page) : snd ((m ;; mret tt) p) = snd (m p).
Proof. unfold mbind, M_bind, mret, M_ret. now destruct (m p) as [[a|e] q]. Qed.

Lemma forEach_listener {A B} (f : A -> M B) (l : list A) : forall q,
  forEach l (fun c => listener (f c)) q
  = (Ret tt, snd (forEach l (fun c => listener (f c)) q)).
Proof.
  induction l as [|c l IH]; intros q; [reflexivity |].
  cbn [forEach]. unfold mbind, M_bind, listener at 1 3. apply IH.
Qed.

Lemma forEach_map {A B} (f : A -> B) (g : B -> M unit) (l : list A) (q : page) :
  forEach (map f l) g q = forEach l (fun a => g (f a)) q.
Proof.
  revert q. induction l as [|a l IH]; intros q; [reflexivity |].
  cbn [map forEach]. unfold mbind, M_bind.
  destruct (g (f a) q) as [[[]|e] q']; [apply IH | reflexivity].
Qed.

Lemma touchstart_ret h x q : touchstart h x q = (Ret tt, snd (touchstart h x q)).
Proof. unfold touchstart, mbind, M_bind, closures, gets. apply forEach_listener. Qed.

Lemma touchmove_ret h x q : touchmove h x q = (Ret tt, snd (touchmove h x q)).
Proof. unfold touchmove, mbind, M_bind, closures, gets. apply forEach_listener. Qed.

Lemma mousedown_ret h x q : mousedown h x q = (Ret tt, snd (mousedown h x q)).
Proof. unfold mousedown, mbind, M_bind, closures, gets. apply forEach_listener. Qed.

Lemma mousemove_ret x q : mousemove x q = (Ret tt, snd (mousemove x q)).
Proof. unfold mousemove, mbind, M_bind, gets. apply forEach_listener. Qed.

Lemma touchstart_put_all p h el0 v n s x :
  elements p !! h = Some el0 ->
  snd (touchstart h x (put_all h v (replicate (S n) s) p))
  = put_all h (mkVisual (v_ready v) (v_transform v) (Some TransitionNone) (v_collapsed v))
      (replicate (S n) (mkSwipe (Some x) (moveX s) (currentTranslate s) true)) p.
Proof.
  intros He. unfold touchstart.
  rewrite (bind_eq _ _ _ _ _ (closures_put_all _ _ _ _ _ He)), length_replicate.
  apply (lockstep_all (fun c => handleTouchStart h c x)
           (fun vs => (mkVisual (v_ready (fst vs)) (v_transform (fst vs))
                                (Some TransitionNone) (v_collapsed (fst vs)),
                       mkSwipe (Some x) (moveX (snd vs)) (currentTranslate (snd vs)) true))
           h (fun _ => p) s); [| reflexivity].
  intros c v0 rs Hs.
  now rewrite (start_put_all Touch _ _ _ _ _ _ _ x He Hs).
Qed.

Lemma touchmove_put_all p h el0 v n s x :
  elements p !! h = Some el0 ->
  snd (touchmove h x (put_all h v (replicate (S n) s) p))
  = put_all h (fst (track_step x (v, s)))
      (replicate (S n) (snd (track_step x (v, s)))) p.
Proof.
  intros He. unfold touchmove.
  rewrite (bind_eq _ _ _ _ _ (closures_put_all _ _ _ _ _ He)), length_replicate.
  apply (lockstep_all (fun c => handleTouchMove h c x) (track_step x)
           h (fun _ => p) s); [| apply track_step_stable].
  intros c v0 rs Hs.
  pose proof (move_put_all Touch _ _ _ v0 _ _ _ x He Hs) as E.
  cbn [drag_move] in E. rewrite <- snd_bind_ret. now rewrite E.
Qed.

Lemma forEach_touchmove p h el0 n xs : forall v s,
  elements p !! h = Some el0 ->
  forEach xs (touchmove h) (put_all h v (replicate (S n) s) p)
  = (Ret tt, put_all h (fst (slide xs (v, s))) (replicate (S n) (snd (slide xs (v, s)))) p).
Proof.
  induction xs as [|x xs IH]; intros v s He; [reflexivity |].
  cbn [forEach]. unfold slide. cbn [fold_left]. fold (slide xs (track_step x (v, s))).
  rewrite (bind_eq _ _ _ _ _ (touchmove_ret h x _)).
  rewrite (touchmove_put_all _ _ _ _ _ _ _ He).
  destruct (track_step x (v, s)) as [v1 s1]. cbn [fst snd]. now apply IH.
Qed.

Lemma upd_elements_put_all p h el0 v rs (f : element -> element) v' rs' :
  elements p !! h = Some el0 ->
  f (set_visual v (upd_recognizers (fun _ => rs) el0))
  = set_visual v' (upd_recognizers (fun _ => rs') el0) ->
  upd_elements (alter f h) (put_all h v rs p) = put_all h v' rs' p.
Proof.
  intros He Hf. destruct p. unfold put_all, upd_elements. cbn in *. f_equal.
  rewrite !(alter_as_insert _ _ _ _ He).
  rewrite (alter_insert_same _ _ _ _ _ He). now rewrite Hf.
Qed.

Lemma deleted_put_all p h el0 v rs l' :
  elements p !! h = Some el0 ->
  deleted h l' (put_all h v rs p)
  = put_all h (mkVisual (v_ready v) (Some TranslateOff) (v_transition v) true) rs
      (stored h l' p).
Proof.
  intros He. unfold deleted, stored.
  change (upd_localStorage ?f (upd_events ?g (put_all h ?v ?rs p)))
    with (put_all h v rs (upd_localStorage f (upd_events g p))).
  set (q := upd_localStorage _ _).
  assert (Hq : elements q !! h = Some el0) by exact He.
  rewrite (upd_elements_put_all q h el0 v rs (upd_collapsed (fun _ => true))
             (mkVisual (v_ready v) (v_transform v) (v_transition v) true) rs Hq eq_refl).
  rewrite (upd_elements_put_all q h el0
             (mkVisual (v_ready v) (v_transform v) (v_transition v) true) rs
             (upd_style_transform (fun _ => Some TranslateOff))
             (mkVisual (v_ready v) (Some TranslateOff) (v_transition v) true) rs Hq eq_refl).
  reflexivity.
Qed.

Lemma touchend_revert_step p h el0 v rs c s :
  elements p !! h = Some el0 -> rs !! c = Some s -> -100 <= currentTranslate s ->
  handleTouchEnd h c (put_all h v rs p)
  = (Ret false,
     put_all h (mkVisual false (Some TranslateZero) (Some TransformEase) (v_collapsed v))
       (<[c := mkSwipe (startX s) (moveX s) 0 false]> rs) p).
Proof.
  intros He Hs Hge.
  pose proof (put_all_closure _ _ _ v _ _ _ He Hs) as Hc.
  pose proof (handleTouchEnd_put _ _ _ _ _ v s Hc) as E.
  rewrite (put_all_self _ _ _ _ _ _ _ He Hs) in E. rewrite E.
  rewrite (settle_put _ _ _ _ _ _ _ Hc). cbn [currentTranslate upd_isDragging].
  apply Z.ltb_ge in Hge. rewrite Hge. f_equal.
  now apply put_put_all with (el0 := el0).
Qed.

Lemma touchend_commit_step p h el0 v rs c s l l' :
  elements p !! h = Some el0 -> rs !! c = Some s -> currentTranslate s < -100 ->
  events p = JArr l ->
  array_filter (other_id (eventId_of el0)) l = Some l' ->
  accepts (localStorage p) LOCAL_STORAGE_KEY (stringify (JArr l')) = true ->
  handleTouchEnd h c (put_all h v rs p)
  = (Ret true,
     put_all h (mkVisual (v_ready v) (Some TranslateOff) (Some TransformEase) true)
       (<[c := upd_isDragging (fun _ => false) s]> rs) (stored h l' p)).
Proof.
  intros He Hs Hlt Hev Hf Ha.
  pose proof (put_all_closure _ _ _ v _ _ _ He Hs) as Hc.
  pose proof (handleTouchEnd_put _ _ _ _ _ v s Hc) as E.
  rewrite (put_all_self _ _ _ _ _ _ _ He Hs) in E. rewrite E.
  rewrite (settle_put _ _ _ _ _ _ _ Hc). cbn [currentTranslate upd_isDragging].
  apply Z.ltb_lt in Hlt. rewrite Hlt.
  rewrite (put_put_all _ _ _ _ _ _ _ _ He).
  erewrite bind_eq.
  2:{ eapply deleteHistoryItem_ok;
        [apply (put_all_lookup _ _ _ _ _ He) | exact Hev | exact Hf | exact Ha]. }
  unfold mret, M_ret. f_equal. now apply deleted_put_all with (el0 := el0).
Qed.

Lemma iter_stored h l' p k :
  elements (Nat.iter k (stored h l') p) = elements p /\
  timers (Nat.iter k (stored h l') p) = timers p ++ replicate k (300, RemoveItem h) /\
  historyContainer (Nat.iter k (stored h l') p) = historyContainer p /\
  notification (Nat.iter k (stored h l') p) = notification p /\
  sessionStorage (Nat.iter k (stored h l') p) = sessionStorage p /\
  match k with
  | O => True
  | S _ => events (Nat.iter k (stored h l') p) = JArr l' /\
           localStorage (Nat.iter k (stored h l') p)
           = <[LOCAL_STORAGE_KEY := stringify (JArr l')]> (localStorage p)
  end.
Proof.
  induction k as [|k (A & B & C & D & E & F)].
  - cbn. rewrite app_nil_r. auto 10.
  - change (Nat.iter (S k) (stored h l') p) with (stored h l' (Nat.iter k (stored h l') p)).
    set (q := Nat.iter k (stored h l') p) in *.
    cbn -[stringify]. rewrite A, B, C, D, E.
    split; [reflexivity |]. split.
    { rewrite <- app_assoc. f_equal. symmetry. apply (replicate_snoc k). }
    do 3 (split; [reflexivity |]). split; [reflexivity |].
    destruct k; [reflexivity |]. destruct F as [_ ->]. apply storage_insert_insert.
Qed.

Lemma touchend_revert_put_all p h el0 v n s :
  elements p !! h = Some el0 -> -100 <= currentTranslate s ->
  snd (touchend h (put_all h v (replicate (S n) s) p))
  = put_all h (mkVisual false (Some TranslateZero) (Some TransformEase) (v_collapsed v))
      (replicate (S n) (mkSwipe (startX s) (moveX s) 0 false)) p.
Proof.
  intros He Hge. unfold touchend.
  rewrite (bind_eq _ _ _ _ _ (closures_put_all _ _ _ _ _ He)), length_replicate.
  apply (lockstep_all (fun c => handleTouchEnd h c)
           (fun vs => (mkVisual false (Some TranslateZero) (Some TransformEase)
                                (v_collapsed (fst vs)),
                       mkSwipe (startX (snd vs)) (moveX (snd vs)) 0 false))
           h (fun _ => p) s); [| reflexivity].
  intros c v0 rs Hs.
  now rewrite (touchend_revert_step _ _ _ _ _ _ _ He Hs Hge).
Qed.

Lemma touchend_commit_put_all p h el0 v n s i evs :
  elements p !! h = Some el0 -> currentTranslate s < -100 ->
  dataset_id el0 = Some (decimal i) -> events p = JArr (map to_json evs) ->
  let l' := map to_json (List.filter (fun e => negb (id e =? i)) evs) in
  accepts (localStorage p) LOCAL_STORAGE_KEY (stringify (JArr l')) = true ->
  snd (touchend h (put_all h v (replicate (S n) s) p))
  = put_all h (mkVisual (v_ready v) (Some TranslateOff) (Some TransformEase) true)
      (replicate (S n) (upd_isDragging (fun _ => false) s))
      (Nat.iter (S n) (stored h l') p).
Proof.
  intros He Hlt Hid Hev l' Ha. unfold touchend.
  rewrite (bind_eq _ _ _ _ _ (closures_put_all _ _ _ _ _ He)), length_replicate.
  apply (lockstep_all (fun c => handleTouchEnd h c)
           (fun vs => (mkVisual (v_ready (fst vs)) (Some TranslateOff) (Some TransformEase) true,
                       upd_isDragging (fun _ => false) (snd vs)))
           h (fun k => Nat.iter k (stored h l') p) s); [| reflexivity].
  intros c v0 rs Hs.
  destruct (iter_stored h l' p c) as (A & _ & _ & _ & _ & F).
  pose proof (array_filter_records el0 i evs Hid) as Hrec. fold l' in Hrec.
  assert (Hl : exists l, events (Nat.iter c (stored h l') p) = JArr l /\
                 array_filter (other_id (eventId_of el0)) l = Some l' /\
                 accepts (localStorage (Nat.iter c (stored h l') p)) LOCAL_STORAGE_KEY
                   (stringify (JArr l')) = true).
  { destruct c as [|c].
    - exists (map to_json evs). auto.
    - destruct F as [F G]. exists l'. split; [exact F |]. split.
      + now apply array_filter_idem with (l := map to_json evs).
      + rewrite G. apply accepts_again. }
  destruct Hl as (l & Hl & Hf & Hacc).
  rewrite (touchend_commit_step (Nat.iter c (stored h l') p) h el0 v0 rs c s l l');
    [reflexivity | now rewrite A | exact Hs | exact Hlt | exact Hl | exact Hf | exact Hacc].
Qed.

Lemma aligned_page p h el n s :
  elements p !! h = Some el -> recognizers el = replicate (S n) s ->
  p = put_all h (visual_of el) (replicate (S n) s) p.
Proof. intros He <-. symmetry. now apply put_all_id. Qed.

Lemma item_touch_session_put_all p h el0 v n s x0 xs :
  elements p !! h = Some el0 ->
  let v1 := mkVisual (v_ready v) (v_transform v) (Some TransitionNone) (v_collapsed v) in
  let s1 := mkSwipe (Some x0) (moveX s) (currentTranslate s) true in
  item_touch_session h x0 xs (put_all h v (replicate (S n) s) p)
  = (Ret tt, put_all h (fst (slide xs (v1, s1))) (replicate (S n) (snd (slide xs (v1, s1)))) p).
Proof.
  intros He v1 s1. unfold item_touch_session.
  rewrite (bind_eq _ _ _ _ _ (touchstart_ret h x0 _)).
  rewrite (touchstart_put_all _ _ _ _ _ _ _ He).
  now apply forEach_touchmove with (el0 := el0).
Qed.

Lemma listening_elements h k p : elements (listening h k p) = elements p.
Proof. induction k as [|k IH]; [reflexivity | exact IH]. Qed.

Lemma listening_listeners h k p :
  documentListeners p = [] ->
  documentListeners (listening h k p) = map (pair h) (seq 0 k).
Proof.
  intros Hp. induction k as [|k IH]; [exact Hp |].
  rewrite seq_S, map_app. cbn [listening documentListeners upd_documentListeners].
  rewrite IH. cbn [map Nat.add].
  unfold add_listener. rewrite bool_decide_eq_false_2; [reflexivity |].
  intros Hin. apply list_elem_of_In, in_map_iff in Hin as (c & [= <-] & Hc).
  apply in_seq in Hc. lia.
Qed.

Lemma mousedown_put_all p h el0 v n s x :
  elements p !! h = Some el0 ->
  snd (mousedown h x (put_all h v (replicate (S n) s) p))
  = put_all h (mkVisual (v_ready v) (v_transform v) (Some TransitionNone) (v_collapsed v))
      (replicate (S n) (mkSwipe (Some x) (moveX s) (currentTranslate s) true))
      (listening h (S n) p).
Proof.
  intros He. unfold mousedown.
  rewrite (bind_eq _ _ _ _ _ (closures_put_all _ _ _ _ _ He)), length_replicate.
  apply (lockstep_all (fun c => handleMouseDown h c x)
           (fun vs => (mkVisual (v_ready (fst vs)) (v_transform (fst vs))
                                (Some TransitionNone) (v_collapsed (fst vs)),
                       mkSwipe (Some x) (moveX (snd vs)) (currentTranslate (snd vs)) true))
           h (fun k => listening h k p) s); [| reflexivity].
  intros c v0 rs Hs.
  assert (Hc : elements (listening h c p) !! h = Some el0)
    by now rewrite listening_elements.
  now rewrite (start_put_all Mouse _ _ _ _ _ _ _ x Hc Hs).
Qed.

Lemma mousemove_put_all p h el0 v n s x :
  elements p !! h = Some el0 ->
  documentListeners p = map (pair h) (seq 0 (S n)) ->
  snd (mousemove x (put_all h v (replicate (S n) s) p))
  = put_all h (fst (track_step x (v, s)))
      (replicate (S n) (snd (track_step x (v, s)))) p.
Proof.
  intros He Hl. unfold mousemove.
  erewrite bind_eq; [| unfold gets; cbn [documentListeners put_all upd_elements];
                       rewrite Hl; reflexivity].
  rewrite forEach_map. cbn [fst snd].
  apply (lockstep_all (fun c => handleMouseMove h c x) (track_step x)
           h (fun _ => p) s); [| apply track_step_stable].
  intros c v0 rs Hs.
  pose proof (move_put_all Mouse _ _ _ v0 _ _ _ x He Hs) as E.
  cbn [drag_move] in E. now rewrite E.
Qed.

Lemma forEach_mousemove p h el0 n xs : forall v s,
  elements p !! h = Some el0 ->
  documentListeners p = map (pair h) (seq 0 (S n)) ->
  forEach xs mousemove (put_all h v (replicate (S n) s) p)
  = (Ret tt, put_all h (fst (slide xs (v, s))) (replicate (S n) (snd (slide xs (v, s)))) p).
Proof.
  induction xs as [|x xs IH]; intros v s He Hl; [reflexivity |].
  cbn [forEach]. unfold slide. cbn [fold_left]. fold (slide xs (track_step x (v, s))).
  rewrite (bind_eq _ _ _ _ _ (mousemove_ret x _)).
  rewrite (mousemove_put_all _ _ _ _ _ _ _ He Hl).
  destruct (track_step x (v, s)) as [v1 s1]. cbn [fst snd]. now apply IH.
Qed.

Lemma mouseup_revert_step p h el0 v rs c s :
  elements p !! h = Some el0 -> rs !! c = Some s ->
  isDragging s = true -> -100 <= currentTranslate s ->
  handleMouseUp h c (put_all h v rs p)
  = (Ret false,
     put_all h (mkVisual false (Some TranslateZero) (Some TransformEase) (v_collapsed v))
       (<[c := mkSwipe (startX s) (moveX s) 0 false]> rs)
       (upd_documentListeners (List.filter (fun l => negb (bool_decide (l = (h, c))))) p)).
Proof.
  intros He Hs Hd Hge.
  pose proof (put_all_closure _ _ _ v _ _ _ He Hs) as Hc.
  pose proof (drag_end_put Mouse _ _ _ _ _ v s Hc Hd) as E.
  rewrite (put_all_self _ _ _ _ _ _ _ He Hs) in E. cbn [drag_end] in E. rewrite E.
  assert (Hq : closure_at (released Mouse h c (put_all h v rs p)) h c
               = Some (set_visual v (upd_recognizers (fun _ => rs) el0), s)) by exact Hc.
  rewrite (settle_put _ _ _ _ _ _ _ Hq). cbn [currentTranslate upd_isDragging].
  apply Z.ltb_ge in Hge. rewrite Hge. f_equal.
  change (released Mouse h c (put_all h v rs p))
    with (put_all h v rs (released Mouse h c p)).
  now apply put_put_all with (el0 := el0).
Qed.

Lemma mouseup_commit_step p h el0 v rs c s l l' :
  elements p !! h = Some el0 -> rs !! c = Some s ->
  isDragging s = true -> currentTranslate s < -100 ->
  events p = JArr l ->
  array_filter (other_id (eventId_of el0)) l = Some l' ->
  accepts (localStorage p) LOCAL_STORAGE_KEY (stringify (JArr l')) = true ->
  handleMouseUp h c (put_all h v rs p)
  = (Ret true,
     put_all h (mkVisual (v_ready v) (Some TranslateOff) (Some TransformEase) true)
       (<[c := upd_isDragging (fun _ => false) s]> rs)
       (stored h l'
          (upd_documentListeners
             (List.filter (fun l => negb (bool_decide (l = (h, c))))) p))).
Proof.
  intros He Hs Hd Hlt Hev Hf Ha.
  pose proof (put_all_closure _ _ _ v _ _ _ He Hs) as Hc.
  pose proof (drag_end_put Mouse _ _ _ _ _ v s Hc Hd) as E.
  rewrite (put_all_self _ _ _ _ _ _ _ He Hs) in E. cbn [drag_end] in E. rewrite E.
  assert (Hq : closure_at (released Mouse h c (put_all h v rs p)) h c
               = Some (set_visual v (upd_recognizers (fun _ => rs) el0), s)) by exact Hc.
  rewrite (settle_put _ _ _ _ _ _ _ Hq). cbn [currentTranslate upd_isDragging].
  apply Z.ltb_lt in Hlt. rewrite Hlt.
  change (released Mouse h c (put_all h v rs p))
    with (put_all h v rs (released Mouse h c p)).
  assert (He' : elements (released Mouse h c p) !! h = Some el0) by exact He.
  rewrite (put_put_all _ _ _ _ _ _ _ _ He').
  erewrite bind_eq.
  2:{ eapply deleteHistoryItem_ok;
        [apply (put_all_lookup _ _ _ _ _ He') | exact Hev | exact Hf | exact Ha]. }
  unfold mret, M_ret. f_equal. now apply deleted_put_all with (el0 := el0).
Qed.

Lemma unlistening_fields h k p :
  elements (unlistening h k p) = elements p /\ events (unlistening h k p) = events p /\
  localStorage (unlistening h k p) = localStorage p /\
  timers (unlistening h k p) = timers p.
Proof. induction k as [|k IH]; [auto | exact IH]. Qed.

Lemma unlistening_listeners h k p l :
  In l (documentListeners (unlistening h k p)) ->
  In l (documentListeners p) /\ forall c, (c < k)%nat -> l <> (h, c).
Proof.
  induction k as [|k IH]; cbn [unlistening].
  - intros H. split; [exact H | intros c Hc; lia].
  - cbn. intros H. apply filter_In in H as [H Hne]. destruct (IH H) as [A B].
    split; [exact A |]. intros c Hc.
    destruct (decide (c = k)) as [-> | Hck].
    + intros ->. now rewrite bool_decide_eq_true_2 in Hne.
    + apply B. lia.
Qed.

Lemma unlistening_stored_fields h l' k p :
  elements (unlistening_stored h l' k p) = elements p /\
  timers (unlistening_stored h l' k p) = timers p ++ replicate k (300, RemoveItem h) /\
  match k with
  | O => True
  | S _ => events (unlistening_stored h l' k p) = JArr l' /\
           localStorage (unlistening_stored h l' k p)
           = <[LOCAL_STORAGE_KEY := stringify (JArr l')]> (localStorage p)
  end.
Proof.
  induction k as [|k (A & B & F)].
  - cbn. rewrite app_nil_r. auto.
  - cbn [unlistening_stored]. set (q := unlistening_stored h l' k p) in *.
    cbn -[stringify]. rewrite A, B. split; [reflexivity |]. split.
    { rewrite <- app_assoc. f_equal. symmetry. apply (replicate_snoc k). }
    split; [reflexivity |].
    destruct k; [reflexivity |]. destruct F as [_ ->]. apply storage_insert_insert.
Qed.

Lemma unlistening_stored_listeners h l' k p l :
  In l (documentListeners (unlistening_stored h l' k p)) ->
  In l (documentListeners p) /\ forall c, (c < k)%nat -> l <> (h, c).
Proof.
  induction k as [|k IH]; cbn [unlistening_stored].
  - intros H. split; [exact H | intros c Hc; lia].
  - cbn. intros H. apply filter_In in H as [H Hne]. destruct (IH H) as [A B].
    split; [exact A |]. intros c Hc.
    destruct (decide (c = k)) as [-> | Hck].
    + intros ->. now rewrite bool_decide_eq_true_2 in Hne.
    + apply B. lia.
Qed.

Lemma no_listener_left h k (ls : list (nat * nat)) :
  (forall l, In l ls -> In l (map (pair h) (seq 0 k)) /\
                        forall c, (c < k)%nat -> l <> (h, c)) ->
  ls = [].
Proof.
  intros H. destruct ls as [|l r]; [reflexivity |]. exfalso.
  destruct (H l (or_introl eq_refl)) as [A B].
  apply in_map_iff in A as (c & <- & Hc). apply in_seq in Hc.
  apply (B c); [lia | reflexivity].
Qed.

Lemma mouseup_revert_put_all p h el0 v n s :
  elements p !! h = Some el0 ->
  documentListeners p = map (pair h) (seq 0 (S n)) ->
  isDragging s = true -> -100 <= currentTranslate s ->
  snd (mouseup (put_all h v (replicate (S n) s) p))
  = put_all h (mkVisual false (Some TranslateZero) (Some TransformEase) (v_collapsed v))
      (replicate (S n) (mkSwipe (startX s) (moveX s) 0 false))
      (unlistening h (S n) p).
Proof.
  intros He Hl Hd Hge. unfold mouseup.
  erewrite bind_eq; [| unfold gets; cbn [documentListeners put_all upd_elements];
                       rewrite Hl; reflexivity].
  rewrite forEach_map. cbn [fst snd].
  apply (lockstep_all (fun c => handleMouseUp h c)
           (fun vs => (mkVisual false (Some TranslateZero) (Some TransformEase)
                                (v_collapsed (fst vs)),
                       mkSwipe (startX (snd vs)) (moveX (snd vs)) 0 false))
           h (fun k => unlistening h k p) s); [| reflexivity].
  intros c v0 rs Hs.
  destruct (unlistening_fields h c p) as (A & _).
  rewrite (mouseup_revert_step (unlistening h c p) h el0 v0 rs c s);
    [reflexivity | now rewrite A | exact Hs | exact Hd | exact Hge].
Qed.

Lemma mouseup_commit_put_all p h el0 v n s i evs :
  elements p !! h = Some el0 ->
  documentListeners p = map (pair h) (seq 0 (S n)) ->
  isDragging s = true -> currentTranslate s < -100 ->
  dataset_id el0 = Some (decimal i) -> events p = JArr (map to_json evs) ->
  let l' := map to_json (List.filter (fun e => negb (id e =? i)) evs) in
  accepts (localStorage p) LOCAL_STORAGE_KEY (stringify (JArr l')) = true ->
  snd (mouseup (put_all h v (replicate (S n) s) p))
  = put_all h (mkVisual (v_ready v) (Some TranslateOff) (Some TransformEase) true)
      (replicate (S n) (upd_isDragging (fun _ => false) s))
      (unlistening_stored h l' (S n) p).
Proof.
  intros He Hl Hd Hlt Hid Hev l' Ha. unfold mouseup.
  erewrite bind_eq; [| unfold gets; cbn [documentListeners put_all upd_elements];
                       rewrite Hl; reflexivity].
  rewrite forEach_map. cbn [fst snd].
  apply (lockstep_all (fun c => handleMouseUp h c)
           (fun vs => (mkVisual (v_ready (fst vs)) (Some TranslateOff) (Some TransformEase) true,
                       upd_isDragging (fun _ => false) (snd vs)))
           h (fun k => unlistening_stored h l' k p) s); [| reflexivity].
  intros c v0 rs Hs.
  destruct (unlistening_stored_fields h l' c p) as (A & _ & F).
  pose proof (array_filter_records el0 i evs Hid) as Hrec. fold l' in Hrec.
  assert (Hx : exists l, events (unlistening_stored h l' c p) = JArr l /\
                 array_filter (other_id (eventId_of el0)) l = Some l' /\
                 accepts (localStorage (unlistening_stored h l' c p)) LOCAL_STORAGE_KEY
                   (stringify (JArr l')) = true).
  { destruct c as [|c].
    - exists (map to_json evs). auto.
    - destruct F as [F G]. exists l'. split; [exact F |]. split.
      + now apply array_filter_idem with (l := map to_json evs).
      + rewrite G. apply accepts_again. }
  destruct Hx as (l & Hx & Hf & Hacc).
  rewrite (mouseup_commit_step (unlistening_stored h l' c p) h el0 v0 rs c s l l');
    [reflexivity | now rewrite A | exact Hs | exact Hd | exact Hlt
    | exact Hx | exact Hf | exact Hacc].
Qed.

End DispatchFacts.

Import Json Page Forms JsonFacts StorageFacts PageFacts ItemFacts StoreFacts ClickFacts EndFacts LoadFacts
  DragFacts Observe AffordanceFacts CaptureFacts RenderFacts HandoffFacts RecordFacts
  TimerFacts SessionFacts DispatchFacts Examples.

(* ===================================================================== *)
(** * Further properties *)
(* ===================================================================== *)

(** X1. A page load over a stored list of event records as the page writes
    them (the id an integer that a number holds exactly, the rendered
    fields free of markup) renders one history
    item per record and displays them newest first: the container lists
    the items in the reverse of the stored order.  Each item shows its
    record's image, time and camera name; in the swipeable variant it
    carries the record's id in decimal and three recognizers at rest (one
    from [addEventToHistory], one from each of the two calls of
    [makeHistoryItemsSwipeable]), in the plain variant no id and no
    recognizer. *)
Theorem loaded_history_newest_first (v : variant) (now : string) (p : page)
    (evs : list event) :
  localStorage p !! LOCAL_STORAGE_KEY = Some (stringify (JArr (map to_json evs))) ->
  exists q, reload v now p = (Ret tt, q) /\
    shown q = map (fun e => Some (item_for v e (loaded_recognizers v))) (rev evs) /\
    length (elements q) = length evs /\
    events q = JArr (map to_json evs).
Proof.
  intros H. eexists. split; [apply (reload_loaded v now p evs H) |].
  split; [apply shown_loaded |]. split; [apply length_map | reflexivity].
Qed.

(** X2. With the camera available, a click in the swipeable variant
    takes the snapshot (the canvas takes the size of the video frame and
    one more frame is drawn) and appends the captured record to the list;
    what follows depends on the storage area.  When it accepts the list
    and then the dashboard object, the click completes: the list is
    persisted, the record's item is created with the record's id and one
    recognizer and becomes the first child of the history container, the
    dashboard object is stored under the key of the record's id, the
    dashboard is opened with that id, the success notification is shown
    and its hide timer of 3000 ms is pending.  When it refuses the list,
    the click ends on the QuotaExceededError right after the append:
    nothing is persisted, rendered, opened or notified.  When it accepts
    the list and refuses the dashboard object, the click ends on the
    QuotaExceededError with the record persisted and rendered, and nothing
    opened or notified. *)
Theorem click_records_and_renders (env : capture) (p : page) (st : nat) (l : list json) :
  stream p = Some st -> events p = JArr l ->
  let text := stringify (JArr (l ++ [to_json (captured env)])) in
  let key := dashboard_key (date_now env) in
  let handoff := stringify (dashboard_json (captured env)) in
  let saved := <[LOCAL_STORAGE_KEY := text]> (localStorage p) in
  let drawn := mkCanvas (videoWidth (shot env)) (videoHeight (shot env))
                        (S (frames_drawn (canvas p))) in
  (accepts (localStorage p) LOCAL_STORAGE_KEY text = true ->
   accepts saved key handoff = true ->
   exists q, eventButton_click Swipeable env p = (Ret tt, q) /\
     events q = JArr (l ++ [to_json (captured env)]) /\
     localStorage q = <[key := handoff]> saved /\
     elements q = elements p ++ [item_for Swipeable (captured env) [new_swipe]] /\
     historyContainer q = length (elements p) :: historyContainer p /\
     canvas q = drawn /\
     opened q = opened p ++ [dashboard_url Swipeable (date_now env)] /\
     notification q = mkNotice "Event reported successfully" false true /\
     timers q = timers p ++ [(3000, HideNotification)] /\
     sessionStorage q = sessionStorage p /\ stream q = Some st) /\
  (accepts (localStorage p) LOCAL_STORAGE_KEY text = false ->
   exists q, eventButton_click Swipeable env p = (Throw QuotaExceededError, q) /\
     events q = JArr (l ++ [to_json (captured env)]) /\
     localStorage q = localStorage p /\
     elements q = elements p /\ historyContainer q = historyContainer p /\
     canvas q = drawn /\ opened q = opened p /\
     notification q = notification p /\ timers q = timers p) /\
  (accepts (localStorage p) LOCAL_STORAGE_KEY text = true ->
   accepts saved key handoff = false ->
   exists q, eventButton_click Swipeable env p = (Throw QuotaExceededError, q) /\
     events q = JArr (l ++ [to_json (captured env)]) /\
     localStorage q = saved /\
     elements q = elements p ++ [item_for Swipeable (captured env) [new_swipe]] /\
     historyContainer q = length (elements p) :: historyContainer p /\
     canvas q = drawn /\ opened q = opened p /\
     notification q = notification p /\ timers q = timers p).
Proof.
  intros Hs Hev text key handoff saved drawn. split; [| split].
  - intros Ha Hb. eexists. split; [apply (click_swipeable env p st l Hs Hev Ha Hb) |].
    cbn -[stringify]. repeat split. exact Hs.
  - intros Ha. eexists. split; [apply (click_save_refused Swipeable env p st l Hs Hev Ha) |].
    cbn -[stringify]. repeat split.
  - intros Ha Hb. eexists.
    split; [apply (click_handoff_refused env p st l Hs Hev Ha Hb) |].
    cbn -[stringify]. repeat split.
Qed.


(** X4. A capture that ran to its end and whose clock reading is not the id
    of a stored record, followed by a committed drag on the new item,
    leaves the list and the persisted collection as they were before the
    capture: the write of the deletion is accepted, since it makes the
    persisted collection shorter.  The item is still in the container until
    its removal timer fires; that timer takes it out and shows the
    deletion notification, and changes neither the list nor the storage. *)
Theorem capture_then_swipe_restores_store
    (k : pointer) (env : capture) (p : page) (st : nat) (evs : list event)
    (x0 d : Z) (xs : list Z) :
  stream p = Some st -> events p = JArr (map to_json evs) ->
  fst (eventButton_click Swipeable env p) = Ret tt ->
  Forall (fun e => id e <> date_now env) evs ->
  last_leftward x0 xs None = Some d -> d < -100 ->
  let h := length (elements p) in
  let p1 := snd (eventButton_click Swipeable env p) in
  exists p2,
    drag k h 0 x0 xs p1 = (Ret true, p2) /\
    events p2 = events p /\
    localStorage p2 !! LOCAL_STORAGE_KEY = Some (stringify (events p)) /\
    timers p2 = timers p ++ [(3000, HideNotification); (300, RemoveItem h)] /\
    historyContainer p2 = h :: historyContainer p /\
    let q := snd (fire (S (length (timers p))) p2) in
    historyContainer q
    = List.filter (fun x => negb (x =? h)%nat) (historyContainer p) /\
    notification q = mkNotice "Event deleted" false true /\
    events q = events p /\ localStorage q = localStorage p2.
Proof.
  intros Hs Hev Hret Hfresh Hd Hlt h p1.
  destruct (click_returned env p st _ Hs Hev Hret) as [Ha Hb].
  pose proof (click_swipeable env p st _ Hs Hev Ha Hb) as E1.
  set (q1 := upd_timers _ _) in E1.
  assert (A1 : events q1 = JArr (map to_json (evs ++ [captured env])))
    by (rewrite map_app; reflexivity).
  assert (A3 : closure_at q1 h 0
               = Some (item_for Swipeable (captured env) [new_swipe], new_swipe)).
  { unfold closure_at.
    change (elements q1)
      with (elements p ++ [item_for Swipeable (captured env) [new_swipe]]).
    unfold h. rewrite lookup_app_r, Nat.sub_diag by lia. reflexivity. }
  assert (A4 : historyContainer q1 = h :: historyContainer p) by reflexivity.
  assert (A8 : timers q1 = timers p ++ [(3000, HideNotification)]) by reflexivity.
  assert (A9 : mirrored q1).
  { unfold mirrored. rewrite A1, map_app.
    change (localStorage q1)
      with (<[dashboard_key (date_now env) := stringify (dashboard_json (captured env))]>
              (<[LOCAL_STORAGE_KEY
                 := stringify (JArr (map to_json evs ++ [to_json (captured env)]))]>
                 (localStorage p))).
    rewrite storage_lookup_insert_ne by apply dashboard_key_differs.
    apply storage_lookup_insert. }
  assert (Hp1 : p1 = q1) by (unfold p1; now rewrite E1). rewrite Hp1.
  clearbody q1. clear Hp1 p1 E1.
  destruct (drag_commits k q1 h 0 _ _ x0 xs d (date_now env) _ A3 Hd Hlt eq_refl A1)
    as (q0 & E & T0 & C0); [now apply mirrored_accepts_filter |].
  rewrite (filter_fresh (date_now env) evs (captured env) Hfresh eq_refl) in E.
  exists (deleted h (map to_json evs) q0). split; [exact E |].
  split; [now rewrite Hev |].
  split; [rewrite Hev; apply storage_lookup_insert |].
  assert (Ht : timers (deleted h (map to_json evs) q0)
               = (timers p ++ [(3000, HideNotification)]) ++ (300, RemoveItem h) :: []).
  { cbn. now rewrite T0, A8. }
  split; [rewrite Ht; now rewrite <- app_assoc |].
  assert (Hc : historyContainer (deleted h (map to_json evs) q0) = h :: historyContainer p).
  { cbn. now rewrite C0, A4. }
  split; [exact Hc |].
  replace (S (length (timers p))) with (length (timers p ++ [(3000, HideNotification)]))
    by (rewrite length_app; cbn; lia).
  rewrite (fire_removal _ _ _ _ _ Ht). cbn [snd].
  cbn [historyContainer notification events localStorage upd_timers upd_notification
       upd_historyContainer].
  rewrite Hc. cbn [List.filter]. rewrite Nat.eqb_refl. cbn [negb].
  repeat split. cbn. now rewrite Hev.
Qed.

(** X5. Once the camera request is refused, the stream stays unset and no
    run of clicks creates anything: the list, both storage areas, the
    history, the canvas and the opened windows are as before; every click
    only shows an error notification and leaves one more hide timer. *)
Theorem refused_camera_never_captures (v : variant) (envs : list capture) (p : page) :
  stream p = None ->
  let q := snd ((initCamera_rejected ;; clicks v envs) p) in
  stream q = None /\
  events q = events p /\ localStorage q = localStorage p /\
  sessionStorage q = sessionStorage p /\ elements q = elements p /\
  historyContainer q = historyContainer p /\ canvas q = canvas p /\
  opened q = opened p /\
  notice_error (notification q) = true /\
  timers q = timers p ++ replicate (S (length envs)) (3000, HideNotification).
Proof.
  intros Hs.
  change ((initCamera_rejected ;; clicks v envs) p)
    with (clicks v envs (snd (initCamera_rejected p))).
  set (p1 := snd (initCamera_rejected p)).
  destruct (clicks_refused v envs p1 Hs) as (A1 & A2 & A3 & A4 & A5 & A6 & A7 & A8 & A9 & A10).
  cbn zeta. rewrite A1, A2, A3, A4, A5, A6, A7, A8, A9, A10.
  subst p1. unfold initCamera_rejected, showNotification, setTimeout, mbind, M_bind, modify.
  cbn. rewrite <- app_assoc. cbn [app].
  repeat split; try reflexivity. now destruct envs.
Qed.

(** X6. [showNotification] never cancels an earlier hide timer: when a
    second notification is shown while the timer of the first is pending,
    that first timer hides the second notification, whose own timer is
    still pending. *)
Theorem earlier_timer_hides_later_notification
    (p : page) (m1 m2 : string) (e1 e2 : bool) :
  let q := snd ((showNotification m1 e1 ;; showNotification m2 e2) p) in
  let n := length (timers p) in
  notification q = mkNotice m2 e2 true /\
  timers q = timers p ++ [(3000, HideNotification); (3000, HideNotification)] /\
  notification (snd (fire n q)) = mkNotice m2 e2 false /\
  timers (snd (fire n q)) = timers p ++ [(3000, HideNotification)].
Proof.
  cbn zeta.
  change ((showNotification m1 e1 ;; showNotification m2 e2) p)
    with (Ret tt, upd_timers (fun t => t ++ [(3000, HideNotification)])
            (upd_notification (fun _ => mkNotice m2 e2 true)
              (upd_timers (fun t => t ++ [(3000, HideNotification)])
                (upd_notification (fun _ => mkNotice m1 e1 true) p)))).
  cbn [snd]. split; [reflexivity |].
  assert (T : forall l : list (Z * callback),
            (l ++ [(3000, HideNotification)]) ++ [(3000, HideNotification)]
            = l ++ [(3000, HideNotification); (3000, HideNotification)])
    by (intros; now rewrite <- app_assoc).
  split; [apply T |].
  unfold fire. erewrite bind_eq; [| reflexivity].
  cbn [timers upd_timers upd_notification].
  rewrite T, lookup_app_r, Nat.sub_diag by lia. cbn [lookup list_lookup].
  unfold run_callback, mbind, M_bind, modify. cbn.
  split; [reflexivity |]. rewrite T. apply delete_at_end.
Qed.

(** X7. The swipeable hand-off of an event record asks the storage area
    to take, under the key made of the record's id, text that parses back
    to the object with the record's id, timestamp, camera name and image
    (the formatted time is left out).  When the area accepts, the
    dashboard address is opened with that id; the persisted collection, the
    list and the history are untouched, and so is the hand-off entry of
    every other id.  When the area refuses, the hand-off throws the
    QuotaExceededError before it opens anything, and nothing has changed. *)
Theorem dashboard_handoff_by_id (e : event) (p : page) :
  let key := dashboard_key (id e) in
  let text := stringify (dashboard_json e) in
  JSON_parse text = Parsed (dashboard_json e) /\
  (accepts (localStorage p) key text = true ->
   exists q,
     sendToDashboard Swipeable (to_json e) p = (Ret tt, q) /\
     localStorage q = <[key := text]> (localStorage p) /\
     opened q = opened p ++ [dashboard_url Swipeable (id e)] /\
     localStorage q !! LOCAL_STORAGE_KEY = localStorage p !! LOCAL_STORAGE_KEY /\
     events q = events p /\ sessionStorage q = sessionStorage p /\
     elements q = elements p /\
     (forall n, n <> id e ->
        localStorage q !! dashboard_key n = localStorage p !! dashboard_key n)) /\
  (accepts (localStorage p) key text = false ->
   sendToDashboard Swipeable (to_json e) p = (Throw QuotaExceededError, p)).
Proof.
  cbn zeta. split; [apply parse_stringify_dashboard |]. split.
  - intros Ha. eexists. split; [apply (sendToDashboard_swipeable e p Ha) |].
    split; [reflexivity |]. split; [reflexivity |].
    split; [apply storage_lookup_insert_ne, dashboard_key_differs |].
    do 3 (split; [reflexivity |]).
    intros n Hn. apply storage_lookup_insert_ne. unfold dashboard_key. intros E.
    cbn in E. injection E as E. apply decimal_inj in E. congruence.
  - apply sendToDashboard_swipeable_refused.
Qed.

(** X8. The plain hand-off appends the record to the session's dashboard
    list: over an absent or empty entry it writes the list of that one
    record, over a stored list of records the list with the record at the
    end, and the written text parses back to it.  It opens no window and
    leaves [localStorage] alone.  When the session storage refuses the
    write, it throws the QuotaExceededError with nothing changed; an entry
    that is not JSON makes it throw a SyntaxError with nothing written. *)
Theorem dashboard_list_appends (e : event) (p : page) :
  (sessionStorage p !! DASHBOARD_EVENTS = None \/
   sessionStorage p !! DASHBOARD_EVENTS = Some EmptyString ->
   let text := stringify (JArr [to_json e]) in
   (accepts (sessionStorage p) DASHBOARD_EVENTS text = true ->
    exists q, sendToDashboard Plain (to_json e) p = (Ret tt, q) /\
      sessionStorage q = <[DASHBOARD_EVENTS := text]> (sessionStorage p) /\
      localStorage q = localStorage p /\ opened q = opened p) /\
   (accepts (sessionStorage p) DASHBOARD_EVENTS text = false ->
    sendToDashboard Plain (to_json e) p = (Throw QuotaExceededError, p))) /\
  (forall ds,
     sessionStorage p !! DASHBOARD_EVENTS = Some (stringify (JArr (map to_json ds))) ->
     let text := stringify (JArr (map to_json (ds ++ [e]))) in
     JSON_parse text = Parsed (JArr (map to_json (ds ++ [e]))) /\
     (accepts (sessionStorage p) DASHBOARD_EVENTS text = true ->
      exists q, sendToDashboard Plain (to_json e) p = (Ret tt, q) /\
        sessionStorage q = <[DASHBOARD_EVENTS := text]> (sessionStorage p) /\
        sessionStorage q !! DASHBOARD_EVENTS = Some text /\
        localStorage q = localStorage p /\ opened q = opened p) /\
     (accepts (sessionStorage p) DASHBOARD_EVENTS text = false ->
      sendToDashboard Plain (to_json e) p = (Throw QuotaExceededError, p))) /\
  (forall c t,
     sessionStorage p !! DASHBOARD_EVENTS = Some (String c t) ->
     JSON_parse (String c t) = SyntaxErr ->
     sendToDashboard Plain (to_json e) p = (Throw SyntaxError, p)).
Proof.
  split; [|split].
  - intros H text. rewrite (sendToDashboard_plain_absent_write e p H). fold text. split.
    + intros Ha. eexists.
      split; [apply (sessionStorage_setItem_accepted p _ _ Ha) |]. repeat split.
    + apply sessionStorage_setItem_refused.
  - intros ds H text. split; [apply parse_stringify_records |]. split.
    + intros Ha. eexists.
      split; [apply (sendToDashboard_plain_records e ds p H Ha) |].
      split; [reflexivity |]. split; [apply storage_lookup_insert |]. split; reflexivity.
    + apply (sendToDashboard_plain_refused e ds p H).
  - intros c t H Hp. now apply sendToDashboard_plain_malformed with (c := c) (t := t).
Qed.

(** X9. In the plain variant, when the session's dashboard entry is not
    JSON, a click with the camera available whose list the storage area
    accepts ends on a SyntaxError after the record was appended, persisted
    and rendered: the success notification is never shown and no timer is
    added. *)
Theorem broken_dashboard_list_hides_success
    (env : capture) (p : page) (st : nat) (l : list json) (c : ascii) (t : string) :
  stream p = Some st -> events p = JArr l ->
  accepts (localStorage p) LOCAL_STORAGE_KEY
    (stringify (JArr (l ++ [to_json (captured env)]))) = true ->
  sessionStorage p !! DASHBOARD_EVENTS = Some (String c t) ->
  JSON_parse (String c t) = SyntaxErr ->
  exists q, eventButton_click Plain env p = (Throw SyntaxError, q) /\
    events q = JArr (l ++ [to_json (captured env)]) /\
    localStorage q !! LOCAL_STORAGE_KEY
    = Some (stringify (JArr (l ++ [to_json (captured env)]))) /\
    elements q = elements p ++ [item_for Plain (captured env) []] /\
    historyContainer q = length (elements p) :: historyContainer p /\
    sessionStorage q = sessionStorage p /\
    notification q = notification p /\ timers q = timers p.
Proof.
  intros Hs Hev Ha Hss Hp. eexists. split.
  - rewrite (click_recorded _ _ _ _ _ Hs Hev Ha).
    unfold mbind, M_bind.
    rewrite (sendToDashboard_plain_malformed _ c t); [reflexivity | exact Hss | exact Hp].
  - cbn -[stringify]. repeat split. apply storage_lookup_insert.
Qed.

(** X10. In the plain variant every click with the camera available adds
    its record to the event list, and every click that runs to its end
    (both its writes accepted) adds its record to the session's dashboard
    list, in click order, and leaves one hide timer; a click that ends on a
    refused write adds nothing to the dashboard list and leaves no timer.
    No window is opened. *)
Theorem plain_clicks_fill_dashboard_list (envs : list capture) :
  forall (p : page) (st : nat) (l : list json) (ds : list event),
  stream p = Some st -> events p = JArr l ->
  sessionStorage p !! DASHBOARD_EVENTS = Some (stringify (JArr (map to_json ds))) ->
  let q := snd (clicks Plain envs p) in
  let done := completed Plain envs p in
  sessionStorage q !! DASHBOARD_EVENTS
  = Some (stringify (JArr (map to_json (ds ++ map captured done)))) /\
  events q = JArr (l ++ map to_json (map captured envs)) /\
  opened q = opened p /\
  timers q = timers p ++ replicate (length done) (3000, HideNotification).
Proof.
  induction envs as [|env envs IH]; intros p st l ds Hs Hev Hss.
  - cbn. rewrite !app_nil_r. auto.
  - change (clicks Plain (env :: envs) p)
      with (clicks Plain envs (snd (eventButton_click Plain env p))).
    cbn [completed].
    destruct (accepts (localStorage p) LOCAL_STORAGE_KEY
                (stringify (JArr (l ++ [to_json (captured env)])))) eqn:Ha.
    + destruct (accepts (sessionStorage p) DASHBOARD_EVENTS
                  (stringify (JArr (map to_json (ds ++ [captured env]))))) eqn:Hb.
      * assert (Hclick : eventButton_click Plain env p
                  = (Ret tt,
                     snd (showNotification "Event reported successfully" false
                            (upd_sessionStorage
                               <[DASHBOARD_EVENTS
                                 := stringify (JArr (map to_json (ds ++ [captured env])))]>
                               (recorded Plain env l p))))).
        { rewrite (click_recorded _ _ _ _ _ Hs Hev Ha).
          erewrite bind_eq;
            [| apply (sendToDashboard_plain_records _ ds); [exact Hss | exact Hb]].
          reflexivity. }
        rewrite Hclick. cbn [fst snd].
        match goal with |- context [clicks Plain envs ?m] => set (p1 := m) end.
        destruct (IH p1 st (l ++ [to_json (captured env)]) (ds ++ [captured env]))
          as (A1 & A2 & A3 & A4).
        { exact Hs. }
        { reflexivity. }
        { apply storage_lookup_insert. }
        cbn zeta. rewrite A1, A2, A3, A4. subst p1.
        unfold showNotification, setTimeout, mbind, M_bind, modify. cbn -[stringify].
        rewrite <- !app_assoc. cbn [app]. auto.
      * rewrite (click_recorded _ _ _ _ _ Hs Hev Ha).
        erewrite bind_throw;
          [| apply (sendToDashboard_plain_refused _ ds); [exact Hss | exact Hb]].
        cbn [fst snd].
        destruct (IH (recorded Plain env l p) st (l ++ [to_json (captured env)]) ds)
          as (A1 & A2 & A3 & A4).
        { exact Hs. }
        { reflexivity. }
        { exact Hss. }
        cbn zeta. rewrite A1, A2, A3, A4. cbn -[stringify].
        rewrite <- !app_assoc. cbn [app]. auto.
    + rewrite (click_save_refused Plain env p st l Hs Hev Ha). cbn [fst snd].
      destruct (IH (unsaved env l p) st (l ++ [to_json (captured env)]) ds)
        as (A1 & A2 & A3 & A4).
      { exact Hs. }
      { reflexivity. }
      { exact Hss. }
      cbn zeta. rewrite A1, A2, A3, A4. cbn -[stringify].
      rewrite <- !app_assoc. cbn [app]. auto.
Qed.

(** X11. When the in-memory list holds a [null] entry, no item can be
    deleted: [deleteHistoryItem] throws a TypeError while filtering, before
    it changed anything.  A drag-end in the commit branch then ends on that
    TypeError: the list, the persisted collection, the timers and the
    container are unchanged, the item is neither collapsed nor moved off,
    and the recognizer is left out of its session. *)
Theorem null_entry_blocks_deletion
    (k : pointer) (p : page) (h c : nat) (el : element) (s : swipe) (l : list json) :
  closure_at p h c = Some (el, s) -> events p = JArr l -> In JNull l ->
  deleteHistoryItem h p = (Throw TypeError, p) /\
  (isDragging s = true -> currentTranslate s < -100 ->
   exists p' el',
     drag_end k h c p = (Throw TypeError, p') /\
     events p' = events p /\ localStorage p' = localStorage p /\
     timers p' = timers p /\ historyContainer p' = historyContainer p /\
     closure_at p' h c = Some (el', upd_isDragging (fun _ => false) s) /\
     collapsed el' = collapsed el /\ style_transform el' = style_transform el /\
     delete_ready el' = delete_ready el).
Proof.
  intros H Hev Hn. pose proof (closure_at_inv _ _ _ _ _ H) as [He Hs]. split.
  - now apply deleteHistoryItem_null with (el := el) (l := l).
  - intros Hd Hlt.
    pose proof (drag_end_put k p h c el s (visual_of el) s H Hd) as E.
    rewrite (put_id _ _ _ _ _ H) in E.
    assert (Hq : closure_at (released k h c p) h c = Some (el, s))
      by now rewrite closure_released.
    rewrite (settle_put _ _ _ _ _ _ _ Hq) in E.
    cbn [currentTranslate upd_isDragging] in E.
    apply Z.ltb_lt in Hlt. rewrite Hlt in E.
    set (q0 := put h c _ _ _) in E.
    assert (Hdel : deleteHistoryItem h q0 = (Throw TypeError, q0)).
    { eapply deleteHistoryItem_null; [| | exact Hn].
      - subst q0. apply (put_lookup _ _ _ _ _ _ _ Hq).
      - subst q0. destruct k; exact Hev. }
    unfold mbind, M_bind in E. rewrite Hdel in E.
    eexists q0, _. split; [exact E |].
    split; [subst q0; destruct k; reflexivity |].
    split; [subst q0; destruct k; reflexivity |].
    split; [subst q0; destruct k; reflexivity |].
    split; [subst q0; destruct k; reflexivity |].
    split; [subst q0; apply (put_closure _ _ _ _ _ _ _ Hq) |].
    cbn. auto.
Qed.

(** X12. When the in-memory value is not an array (as after loading
    stored JSON that is not one), every click with the camera available
    throws a TypeError in [saveEvent]: the snapshot was drawn, but nothing
    is appended, persisted, rendered, handed to the dashboard or
    notified. *)
Theorem non_array_store_blocks_captures
    (v : variant) (envs : list capture) (p : page) (st : nat) :
  stream p = Some st -> (forall l, events p <> JArr l) ->
  (forall env, fst (eventButton_click v env p) = Throw TypeError) /\
  let q := snd (clicks v envs p) in
  events q = events p /\ localStorage q = localStorage p /\
  sessionStorage q = sessionStorage p /\ elements q = elements p /\
  historyContainer q = historyContainer p /\ opened q = opened p /\
  notification q = notification p /\ timers q = timers p /\
  frames_drawn (canvas q) = (length envs + frames_drawn (canvas p))%nat.
Proof.
  intros Hs Hna. split.
  - intros env. now rewrite (click_not_array v env p st).
  - revert p Hs Hna. induction envs as [|env envs IH]; intros p Hs Hna.
    + cbn. auto 10.
    + change (clicks v (env :: envs) p)
        with (clicks v envs (snd (eventButton_click v env p))).
      rewrite (click_not_array v env p st Hs Hna). cbn [snd].
      set (p1 := upd_canvas _ p).
      destruct (IH p1 Hs Hna) as (A1 & A2 & A3 & A4 & A5 & A6 & A7 & A8 & A9).
      cbn zeta. rewrite A1, A2, A3, A4, A5, A6, A7, A8, A9. subst p1. cbn.
      repeat split; try reflexivity. lia.
Qed.

(** X13. When the stored JSON is an array whose entries are event records
    as the page writes them (the id an integer that a number holds
    exactly, the rendered fields free of markup) up
    to a first [null], [loadEvents] assigns the whole array to the list,
    renders the records before the [null] and throws a TypeError there:
    the later entries are not rendered, and in the swipeable variant the
    items rendered so far keep the single recognizer that
    [addEventToHistory] gave them. *)
Theorem load_stops_at_null_entry
    (v : variant) (p : page) (c : ascii) (t : string)
    (evs : list event) (rest : list json) :
  localStorage p !! LOCAL_STORAGE_KEY = Some (String c t) ->
  JSON_parse (String c t) = Parsed (JArr (map to_json evs ++ JNull :: rest)) ->
  exists q, loadEvents v p = (Throw TypeError, q) /\
    events q = JArr (map to_json evs ++ JNull :: rest) /\
    elements q = elements p ++ map (fun e => item_for v e (own_recognizer v)) evs /\
    historyContainer q
    = rev (seq (length (elements p)) (length evs)) ++ historyContainer p /\
    localStorage q = localStorage p.
Proof.
  intros H Hp. unfold loadEvents, localStorage_getItem.
  rewrite (bind_eq _ _ p p (localStorage p !! LOCAL_STORAGE_KEY)) by reflexivity.
  rewrite H, Hp.
  assert (F : forall q, forEach (map to_json evs ++ JNull :: rest) (addEventToHistory v) q
                        = (Throw TypeError, rendered v evs q)).
  { clear. induction evs as [|e evs IH]; intros q.
    - cbn. unfold rendered, upd_historyContainer, upd_elements. destruct q. cbn.
      now rewrite app_nil_r.
    - cbn [map app forEach].
      rewrite (bind_eq _ _ _ _ _ (addEventToHistory_render v e q)).
      rewrite IH. f_equal. destruct q as [st ev ls ss els hc nt tm dl op cv ct iv].
      unfold rendered, upd_historyContainer, upd_elements. cbn. rewrite length_app. cbn.
      rewrite <- !app_assoc. cbn. f_equal.
      replace (length els + 1)%nat with (S (length els)) by lia. reflexivity. }
  eexists. split.
  - unfold mbind, M_bind, modify. rewrite F. reflexivity.
  - cbn. auto.
Qed.

(** X14. A drag whose last leftward move is not beyond -100 px (or that has
    no leftward move, on a recognizer whose offset is not beyond -100 px)
    reverts: the offset is 0 again, the class is off, the transform is
    [translateX(0)] under the 0.3 s transition, the session is over, and
    the list, the persisted collection, the timers and the container are
    unchanged. *)
Theorem shallow_drag_snaps_back
    (k : pointer) (p : page) (h c : nat) (el : element) (s : swipe)
    (x0 : Z) (xs : list Z) :
  closure_at p h c = Some (el, s) ->
  -100 <= default (currentTranslate s) (last_leftward x0 xs None) ->
  exists p' el',
    drag k h c x0 xs p = (Ret false, p') /\
    closure_at p' h c
    = Some (el', mkSwipe (Some x0) (match last xs with Some x => Some x | None => moveX s end)
                         0 false) /\
    delete_ready el' = false /\ style_transform el' = Some TranslateZero /\
    style_transition el' = Some TransformEase /\ collapsed el' = collapsed el /\
    events p' = events p /\ localStorage p' = localStorage p /\
    timers p' = timers p /\ historyContainer p' = historyContainer p.
Proof.
  intros H Hge.
  pose proof (drag_put k p h c el s x0 xs H) as E. cbn zeta in E.
  destruct (slide_started x0 xs el s) as (_ & B & C & _).
  pose proof (slide_moveX x0 xs (fst (started x0 el s)) (snd (started x0 el s))
                eq_refl eq_refl) as F.
  destruct (slide_session x0 xs (fst (started x0 el s)) (snd (started x0 el s))
              eq_refl eq_refl) as (_ & _ & _ & _ & _ & _ & G).
  cbn zeta in *.
  assert (Hq : closure_at (released k h c (armed k h c p)) h c = Some (el, s))
    by now rewrite closure_released, closure_armed.
  rewrite (settle_put _ _ _ _ _ _ _ Hq) in E.
  cbn [currentTranslate upd_isDragging] in E. rewrite C in E.
  apply Z.ltb_ge in Hge. rewrite Hge in E.
  unfold started in *. cbn [fst snd] in *.
  eexists _, _. split; [exact E |]. split.
  - rewrite (put_closure _ _ _ _ _ _ _ Hq). do 2 f_equal.
    unfold upd_currentTranslate. cbn. now rewrite B, F.
  - cbn. rewrite G. repeat split; destruct k; reflexivity.
Qed.

(** X15. During a session the item shows the last leftward move: its
    transform is that displacement and the delete-ready class is on exactly
    when the displacement is below -80 px, whatever moves at or right of
    the origin came after it; without a leftward move the transform and the
    class are as before the drag-start.  Transitions are off, and nothing
    is written to the list, the storage or the timers. *)
Theorem display_follows_last_leftward_move
    (k : pointer) (p : page) (h c : nat) (el : element) (s : swipe)
    (x0 : Z) (xs : list Z) :
  closure_at p h c = Some (el, s) ->
  exists p1 el1 s1,
    (drag_start k h c x0 ;; drag_moves k h c xs) p = (Ret tt, p1) /\
    closure_at p1 h c = Some (el1, s1) /\
    isDragging s1 = true /\ startX s1 = Some x0 /\
    style_transition el1 = Some TransitionNone /\
    match last_leftward x0 xs None with
    | Some d =>
        style_transform el1 = Some (TranslateX d) /\
        delete_ready el1 = (d <? -80) /\ currentTranslate s1 = d
    | None =>
        style_transform el1 = style_transform el /\
        delete_ready el1 = delete_ready el /\
        currentTranslate s1 = currentTranslate s
    end /\
    events p1 = events p /\ localStorage p1 = localStorage p /\
    timers p1 = timers p.
Proof.
  intros H.
  assert (Ha : closure_at (armed k h c p) h c = Some (el, s)) by now rewrite closure_armed.
  destruct (slide_started x0 xs el s) as (A & B & C & D & E).
  destruct (slide_session x0 xs (fst (started x0 el s)) (snd (started x0 el s))
              eq_refl eq_refl) as (_ & _ & _ & _ & _ & G & _).
  cbn zeta in *.
  eexists _, _, _. split; [apply (session_put k p h c el s x0 xs H) |].
  split; [apply (put_closure _ _ _ _ _ _ _ Ha) |].
  split; [exact A |]. split; [exact B |]. split; [exact G |].
  split.
  - cbn. destruct (last_leftward x0 xs None); cbn in C; auto.
  - destruct k; repeat split.
Qed.

(** X16. The mouse handlers of a recognizer are on the document once
    after a [mousedown], also after a second [mousedown] without a release
    in between, and never twice; after a whole mouse drag, in every
    outcome, they are off the document and the other listeners are as
    before. *)
Theorem mouse_drag_detaches_its_listeners
    (p : page) (h c : nat) (el : element) (s : swipe) (x0 x1 : Z) (xs : list Z) :
  closure_at p h c = Some (el, s) ->
  documentListeners (snd (handleMouseDown h c x0 p))
  = add_listener (h, c) (documentListeners p) /\
  documentListeners (snd ((handleMouseDown h c x0 ;; handleMouseDown h c x1) p))
  = add_listener (h, c) (documentListeners p) /\
  (h, c) ∈ add_listener (h, c) (documentListeners p) /\
  (NoDup (documentListeners p) -> NoDup (add_listener (h, c) (documentListeners p))) /\
  let p' := snd (drag Mouse h c x0 xs p) in
  documentListeners p'
  = List.filter (fun y => negb (bool_decide (y = (h, c)))) (documentListeners p) /\
  (h, c) ∉ documentListeners p'.
Proof.
  intros H.
  pose proof (handleMouseDown_put p h c el s (visual_of el) s x0 H) as E0.
  rewrite (put_id _ _ _ _ _ H) in E0.
  split; [now rewrite E0 |]. split.
  { rewrite (bind_eq _ _ _ _ _ E0).
    match goal with
    | |- context [handleMouseDown h c x1 (upd_documentListeners ?f (put h c ?v ?s' p))] =>
      change (upd_documentListeners f (put h c v s' p))
        with (put h c v s' (upd_documentListeners f p));
      rewrite (handleMouseDown_put (upd_documentListeners f p) h c el s v s' x1 H)
    end.
    cbn. apply add_listener_twice. }
  split.
  { unfold add_listener. destruct (bool_decide (_ ∈ _)) eqn:E.
    - now apply bool_decide_eq_true in E.
    - apply elem_of_app. right. now apply list_elem_of_singleton. }
  split.
  { intros Hn. unfold add_listener. destruct (bool_decide (_ ∈ _)) eqn:E; [exact Hn |].
    apply bool_decide_eq_false in E.
    apply NoDup_app. split; [exact Hn |]. split; [| apply NoDup_singleton].
    intros y Hy Hy'. apply list_elem_of_singleton in Hy'. now subst y. }
  cbn zeta. rewrite (drag_put Mouse p h c el s x0 xs H).
  rewrite settle_listeners. cbn [documentListeners put upd_elements released armed
    upd_documentListeners].
  rewrite filter_add_listener. split; [reflexivity |].
  intros Hin. apply list_elem_of_In, filter_In in Hin as [_ Hin].
  now rewrite bool_decide_eq_true_2 in Hin.
Qed.

(** X17. On an item driven by one recognizer, after any sequence of that
    recognizer's events (presses, moves and releases, touch or mouse, in any
    order) the delete-ready class is on whenever the offset is below
    -80 px, provided this held at the start, as it does on a new item. *)
Theorem affordance_kept_by_every_gesture
    (h c : nat) (gs : list gesture) (p : page) (el : element) (s : swipe) :
  closure_at p h c = Some (el, s) -> affordance_kept el s ->
  exists el' s',
    closure_at (snd (gestures h c gs p)) h c = Some (el', s') /\
    affordance_kept el' s'.
Proof.
  revert p el s. induction gs as [|g gs IH]; intros p el s H Hinv.
  - exists el, s. auto.
  - assert (Hstep : exists el1 s1,
              closure_at (snd (handle h c g p)) h c = Some (el1, s1) /\
              affordance_kept el1 s1).
    { destruct g as [k x | k x | k];
        destruct (affordance_invariant k p h c el s H Hinv) as (A & B & C);
        [apply (A x) | apply (B x) | apply C]. }
    destruct Hstep as (el1 & s1 & H1 & Hinv1).
    destruct (IH _ _ _ H1 Hinv1) as (el' & s' & H' & Hinv').
    exists el', s'. split; [| exact Hinv'].
    unfold gestures. cbn [forEach].
    replace ((handle h c g ;; forEach gs (handle h c)) p)
      with (forEach gs (handle h c) (snd (handle h c g p))); [exact H' |].
    destruct g; reflexivity.
Qed.

(** X18. After a drag has ended, in every outcome, the recognizer is out
    of its session: further touch or mouse moves and a mouse release change
    nothing on the page until the next drag-start. *)
Theorem moves_between_drags_are_ignored
    (k : pointer) (p : page) (h c : nat) (el : element) (s : swipe)
    (x0 : Z) (xs : list Z) :
  closure_at p h c = Some (el, s) ->
  let p' := snd (drag k h c x0 xs p) in
  (exists el' s', closure_at p' h c = Some (el', s') /\ isDragging s' = false) /\
  forall k' ys,
    drag_moves k' h c ys p' = (Ret tt, p') /\
    handleMouseUp h c p' = (Ret false, p').
Proof.
  intros H p'.
  assert (Hidle : exists el' s', closure_at p' h c = Some (el', s') /\ isDragging s' = false).
  { unfold p'. rewrite (drag_put k p h c el s x0 xs H).
    apply settle_idle with (el0 := el) (s0 := s); [| reflexivity].
    now rewrite closure_released, closure_armed. }
  split; [exact Hidle |].
  destruct Hidle as (el' & s' & H' & Hd'). intros k' ys. split.
  - now apply idle_moves with (el := el') (s := s').
  - now apply handleMouseUp_idle with (el := el') (s := s').
Qed.

(** X19. Unlike [handleMouseUp], [handleTouchEnd] does not test whether a
    session is active: on a recognizer out of session whose offset is still
    below -100 px (a second finger lifted after a committed drag), a
    [touchend] runs the deletion again and, the storage area accepting the
    write (as it does when the persisted collection is in step), schedules
    one more removal, where a [mouseup] does nothing. *)
Theorem touchend_has_no_session_guard
    (p : page) (h c : nat) (el : element) (s : swipe) (evs : list event) (n : Z) :
  closure_at p h c = Some (el, s) -> isDragging s = false ->
  currentTranslate s < -100 ->
  dataset_id el = Some (decimal n) ->
  events p = JArr (map to_json evs) ->
  let kept := List.filter (fun e => negb (id e =? n)) evs in
  (mirrored p ->
   accepts (localStorage p) LOCAL_STORAGE_KEY (stringify (JArr (map to_json kept))) = true) /\
  handleMouseUp h c p = (Ret false, p) /\
  (accepts (localStorage p) LOCAL_STORAGE_KEY (stringify (JArr (map to_json kept))) = true ->
   exists p' el',
     handleTouchEnd h c p = (Ret true, p') /\
     timers p' = timers p ++ [(300, RemoveItem h)] /\
     events p' = JArr (map to_json kept) /\
     closure_at p' h c = Some (el', s) /\ collapsed el' = true).
Proof.
  intros H Hd Hlt Hid Hev kept.
  split; [intros Hm; now apply mirrored_accepts_filter |].
  split; [now apply handleMouseUp_idle with (el := el) (s := s) |].
  intros Ha.
  pose proof (handleTouchEnd_put p h c el s (visual_of el) s H) as E.
  rewrite (put_id _ _ _ _ _ H) in E.
  rewrite (settle_put _ _ _ _ _ _ _ H) in E.
  cbn [currentTranslate upd_isDragging] in E.
  apply Z.ltb_lt in Hlt. rewrite Hlt in E.
  set (q0 := put h c _ _ _) in E.
  assert (Hdel : deleteHistoryItem h q0 = (Ret tt, deleted h (map to_json kept) q0)).
  { eapply deleteHistoryItem_ok.
    - subst q0. apply (put_lookup _ _ _ _ _ _ _ H).
    - exact Hev.
    - now apply array_filter_records.
    - exact Ha. }
  rewrite (bind_eq _ _ _ _ _ Hdel) in E.
  eexists _, _. split; [exact E |].
  split; [reflexivity |]. split; [reflexivity |].
  subst q0. rewrite (deleted_put _ _ _ _ _ _ _ _ H).
  split.
  - change (closure_at (upd_timers ?f (upd_localStorage ?g (upd_events ?e ?q))) h c)
      with (closure_at q h c).
    rewrite (put_closure _ _ _ _ _ _ _ H). do 2 f_equal.
    destruct s. cbn in *. now rewrite Hd.
  - reflexivity.
Qed.

(** X20. On an item whose recognizers all hold the same variables (as on
    every rendered item), a [touchstart], a [touchmove], and a [touchend]
    that reverts act on each recognizer as the one handler does on a single
    recognizer: the recognizers stay equal and the item shows what the one
    handler would have left. *)
Theorem touch_events_reach_every_recognizer
    (p : page) (h n : nat) (el : element) (s : swipe) (x : Z) :
  elements p !! h = Some el -> recognizers el = replicate (S n) s ->
  snd (touchstart h x p)
  = put_all h (fst (started x el s)) (replicate (S n) (snd (started x el s))) p /\
  snd (touchmove h x p)
  = put_all h (fst (track_step x (visual_of el, s)))
      (replicate (S n) (snd (track_step x (visual_of el, s)))) p /\
  (-100 <= currentTranslate s ->
   snd (touchend h p)
   = put_all h (mkVisual false (Some TranslateZero) (Some TransformEase) (collapsed el))
       (replicate (S n) (mkSwipe (startX s) (moveX s) 0 false)) p).
Proof.
  intros He Hr. pose proof (aligned_page p h el n s He Hr) as Hp.
  split; [|split].
  - rewrite Hp at 1. now rewrite (touchstart_put_all _ _ _ (visual_of el) _ _ _ He).
  - rewrite Hp at 1. now rewrite (touchmove_put_all _ _ _ (visual_of el) _ _ _ He).
  - intros Hge. rewrite Hp at 1.
    now rewrite (touchend_revert_put_all _ _ _ (visual_of el) _ _ He Hge).
Qed.

(** X21. On an item with [n+1] equal recognizers beyond the threshold,
    a [touchend] requests the deletion [n+1] times.  When the storage area
    accepts the first write (the later ones rewrite the same text), the
    list and the persisted collection are as after one deletion, and [n+1]
    removal timers are pending. *)
Theorem touchend_commits_once_per_recognizer
    (p : page) (h n : nat) (el : element) (s : swipe) (i : Z) (evs : list event) :
  elements p !! h = Some el -> recognizers el = replicate (S n) s ->
  currentTranslate s < -100 ->
  dataset_id el = Some (decimal i) -> events p = JArr (map to_json evs) ->
  let kept := List.filter (fun e => negb (id e =? i)) evs in
  accepts (localStorage p) LOCAL_STORAGE_KEY (stringify (JArr (map to_json kept))) = true ->
  let q := snd (touchend h p) in
  events q = JArr (map to_json kept) /\
  localStorage q
  = <[LOCAL_STORAGE_KEY := stringify (JArr (map to_json kept))]> (localStorage p) /\
  timers q = timers p ++ replicate (S n) (300, RemoveItem h) /\
  historyContainer q = historyContainer p /\
  exists el', elements q !! h = Some el' /\
    collapsed el' = true /\ style_transform el' = Some TranslateOff /\
    recognizers el' = replicate (S n) (upd_isDragging (fun _ => false) s).
Proof.
  intros He Hr Hlt Hid Hev kept Ha q.
  pose proof (aligned_page p h el n s He Hr) as Hp.
  assert (Hq : q = put_all h (mkVisual (delete_ready el) (Some TranslateOff)
                                       (Some TransformEase) true)
                     (replicate (S n) (upd_isDragging (fun _ => false) s))
                     (Nat.iter (S n) (stored h (map to_json kept)) p)).
  { unfold q. rewrite Hp at 1.
    now rewrite (touchend_commit_put_all _ _ _ (visual_of el) _ _ _ _ He Hlt Hid Hev Ha). }
  destruct (iter_stored h (map to_json kept) p (S n)) as (A & B & C & _ & _ & D & E).
  rewrite Hq. split; [exact D |]. split; [exact E |]. split; [exact B |].
  split; [exact C |].
  eexists. split; [apply put_all_lookup; rewrite A; exact He |]. cbn. auto.
Qed.

(** X22. A whole touch drag delivered to an item with [n+1] equal
    recognizers is decided by the last leftward move as a drag on one
    recognizer is: beyond -100 px, the storage area accepting the write,
    the record is removed from the list and the persisted collection, the
    item is collapsed and [n+1] removal timers are pending; otherwise the
    list, the storage and the timers are unchanged and the item is back at
    rest. *)
Theorem item_touch_drag_outcome
    (p : page) (h n : nat) (el : element) (s : swipe) (x0 : Z) (xs : list Z)
    (i : Z) (evs : list event) :
  elements p !! h = Some el -> recognizers el = replicate (S n) s ->
  dataset_id el = Some (decimal i) -> events p = JArr (map to_json evs) ->
  let q := snd (item_touch_drag h x0 xs p) in
  let d := default (currentTranslate s) (last_leftward x0 xs None) in
  let mv := match last xs with Some x => Some x | None => moveX s end in
  let kept := List.filter (fun e => negb (id e =? i)) evs in
  (d < -100 ->
   accepts (localStorage p) LOCAL_STORAGE_KEY (stringify (JArr (map to_json kept))) = true ->
   events q = JArr (map to_json kept) /\
   localStorage q
   = <[LOCAL_STORAGE_KEY := stringify (JArr (map to_json kept))]> (localStorage p) /\
   timers q = timers p ++ replicate (S n) (300, RemoveItem h) /\
   exists el', elements q !! h = Some el' /\ collapsed el' = true /\
     style_transform el' = Some TranslateOff /\
     recognizers el' = replicate (S n) (mkSwipe (Some x0) mv d false)) /\
  (-100 <= d ->
   events q = events p /\ localStorage q = localStorage p /\ timers q = timers p /\
   exists el', elements q !! h = Some el' /\ collapsed el' = collapsed el /\
     delete_ready el' = false /\ style_transform el' = Some TranslateZero /\
     recognizers el' = replicate (S n) (mkSwipe (Some x0) mv 0 false)).
Proof.
  intros He Hr Hid Hev q d mv kept.
  pose proof (aligned_page p h el n s He Hr) as Hp.
  pose proof (item_touch_session_put_all p h el (visual_of el) n s x0 xs He) as E.
  cbn zeta in E. rewrite <- Hp in E.
  change (mkVisual _ _ _ _, mkSwipe _ _ _ _) with (started x0 el s) in E.
  destruct (slide_started x0 xs el s) as (_ & B & C & _).
  pose proof (slide_moveX x0 xs (fst (started x0 el s)) (snd (started x0 el s))
                eq_refl eq_refl) as F.
  destruct (slide_session x0 xs (fst (started x0 el s)) (snd (started x0 el s))
              eq_refl eq_refl) as (_ & _ & _ & _ & _ & _ & G).
  cbn zeta in *. unfold started in B, C, F, G, E. cbn [fst snd] in B, C, F, G, E.
  set (vs := slide xs _) in *.
  assert (Hs : snd vs = mkSwipe (Some x0) mv d true).
  { destruct (snd vs) as [a b c0 e0] eqn:Es. cbn in *.
    destruct (slide_started x0 xs el s) as (A' & _). unfold started in A'.
    cbn zeta in A'. fold vs in A'. rewrite Es in A'. cbn in A'. subst. reflexivity. }
  assert (Hq : q = snd (touchend h (put_all h (fst vs) (replicate (S n) (snd vs)) p))).
  { unfold q, item_touch_drag. now rewrite (bind_eq _ _ _ _ _ E). }
  split.
  - intros Hlt Ha.
    rewrite (touchend_commit_put_all _ _ _ _ _ _ i evs He) in Hq;
      [| rewrite Hs; exact Hlt | exact Hid | exact Hev | exact Ha].
    fold kept in Hq.
    destruct (iter_stored h (map to_json kept) p (S n)) as (A1 & B1 & _ & _ & _ & D1 & E1).
    rewrite Hq. split; [exact D1 |]. split; [exact E1 |]. split; [exact B1 |].
    eexists. split; [apply put_all_lookup; rewrite A1; exact He |].
    cbn. rewrite Hs. auto.
  - intros Hge.
    rewrite (touchend_revert_put_all _ _ _ _ _ _ He) in Hq by (rewrite Hs; exact Hge).
    rewrite Hq. do 3 (split; [reflexivity |]).
    eexists. split; [apply put_all_lookup; exact He |].
    cbn. rewrite Hs, G. cbn. auto.
Qed.

(** X23. When the removal timers of an item fire, the first takes the
    item out of the container and every later one finds nothing to remove;
    each of them shows the deletion notification and leaves a hide timer.
    The list, the storage and the items are untouched. *)
Theorem removal_timers_remove_once (h k : nat) :
  forall (q : page) (t0 t1 : list (Z * callback)),
  timers q = t0 ++ replicate k (300, RemoveItem h) ++ t1 ->
  let q' := snd (fire_all (replicate k (length t0)) q) in
  timers q' = t0 ++ t1 ++ replicate k (3000, HideNotification) /\
  historyContainer q'
  = match k with
    | O => historyContainer q
    | S _ => List.filter (fun x => negb (x =? h)%nat) (historyContainer q)
    end /\
  notification q'
  = match k with
    | O => notification q
    | S _ => mkNotice "Event deleted" false true
    end /\
  events q' = events q /\ localStorage q' = localStorage q /\
  elements q' = elements q.
Proof.
  induction k as [|k IH]; intros q t0 t1 Ht.
  - cbn in *. rewrite app_nil_r. auto 10.
  - cbn [replicate] in *. unfold fire_all. cbn [forEach].
    change ((listener (fire (length t0)) ;;
             forEach (replicate k (length t0)) (fun i => listener (fire i))) q)
      with (fire_all (replicate k (length t0)) (snd (fire (length t0) q))).
    rewrite <- app_comm_cons in Ht.
    rewrite (fire_removal q t0 _ h 300 Ht). cbn [snd].
    set (q1 := upd_timers _ _).
    destruct (IH q1 t0 (t1 ++ [(3000, HideNotification)])) as (A & B & C & D & E & F).
    { subst q1. cbn. now rewrite <- app_assoc. }
    cbn zeta. rewrite A, B, C, D, E, F. subst q1. cbn.
    split; [now rewrite <- !app_assoc |].
    split; [destruct k; [reflexivity | apply filter_twice] |].
    split; [now destruct k |]. auto.
Qed.

(** X24. A whole mouse drag delivered to an item with [n+1] equal
    recognizers, on a page with no document listener: the [mousedown] puts
    the handlers of all [n+1] recognizers on the document; the outcome is
    decided by the last leftward move as for a touch drag (the storage area
    accepting the write of a commit), and after the [mouseup] no listener
    is left on the document. *)
Theorem item_mouse_drag_outcome
    (p : page) (h n : nat) (el : element) (s : swipe) (x0 : Z) (xs : list Z)
    (i : Z) (evs : list event) :
  elements p !! h = Some el -> recognizers el = replicate (S n) s ->
  documentListeners p = [] ->
  dataset_id el = Some (decimal i) -> events p = JArr (map to_json evs) ->
  let q := snd (item_mouse_drag h x0 xs p) in
  let d := default (currentTranslate s) (last_leftward x0 xs None) in
  let mv := match last xs with Some x => Some x | None => moveX s end in
  let kept := List.filter (fun e => negb (id e =? i)) evs in
  documentListeners (snd (mousedown h x0 p)) = map (pair h) (seq 0 (S n)) /\
  (d < -100 ->
   accepts (localStorage p) LOCAL_STORAGE_KEY (stringify (JArr (map to_json kept))) = true ->
   documentListeners q = [] /\
   events q = JArr (map to_json kept) /\
   localStorage q
   = <[LOCAL_STORAGE_KEY := stringify (JArr (map to_json kept))]> (localStorage p) /\
   timers q = timers p ++ replicate (S n) (300, RemoveItem h) /\
   exists el', elements q !! h = Some el' /\ collapsed el' = true /\
     style_transform el' = Some TranslateOff /\
     recognizers el' = replicate (S n) (mkSwipe (Some x0) mv d false)) /\
  (-100 <= d ->
   documentListeners q = [] /\
   events q = events p /\ localStorage q = localStorage p /\ timers q = timers p /\
   exists el', elements q !! h = Some el' /\ collapsed el' = collapsed el /\
     delete_ready el' = false /\ style_transform el' = Some TranslateZero /\
     recognizers el' = replicate (S n) (mkSwipe (Some x0) mv 0 false)).
Proof.
  intros He Hr Hdl Hid Hev q d mv kept.
  pose proof (aligned_page p h el n s He Hr) as Hp.
  set (p1 := listening h (S n) p).
  assert (He1 : elements p1 !! h = Some el) by (unfold p1; now rewrite listening_elements).
  assert (Hl1 : documentListeners p1 = map (pair h) (seq 0 (S n)))
    by (apply listening_listeners; exact Hdl).
  assert (Hdown : snd (mousedown h x0 p)
                  = put_all h (fst (started x0 el s)) (replicate (S n) (snd (started x0 el s))) p1).
  { rewrite Hp at 1. now rewrite (mousedown_put_all _ _ _ (visual_of el) _ _ _ He). }
  split; [rewrite Hdown; exact Hl1 |].
  destruct (slide_started x0 xs el s) as (A' & B & C & _).
  pose proof (slide_moveX x0 xs (fst (started x0 el s)) (snd (started x0 el s))
                eq_refl eq_refl) as F.
  destruct (slide_session x0 xs (fst (started x0 el s)) (snd (started x0 el s))
              eq_refl eq_refl) as (_ & _ & _ & _ & _ & _ & G).
  cbn zeta in *. unfold started in A', B, C, F, G, Hdown. cbn [fst snd] in A', B, C, F, G, Hdown.
  set (vs := slide xs _) in *.
  assert (Hs : snd vs = mkSwipe (Some x0) mv d true).
  { destruct (snd vs) as [a b c0 e0] eqn:Es. cbn in *. subst. reflexivity. }
  assert (Hq : q = snd (mouseup (put_all h (fst vs) (replicate (S n) (snd vs)) p1))).
  { unfold q, item_mouse_drag.
    rewrite (bind_eq _ _ _ _ _ (mousedown_ret h x0 p)), Hdown.
    now rewrite (bind_eq _ _ _ _ _ (forEach_mousemove _ _ _ _ _ _ _ He1 Hl1)). }
  assert (Hfields : events p1 = events p /\ localStorage p1 = localStorage p /\
                    timers p1 = timers p).
  { unfold p1. clear. induction (S n) as [|k IH]; [auto | exact IH]. }
  destruct Hfields as (P1 & P2 & P3).
  split.
  - intros Hlt Ha.
    rewrite (mouseup_commit_put_all _ _ _ _ _ _ i evs He1 Hl1) in Hq;
      [| rewrite Hs; reflexivity | rewrite Hs; exact Hlt | exact Hid
       | rewrite P1; exact Hev | rewrite P2; exact Ha].
    fold kept in Hq.
    destruct (unlistening_stored_fields h (map to_json kept) (S n) p1) as (A1 & B1 & D1 & E1).
    split.
    { rewrite Hq. cbn [documentListeners put_all upd_elements].
      apply (no_listener_left h (S n)). intros l Hin.
      apply unlistening_stored_listeners in Hin. now rewrite Hl1 in Hin. }
    rewrite Hq. split; [exact D1 |]. split; [rewrite <- P2; exact E1 |].
    split; [rewrite <- P3; exact B1 |].
    eexists. split; [apply put_all_lookup; rewrite A1; exact He1 |].
    cbn. rewrite Hs. auto.
  - intros Hge.
    rewrite (mouseup_revert_put_all _ _ _ _ _ _ He1 Hl1) in Hq
      by (rewrite Hs; (reflexivity || exact Hge)).
    destruct (unlistening_fields h (S n) p1) as (A1 & B1 & C1 & D1).
    split.
    { rewrite Hq. cbn [documentListeners put_all upd_elements].
      apply (no_listener_left h (S n)). intros l Hin.
      apply unlistening_listeners in Hin. now rewrite Hl1 in Hin. }
    rewrite Hq. split; [rewrite <- P1; exact B1 |]. split; [rewrite <- P2; exact C1 |].
    split; [rewrite <- P3; exact D1 |].
    eexists. split; [apply put_all_lookup; rewrite A1; exact He1 |].
    cbn. rewrite Hs, G. cbn. auto.
Qed.

(* ===================================================================== *)
(** * Instances of the further properties *)
(* ===================================================================== *)

(** The reload of [two_event_page] shows the second capture above the
    first, each with three recognizers. *)
Lemma loaded_history_witness :
  exists q, reload Swipeable "12:00:00" two_event_page = (Ret tt, q) /\
    shown q
    = [Some (item_for Swipeable second_event [new_swipe; new_swipe; new_swipe]);
       Some (item_for Swipeable first_event [new_swipe; new_swipe; new_swipe])].
Proof.
  destruct (loaded_history_newest_first Swipeable "12:00:00" two_event_page
              [first_event; second_event]) as (q & E & A & _);
    [vm_compute; reflexivity |].
  exists q. split; [exact E | exact A].
Defined.

(** The first capture on [ready_page]. *)
Lemma click_records_witness :
  exists q, eventButton_click Swipeable (env_at 1700000000000) ready_page = (Ret tt, q) /\
    events q = JArr [to_json first_event] /\
    elements q = [item_for Swipeable first_event [new_swipe]] /\
    historyContainer q = [0%nat] /\
    opened q = ["https://shreyanssatpute.github.io/dashboard/?eventId=1700000000000"].
Proof.
  destruct (click_records_and_renders (env_at 1700000000000) ready_page 1%nat [])
    as [C _]; [reflexivity | reflexivity |].
  destruct C as (q & E & A1 & _ & A3 & A4 & _ & A6 & _);
    [vm_compute; reflexivity | vm_compute; reflexivity |].
  exists q. split; [exact E |]. split; [exact A1 |]. split; [exact A3 |].
  split; [exact A4 |]. rewrite A6. vm_compute. reflexivity.
Defined.


(** The second capture of [two_event_page], swiped away again. *)
Lemma capture_then_swipe_witness :
  exists p2,
    drag Touch 1 0 200 [80] two_event_page = (Ret true, p2) /\
    events p2 = events one_event_page /\
    timers p2 = timers one_event_page ++ [(3000, HideNotification); (300, RemoveItem 1)].
Proof.
  destruct (capture_then_swipe_restores_store Touch (env_at 1700000000500) one_event_page
              1%nat [first_event] 200 (-120) [80])
    as (p2 & E & A & _ & B & _);
    [reflexivity | vm_compute; reflexivity | vm_compute; reflexivity
    | repeat constructor; discriminate | reflexivity | reflexivity |].
  exists p2. split; [exact E |]. split; [exact A | exact B].
Defined.

(** A refused camera, then two clicks. *)
Lemma refused_camera_witness :
  let q := snd ((initCamera_rejected ;;
                 clicks Swipeable [env_at 1700000000000; env_at 1700000000500])
                  (fresh_page ∅ ∅)) in
  stream q = None /\ events q = JArr [] /\ elements q = [] /\
  timers q = replicate 3 (3000, HideNotification).
Proof.
  destruct (refused_camera_never_captures Swipeable
              [env_at 1700000000000; env_at 1700000000500] (fresh_page ∅ ∅) eq_refl)
    as (A & B & _ & _ & C & _ & _ & _ & _ & D).
  cbv zeta. split; [exact A |]. split; [exact B |]. split; [exact C | exact D].
Defined.

(** A click on the plain page whose session entry is not JSON. *)
Lemma broken_dashboard_witness :
  exists q,
    eventButton_click Plain (env_at 1700000000000) broken_session_page
    = (Throw SyntaxError, q) /\
    events q = JArr [to_json first_event] /\
    notification q = notification broken_session_page.
Proof.
  destruct (broken_dashboard_list_hides_success (env_at 1700000000000)
              broken_session_page 1%nat [] "{"%char EmptyString)
    as (q & E & A & _ & _ & _ & _ & B & _);
    [reflexivity | reflexivity | vm_compute; reflexivity | vm_compute; reflexivity
    | vm_compute; reflexivity |].
  exists q. split; [exact E |]. split; [exact A | exact B].
Defined.

(** Two clicks on the plain page. *)
Lemma plain_clicks_witness :
  sessionStorage
    (snd (clicks Plain [env_at 1700000000000; env_at 1700000000500] plain_ready_page))
    !! DASHBOARD_EVENTS
  = Some (stringify (JArr [to_json first_event; to_json second_event])).
Proof.
  destruct (plain_clicks_fill_dashboard_list
              [env_at 1700000000000; env_at 1700000000500] plain_ready_page 1%nat [] [])
    as (A & _); [reflexivity | reflexivity | vm_compute; reflexivity |].
  rewrite A. vm_compute. reflexivity.
Defined.

(** The item of [null_entry_page] cannot be swiped away. *)
Lemma null_entry_witness :
  deleteHistoryItem 0 null_entry_page = (Throw TypeError, null_entry_page) /\
  exists p',
    drag_end Touch 0 0 null_entry_page = (Throw TypeError, p') /\
    events p' = JArr [JNull; to_json first_event] /\
    timers p' = timers null_entry_page.
Proof.
  destruct (null_entry_blocks_deletion Touch null_entry_page 0 0 dragged_item
              dragged_swipe [JNull; to_json first_event])
    as (A & B);
    [vm_compute; reflexivity | vm_compute; reflexivity | left; reflexivity |].
  split; [exact A |].
  destruct B as (p' & el' & E & B1 & _ & B3 & _); [reflexivity | reflexivity |].
  exists p'. split; [exact E |]. split; [| exact B3].
  rewrite B1. vm_compute. reflexivity.
Defined.

(** Clicks on the page that loaded a stored [null]. *)
Lemma non_array_witness :
  fst (eventButton_click Swipeable (env_at 1700000000000) null_store_page)
    = Throw TypeError /\
  events (snd (clicks Swipeable [env_at 1700000000000; env_at 1700000000500]
                 null_store_page)) = JNull /\
  elements (snd (clicks Swipeable [env_at 1700000000000; env_at 1700000000500]
                   null_store_page)) = [].
Proof.
  destruct (non_array_store_blocks_captures Swipeable
              [env_at 1700000000000; env_at 1700000000500] null_store_page 1%nat)
    as (A & B & _ & _ & C & _);
    [reflexivity | intros l H; vm_compute in H; discriminate H |].
  split; [apply A |]. split; [rewrite B | rewrite C]; vm_compute; reflexivity.
Defined.

(** Loading a stored list of one record followed by [null]. *)
Lemma load_stops_witness :
  exists q,
    loadEvents Swipeable (fresh_page (storing null_tail_text) ∅) = (Throw TypeError, q) /\
    events q = JArr [to_json first_event; JNull] /\
    elements q = [item_for Swipeable first_event [new_swipe]].
Proof.
  destruct (load_stops_at_null_entry Swipeable (fresh_page (storing null_tail_text) ∅)
              "["%char
              (match null_tail_text with String _ r => r | EmptyString => EmptyString end)
              [first_event] [])
    as (q & E & A & B & _);
    [vm_compute; reflexivity | vm_compute; reflexivity |].
  exists q. split; [exact E |]. split; [exact A | exact B].
Defined.

(** A touch drag from 200 over 150 to 120. *)
Lemma shallow_drag_witness :
  exists p' el',
    drag Touch 0 0 200 [150; 120] one_event_page = (Ret false, p') /\
    closure_at p' 0 0 = Some (el', mkSwipe (Some 200) (Some 120) 0 false) /\
    delete_ready el' = false /\ style_transform el' = Some TranslateZero /\
    events p' = events one_event_page.
Proof.
  destruct (shallow_drag_snaps_back Touch one_event_page 0 0 resting_item new_swipe
              200 [150; 120])
    as (p' & el' & E & C & A1 & A2 & _ & _ & A5 & _);
    [vm_compute; reflexivity | vm_compute; discriminate |].
  exists p', el'. auto.
Defined.

(** A touch session from 200 to 80 and on to 250: the item stays where the
    move to 80 left it. *)
Lemma display_witness :
  exists p1 el1 s1,
    (drag_start Touch 0 0 200 ;; drag_moves Touch 0 0 [80; 250]) one_event_page
    = (Ret tt, p1) /\
    closure_at p1 0 0 = Some (el1, s1) /\
    style_transform el1 = Some (TranslateX (-120)) /\ delete_ready el1 = true.
Proof.
  destruct (display_follows_last_leftward_move Touch one_event_page 0 0 resting_item
              new_swipe 200 [80; 250])
    as (p1 & el1 & s1 & E & C & _ & _ & _ & M & _); [vm_compute; reflexivity |].
  exists p1, el1, s1. split; [exact E |]. split; [exact C |].
  cbn in M. destruct M as (M1 & M2 & _). split; [exact M1 | exact M2].
Defined.

(** A mouse press, and a whole mouse drag, on [one_event_page]. *)
Lemma mouse_listeners_witness :
  documentListeners (snd (handleMouseDown 0 0 200 one_event_page)) = [(0, 0)%nat] /\
  documentListeners (snd (drag Mouse 0 0 200 [80] one_event_page)) = [].
Proof.
  destruct (mouse_drag_detaches_its_listeners one_event_page 0 0 resting_item new_swipe
              200 210 [80])
    as (A & _ & _ & _ & B & _); [vm_compute; reflexivity |].
  split; [rewrite A | rewrite B]; vm_compute; reflexivity.
Defined.

(** Presses, moves and releases of both kinds on the item of
    [one_event_page]. *)
Lemma affordance_gestures_witness :
  exists el' s',
    closure_at
      (snd (gestures 0 0 [Press Touch 200; Move Touch 80; Press Mouse 150;
                          Release Touch; Move Mouse 10] one_event_page)) 0 0
    = Some (el', s') /\
    affordance_kept el' s'.
Proof.
  apply (affordance_kept_by_every_gesture 0 0
           [Press Touch 200; Move Touch 80; Press Mouse 150; Release Touch; Move Mouse 10]
           one_event_page resting_item new_swipe);
    [vm_compute; reflexivity | vm_compute; discriminate].
Defined.

(** Moves and a mouse release after a committed touch drag. *)
Lemma idle_moves_witness :
  drag_moves Mouse 0 0 [10; 20] (snd (drag Touch 0 0 200 [80] one_event_page))
  = (Ret tt, snd (drag Touch 0 0 200 [80] one_event_page)) /\
  handleMouseUp 0 0 (snd (drag Touch 0 0 200 [80] one_event_page))
  = (Ret false, snd (drag Touch 0 0 200 [80] one_event_page)).
Proof.
  destruct (moves_between_drags_are_ignored Touch one_event_page 0 0 resting_item
              new_swipe 200 [80]) as [_ F]; [vm_compute; reflexivity |].
  exact (F Mouse [10; 20]).
Defined.

(** A second touchend on [released_page]. *)
Lemma touchend_guard_witness :
  handleMouseUp 0 0 released_page = (Ret false, released_page) /\
  exists p',
    handleTouchEnd 0 0 released_page = (Ret true, p') /\
    timers p' = timers released_page ++ [(300, RemoveItem 0)].
Proof.
  destruct (touchend_has_no_session_guard released_page 0 0
              (match elements released_page !! 0%nat with
               | Some e => e
               | None => resting_item
               end)
              (mkSwipe (Some 200) (Some 80) (-120) false) [second_event]
              1700000000000) as (_ & A & C);
    [vm_compute; reflexivity | reflexivity | vm_compute; reflexivity
    | vm_compute; reflexivity | vm_compute; reflexivity |].
  destruct C as (p' & el' & E & B & _); [vm_compute; reflexivity |].
  split; [exact A |]. exists p'. split; [exact E | exact B].
Defined.

(** A touchstart on the first item of [reloaded_page] starts the session
    of its three recognizers. *)
Lemma touch_reach_witness :
  (recognizers <$> (elements (snd (touchstart 0 200 reloaded_page)) !! 0%nat))
  = Some (replicate 3 (mkSwipe (Some 200) None 0 true)) /\
  (recognizers <$> (elements (snd (touchend 0 reloaded_page)) !! 0%nat))
  = Some (replicate 3 (mkSwipe None None 0 false)).
Proof.
  destruct (touch_events_reach_every_recognizer reloaded_page 0 2
              (item_for Swipeable first_event (loaded_recognizers Swipeable))
              new_swipe 200)
    as (A & _ & B); [vm_compute; reflexivity | reflexivity |].
  split; [rewrite A | rewrite B by (vm_compute; discriminate)]; vm_compute; reflexivity.
Defined.

(** The release of the drag of [dragging_reloaded_page]. *)
Lemma touchend_commits_witness :
  events (snd (touchend 0 dragging_reloaded_page)) = JArr [to_json second_event] /\
  timers (snd (touchend 0 dragging_reloaded_page)) = replicate 3 (300, RemoveItem 0).
Proof.
  destruct (touchend_commits_once_per_recognizer dragging_reloaded_page 0 2
              (match elements dragging_reloaded_page !! 0%nat with
               | Some e => e
               | None => resting_item
               end)
              dragged_swipe 1700000000000 [first_event; second_event])
    as (A & _ & B & _);
    [vm_compute; reflexivity | vm_compute; reflexivity | vm_compute; reflexivity
    | vm_compute; reflexivity | vm_compute; reflexivity | vm_compute; reflexivity |].
  split; [exact A | exact B].
Defined.

(** The whole touch drag from 200 to 80 on the first item of
    [reloaded_page]. *)
Lemma item_touch_drag_witness :
  events (snd (item_touch_drag 0 200 [80] reloaded_page)) = JArr [to_json second_event] /\
  timers (snd (item_touch_drag 0 200 [80] reloaded_page))
  = replicate 3 (300, RemoveItem 0).
Proof.
  destruct (item_touch_drag_outcome reloaded_page 0 2
              (item_for Swipeable first_event (loaded_recognizers Swipeable))
              new_swipe 200 [80] 1700000000000 [first_event; second_event])
    as (C & _);
    [vm_compute; reflexivity | reflexivity | reflexivity | vm_compute; reflexivity |].
  destruct C as (A & _ & B & _); [vm_compute; reflexivity | vm_compute; reflexivity |].
  split; [exact A | exact B].
Defined.

(** The three removal timers of [swiped_reloaded_page] fire. *)
Lemma removal_timers_witness :
  historyContainer (snd (fire_all [0; 0; 0]%nat swiped_reloaded_page)) = [1%nat] /\
  timers (snd (fire_all [0; 0; 0]%nat swiped_reloaded_page))
  = replicate 3 (3000, HideNotification) /\
  notification (snd (fire_all [0; 0; 0]%nat swiped_reloaded_page))
  = mkNotice "Event deleted" false true.
Proof.
  destruct (removal_timers_remove_once 0 3 swiped_reloaded_page [] [])
    as (A & B & C & _); [vm_compute; reflexivity |].
  split; [exact (eq_trans B ltac:(vm_compute; reflexivity)) |].
  split; [exact A | exact C].
Defined.

(** The whole mouse drag from 200 to 80 on the first item of
    [reloaded_page]. *)
Lemma item_mouse_drag_witness :
  documentListeners (snd (mousedown 0 200 reloaded_page))
  = [(0, 0); (0, 1); (0, 2)]%nat /\
  documentListeners (snd (item_mouse_drag 0 200 [80] reloaded_page)) = [] /\
  timers (snd (item_mouse_drag 0 200 [80] reloaded_page))
  = replicate 3 (300, RemoveItem 0).
Proof.
  destruct (item_mouse_drag_outcome reloaded_page 0 2
              (item_for Swipeable first_event (loaded_recognizers Swipeable))
              new_swipe 200 [80] 1700000000000 [first_event; second_event])
    as (A & C & _);
    [vm_compute; reflexivity | reflexivity | reflexivity | reflexivity
    | vm_compute; reflexivity |].
  destruct C as (B & _ & _ & T & _); [vm_compute; reflexivity | vm_compute; reflexivity |].
  split; [exact A |]. split; [exact B | exact T].
Defined.
